(** * ptysd: a pseudo-terminal shell server

    Shallow embedding of [ptysd.c] and the properties of its session
    supervisor, pty set-up and relay workers.

    The program is a sequence of system and library calls whose results
    are chosen by the operating system.  It is embedded in a small monad
    over a [world]: the program's global variables, the STREAMS module
    stack of the session's slave pty, and the history of calls made so
    far.  The results of the calls come from an [environment], an oracle
    indexed by the length of the history.

    An [int] is an integer of [Z]: the values met here are descriptors,
    process and thread identifiers, and counts of at most 512 bytes, far
    from the bounds of the type.  [%] is [Z.rem], the remainder of the
    division that truncates. *)

From Stdlib Require Import String Strings.Byte.
From Stdlib Require Import ZArith List Bool Lia.
Import ListNotations.
Local Open Scope string_scope.
Local Open Scope list_scope.
Local Open Scope Z_scope.

(** ** Calls, events and the world *)

(** The two arrays shared between the relay threads. *)
Inductive shared : Type :=
| RelayFds        (* ps_relay_fds *)
| RelayThreads.   (* ps_relay_threads *)

(** Calls that return an integer.  Pointers ([ptsname], [getenv]) are
    integers too, with 0 for NULL. *)
Inductive syscall : Type :=
| Accept (fd : Z)
| Fork
| Wait
| Close (fd : Z)
| PosixOpenpt
| Grantpt (fd : Z)
| Unlockpt (fd : Z)
| Setsid
| Ptsname (fd : Z)
| Open (path : Z)
| IoctlFind (fd : Z) (name : string)
| IoctlPush (fd : Z) (name : string)
| Dup2 (fd newfd : Z)
| Closefrom (lowfd : Z)
| Getenv (name : string)
| Chdir (path : Z)
| Execl (path : string)
| PthreadCreate (slot arg : Z)
| ThreadSlot (slot : Z)
| PthreadDetach (thread : Z)
| PthreadCancel (thread : Z)
| Write (fd off count : Z) (data : list byte).

(** [Write fd off count data] is [write(fd, buf + off, count)], [data]
    being the [count] bytes of [buf] from [off] on.  [ThreadSlot slot] is
    no call of the program: its answer is the value that a
    [pthread_create] which fails leaves in [ps_relay_threads[slot]], a
    content that the call leaves undefined. *)

Inductive event : Type :=
| Sys (c : syscall) (r : Z)                           (* call and result *)
| SysRead (fd count : Z) (res : option (list byte))   (* read(fd, buf, count) *)
| Perror (msg : string)
| Printf (msg : string) (v : Z)
| Store (a : shared) (i v : Z)                        (* a[i] = v *)
| Load (a : shared) (i v : Z).                        (* v = a[i] *)

Record world : Type := mkWorld {
  ps_sockfd : Z;                   (* TCP server socket *)
  ps_relay_fds : Z * Z;            (* int ps_relay_fds[2] *)
  ps_relay_threads : Z * Z;        (* pthread_t ps_relay_threads[2] *)
  modules : list string;           (* modules pushed on the slave pty, top first *)
  next_tid : Z;                    (* identifier of the next thread created *)
  trace : list event               (* history, oldest event first *)
}.

(** The operating system: the result of a call made when the history
    has [n] events; what a read made then finds ([None] for an error,
    [Some data] for the bytes that the source holds, none of them at end
    of stream); the status stored by a [wait] made then. *)
Record environment : Type := mkEnv {
  ret_of : nat -> syscall -> Z;
  input : nat -> option (list byte);
  wstatus : nat -> Z
}.

(** How a thread or process run ends. *)
Inductive outcome (A : Type) : Type :=
| Ret (a : A)           (* the function returned *)
| Exited (status : Z)   (* exit(status) *)
| Execed                (* the process image was replaced *)
| Aborted               (* an assertion failed *)
| Undefined             (* array access out of bounds *)
| OutOfFuel.            (* still running when the fuel ran out *)

Arguments Ret {A} a.
Arguments Exited {A} status.
Arguments Execed {A}.
Arguments Aborted {A}.
Arguments Undefined {A}.
Arguments OutOfFuel {A}.

Definition M (A : Type) : Type := world -> outcome A * world.

Definition ret {A} (a : A) : M A := fun w => (Ret a, w).

Definition bind {A B} (m : M A) (f : A -> M B) : M B :=
  fun w =>
    match m w with
    | (Ret a, w') => f a w'
    | (Exited s, w') => (Exited s, w')
    | (Execed, w') => (Execed, w')
    | (Aborted, w') => (Aborted, w')
    | (Undefined, w') => (Undefined, w')
    | (OutOfFuel, w') => (OutOfFuel, w')
    end.

Notation "x <- m ;; k" := (bind m (fun x => k))
  (at level 61, m at next level, right associativity).
Notation "m ;; k" := (bind m (fun _ => k))
  (at level 61, right associativity).

Definition log (e : event) (w : world) : world :=
  mkWorld (ps_sockfd w) (ps_relay_fds w) (ps_relay_threads w) (modules w)
          (next_tid w) (trace w ++ [e]).

Definition set_modules (m : list string) (w : world) : world :=
  mkWorld (ps_sockfd w) (ps_relay_fds w) (ps_relay_threads w) m
          (next_tid w) (trace w).

Definition sel (a : shared) (w : world) : Z * Z :=
  match a with
  | RelayFds => ps_relay_fds w
  | RelayThreads => ps_relay_threads w
  end.

Definition set_sel (a : shared) (l : Z * Z) (w : world) : world :=
  match a with
  | RelayFds =>
      mkWorld (ps_sockfd w) l (ps_relay_threads w) (modules w) (next_tid w) (trace w)
  | RelayThreads =>
      mkWorld (ps_sockfd w) (ps_relay_fds w) l (modules w) (next_tid w) (trace w)
  end.

Definition bump_tid (w : world) : world :=
  mkWorld (ps_sockfd w) (ps_relay_fds w) (ps_relay_threads w) (modules w)
          (next_tid w + 1) (trace w).

(** The two-element arrays: [a[i]] and [a[i] = v], defined for the
    indices 0 and 1 only. *)
Definition arr_get (a : Z * Z) (i : Z) : option Z :=
  if i =? 0 then Some (fst a)
  else if i =? 1 then Some (snd a)
  else None.

Definition arr_set (a : Z * Z) (i v : Z) : option (Z * Z) :=
  if i =? 0 then Some (v, snd a)
  else if i =? 1 then Some (fst a, v)
  else None.

(** [buf + off], [count] bytes. *)
Definition slice (buf : list byte) (off count : Z) : list byte :=
  firstn (Z.to_nat count) (skipn (Z.to_nat off) buf).

(** The buffer after [read] has stored [data] at its start. *)
Definition fill (buf data : list byte) : list byte :=
  data ++ skipn (length data) buf.

Definition exit {A} (status : Z) : M A := fun w => (Exited status, w).

Definition assert (b : bool) : M unit :=
  fun w => if b then (Ret tt, w) else (Aborted, w).

Definition out_of_fuel {A} : M A := fun w => (OutOfFuel, w).

Definition perror (msg : string) : M unit :=
  fun w => (Ret tt, log (Perror msg) w).

Definition printf (msg : string) (v : Z) : M unit :=
  fun w => (Ret tt, log (Printf msg v) w).

Definition load (a : shared) (i : Z) : M Z :=
  fun w =>
    match arr_get (sel a w) i with
    | Some v => (Ret v, log (Load a i v) w)
    | None => (Undefined, w)
    end.

Definition store (a : shared) (i v : Z) : M unit :=
  fun w =>
    match arr_set (sel a w) i v with
    | Some l => (Ret tt, log (Store a i v) (set_sel a l w))
    | None => (Undefined, w)
    end.

Definition get_sockfd : M Z := fun w => (Ret (ps_sockfd w), w).

(** ** The messages of the program *)

(** The string literals of the source that hold a double quote or end
    with a newline. *)
Definition dquote : string := String (Ascii.ascii_of_nat 34) EmptyString.

Definition newline : string := String (Ascii.ascii_of_nat 10) EmptyString.

(** The diagnostic of a failed [ioctl]: the request and, between double
    quotes, the name of the module. *)
Definition msg_ioctl (request name : string) : string :=
  ("child's child: ioctl(" ++ request ++ ", " ++ dquote ++ name ++ dquote ++ ")")%string.

Definition msg_find_ldterm : string := Eval cbv in msg_ioctl "I_FIND" "ldterm".

Definition msg_push_ptem : string := Eval cbv in msg_ioctl "I_PUSH" "ptem".

Definition msg_push_ldterm : string := Eval cbv in msg_ioctl "I_PUSH" "ldterm".

Definition msg_push_ttcompat : string := Eval cbv in msg_ioctl "I_PUSH" "ttcompat".

(** The two formats of the supervisor, each ending with a newline. *)
Definition fmt_forked : string :=
  Eval cbv in ("forked child %lu for new connection" ++ newline)%string.

Definition fmt_exited : string :=
  Eval cbv in ("child exited with status %d" ++ newline)%string.

Section Program.

Variable env : environment.

(** A call whose only effect on the world is its entry in the history. *)
Definition sys (c : syscall) : M Z :=
  fun w =>
    let r := ret_of env (length (trace w)) c in
    (Ret r, log (Sys c r) w).

(** What a [read] of [count] bytes returns when the history has [n]
    events: an error, or the bytes that the source holds then, and never
    more than [count] of them. *)
Definition delivered (n : nat) (count : Z) : option (list byte) :=
  option_map (firstn (Z.to_nat count)) (input env n).

(** [read(fd, buf, count)]: the number of bytes read, or -1, and the
    buffer afterwards.  A [count] larger than the buffer lets [read]
    store bytes past its end. *)
Definition sys_read (fd : Z) (buf : list byte) (count : Z) : M (Z * list byte) :=
  fun w =>
    if Z.of_nat (length buf) <? count then (Undefined, w)
    else
      let res := delivered (length (trace w)) count in
      let w' := log (SysRead fd count res) w in
      match res with
      | Some data => (Ret (Z.of_nat (length data), fill buf data), w')
      | None => (Ret (-1, buf), w')
      end.

(** [wait(&status)]: the process identifier returned and the status
    stored. *)
Definition sys_wait : M (Z * Z) :=
  fun w =>
    let n := length (trace w) in
    let r := ret_of env n Wait in
    (Ret (r, wstatus env n), log (Sys Wait r) w).

(** [execl] returns only when it fails; the oracle's answer 0 stands for
    a successful replacement of the process image. *)
Definition execl (path : string) : M Z :=
  fun w =>
    let r := ret_of env (length (trace w)) (Execl path) in
    if r =? 0 then (Execed, log (Sys (Execl path) 0) w)
    else (Ret r, log (Sys (Execl path) r) w).

(** [ioctl(fd, I_FIND, name)] on the slave pty: a negative value on
    error, else 1 when the named module is on the stream and 0 when it
    is not. *)
Definition ioctl_find (fd : Z) (name : string) : M Z :=
  fun w =>
    let o := ret_of env (length (trace w)) (IoctlFind fd name) in
    let r := if o <? 0 then o
             else if existsb (String.eqb name) (modules w) then 1 else 0 in
    (Ret r, log (Sys (IoctlFind fd name) r) w).

(** [ioctl(fd, I_PUSH, name)] on the slave pty: a negative value on
    error, the stream being left as it was, else 0 with the module pushed
    on top of the stream. *)
Definition ioctl_push (fd : Z) (name : string) : M Z :=
  fun w =>
    let o := ret_of env (length (trace w)) (IoctlPush fd name) in
    if o <? 0 then (Ret o, log (Sys (IoctlPush fd name) o) w)
    else (Ret 0, log (Sys (IoctlPush fd name) 0) (set_modules (name :: modules w) w)).

(** [pthread_create(&ps_relay_threads[slot], NULL, ps_relay_one, arg)]:
    on success (0) the identifier of the new thread has been stored in
    the slot and a thread running [ps_relay_one(arg)] has been started.
    The event of the call marks the start of the thread; the store is
    logged before it, the order that favours the threads reading the
    slot.  The run of the new thread is a run of [ps_relay_one] of its
    own, on the globals of the process and with a history of its own
    ([thread_world]).  On failure no thread is created and the content of
    the slot is undefined: the slot receives a value chosen by the
    operating system. *)
Definition pthread_create (slot arg : Z) : M Z :=
  fun w =>
    let r := ret_of env (length (trace w)) (PthreadCreate slot arg) in
    if r =? 0 then
      (store RelayThreads slot (next_tid w) ;;
       fun w' => (Ret 0, log (Sys (PthreadCreate slot arg) 0) w'))
        (bump_tid w)
    else
      (store RelayThreads slot (ret_of env (length (trace w)) (ThreadSlot slot)) ;;
       fun w' => (Ret r, log (Sys (PthreadCreate slot arg) r) w'))
        w.

(** ** The relay worker: [ps_relay_one] *)

(** The inner loop, lines 301-309:
    [while (towrite > 0) { nwritten = write(destfd, buf + (nread - towrite), towrite); ... }].
    Returns [towrite] at the exit of the loop. *)
Fixpoint write_loop (fuel : nat) (destfd : Z) (buf : list byte)
         (nread towrite : Z) : M Z :=
  if towrite >? 0 then
    match fuel with
    | O => out_of_fuel
    | S fuel' =>
        nwritten <- sys (Write destfd (nread - towrite) towrite
                               (slice buf (nread - towrite) towrite)) ;;
        if nwritten <? 0 then
          perror "child: write" ;; ret towrite
        else
          write_loop fuel' destfd buf nread (towrite - nwritten)
    end
  else ret towrite.

(** The outer loop, lines 293-315.  Returns [nread] at the exit of the
    loop. *)
Fixpoint relay_loop (fuel : nat) (sourcefd destfd : Z) (buf : list byte) : M Z :=
  match fuel with
  | O => out_of_fuel
  | S fuel' =>
      r <- sys_read sourcefd buf 512 ;;
      let nread := fst r in
      let buf' := snd r in
      if nread >=? 0 then
        if nread =? 0 then
          sys (Close destfd) ;; ret nread
        else
          towrite <- write_loop fuel' destfd buf' nread nread ;;
          if towrite >? 0 then ret nread
          else
            assert (towrite =? 0) ;;
            relay_loop fuel' sourcefd destfd buf'
      else ret nread
  end.

(** [char buf[512]] is not initialised in the source; the loops read
    only bytes that a [read] has stored.  The count of the [read] of the
    copy loop, [sizeof (buf)], is 512. *)
Definition buf0 : list byte := repeat x00 512.

Definition ps_relay_one (fuel : nat) (arg : Z) : M unit :=
  sourcefd <- load RelayFds arg ;;
  destfd <- load RelayFds (Z.rem (sourcefd + 1) 2) ;;
  other <- load RelayThreads (Z.rem (sourcefd + 1) 2) ;;
  nread <- relay_loop fuel sourcefd destfd buf0 ;;
  (if nread <? 0 then perror "child: read" else ret tt) ;;
  sys (PthreadCancel other) ;;
  ret tt.

(** ** Starting the relay: [ps_relay] *)

Definition ps_relay (peerfd mfd : Z) : M Z :=
  store RelayFds 0 peerfd ;;
  store RelayFds 1 mfd ;;
  r0 <- pthread_create 0 0 ;;
  if negb (r0 =? 0) then
    perror "child: pthread_create(1)" ;; ret (-1)
  else
    r1 <- pthread_create 1 1 ;;
    if negb (r1 =? 0) then
      perror "child: pthread_create(2)" ;; ret (-1)
    else
      t0 <- load RelayThreads 0 ;;
      sys (PthreadDetach t0) ;;
      t1 <- load RelayThreads 1 ;;
      sys (PthreadDetach t1) ;;
      ret 0.

(** ** The slave side of the pty: [ps_init_slavepty] *)

(** Lines 219-239: look for the line discipline and push the three
    modules when it is absent.  Returns -1 where the source returns -1
    from the enclosing function, else 0. *)
Definition ps_init_slavepty_ldterm (sfd : Z) : M Z :=
  setup <- ioctl_find sfd "ldterm" ;;
  if setup <? 0 then
    perror msg_find_ldterm ;; ret (-1)
  else if setup =? 0 then
    r1 <- ioctl_push sfd "ptem" ;;
    if r1 <? 0 then
      perror msg_push_ptem ;; ret (-1)
    else
      r2 <- ioctl_push sfd "ldterm" ;;
      if r2 <? 0 then
        perror msg_push_ldterm ;; ret (-1)
      else
        r3 <- ioctl_push sfd "ttcompat" ;;
        if r3 <? 0 then
          perror msg_push_ttcompat ;; ret (-1)
        else ret 0
  else ret 0.

Definition ps_init_slavepty (mfd : Z) : M Z :=
  slavename <- sys (Ptsname mfd) ;;
  if slavename =? 0 then
    perror "child's child: ptsname" ;; ret (-1)
  else
    sys (Close mfd) ;;
    sfd <- sys (Open slavename) ;;
    if sfd <? 0 then
      perror "child's child: open pty" ;; ret (-1)
    else
      ld <- ps_init_slavepty_ldterm sfd ;;
      if negb (ld =? 0) then ret (-1)
      else
        d0 <- sys (Dup2 sfd 0) ;;
        if negb (d0 =? 0) then
          perror "child's child: dup2" ;; ret (-1)
        else
          d1 <- sys (Dup2 sfd 1) ;;
          if negb (d1 =? 1) then
            perror "child's child: dup2" ;; ret (-1)
          else
            d2 <- sys (Dup2 sfd 2) ;;
            if negb (d2 =? 2) then
              perror "child's child: dup2" ;; ret (-1)
            else
              sys (Closefrom 3) ;;
              ret 0.

(** ** One session: [ps_server_connected] *)

Definition ps_server_connected (peerfd : Z) : M Z :=
  mfd <- sys PosixOpenpt ;;
  if mfd <? 0 then
    perror "child: posix_openpt" ;; ret (-1)
  else
    g <- sys (Grantpt mfd) ;;
    if negb (g =? 0) then
      perror "child: grantpt" ;; ret (-1)
    else
      u <- sys (Unlockpt mfd) ;;
      if negb (u =? 0) then
        perror "child: unlockpt" ;; ret (-1)
      else
        childpid <- sys Fork ;;
        if childpid <? 0 then
          perror "child: fork" ;; ret (-1)
        else if negb (childpid =? 0) then
          r <- ps_relay peerfd mfd ;;
          if negb (r =? 0) then ret (-1)
          else
            sys_wait ;;
            ret 0
        else
          sys (Close peerfd) ;;
          sys Setsid ;;
          s <- ps_init_slavepty mfd ;;
          if negb (s =? 0) then exit 1
          else
            home <- sys (Getenv "HOME") ;;
            c <- sys (Chdir home) ;;
            (if negb (c =? 0) then perror "child: WARN: chdir" else ret tt) ;;
            execl "/bin/bash" ;;
            perror "child's child: exec" ;;
            exit 1.

(** ** The supervisor: [ps_server_run] *)

(** Lines 135-138, after the loop. *)
Definition ps_server_run_end (peerfd : Z) : M unit :=
  (if peerfd <? 0 then perror "accept" else ret tt) ;;
  sockfd <- get_sockfd ;;
  sys (Close sockfd) ;;
  ret tt.

Fixpoint ps_server_run (fuel : nat) : M unit :=
  match fuel with
  | O => out_of_fuel
  | S fuel' =>
      sockfd <- get_sockfd ;;
      peerfd <- sys (Accept sockfd) ;;
      if peerfd >=? 0 then
        pid <- sys Fork ;;
        if pid <? 0 then
          perror "fork" ;;
          ps_server_run_end peerfd
        else if negb (pid =? 0) then
          sys (Close peerfd) ;;
          printf fmt_forked pid ;;
          ws <- sys_wait ;;
          assert (fst ws =? pid) ;;
          printf fmt_exited (snd ws) ;;
          ps_server_run fuel'
        else
          sockfd' <- get_sockfd ;;
          sys (Close sockfd') ;;
          st <- ps_server_connected peerfd ;;
          exit st
      else
        ps_server_run_end peerfd
  end.

End Program.

(** ** Observations on a history *)

(** The bytes delivered by the reads of a history. *)
Fixpoint readin (l : list event) : list byte :=
  match l with
  | [] => []
  | SysRead _ _ (Some data) :: l' => data ++ readin l'
  | _ :: l' => readin l'
  end.

(** The bytes accepted by the writes of a history: a write that returns
    [r >= 0] has accepted the first [r] bytes offered. *)
Fixpoint written (l : list event) : list byte :=
  match l with
  | [] => []
  | Sys (Write _ _ _ data) r :: l' =>
      (if r <? 0 then [] else firstn (Z.to_nat r) data) ++ written l'
  | _ :: l' => written l'
  end.

(** The number of reads and the number of writes of a history. *)
Fixpoint count_reads (l : list event) : nat :=
  match l with
  | [] => 0
  | SysRead _ _ _ :: l' => S (count_reads l')
  | _ :: l' => count_reads l'
  end.

Fixpoint count_writes (l : list event) : nat :=
  match l with
  | [] => 0
  | Sys (Write _ _ _ _) _ :: l' => S (count_writes l')
  | _ :: l' => count_writes l'
  end.

(** Where a relay worker stands in its copy: between chunks; holding
    the part of a chunk not yet accepted by the destination; finished
    after an end of stream or a read error; stopped by a write error with
    a part of the chunk undelivered.  [Bad] is entered by a history that
    no copy loop should produce. *)
Inductive relay_state : Type :=
| Idle
| Pending (rest : list byte)
| Finished
| Failed (rest : list byte)
| Bad.

Definition relay_step (s : relay_state) (e : event) : relay_state :=
  match e with
  | SysRead _ _ res =>
      match s with
      | Idle =>
          match res with
          | Some [] => Finished
          | Some data => Pending data
          | None => Finished
          end
      | _ => Bad
      end
  | Sys (Write _ _ _ data) r =>
      match s with
      | Pending rest =>
          if list_eq_dec byte_eq_dec data rest then
            if r <? 0 then Failed rest
            else if r <? Z.of_nat (length rest)
                 then Pending (skipn (Z.to_nat r) rest)
                 else Idle
          else Bad
      | _ => Bad
      end
  | _ => s
  end.

Definition relay_run (s : relay_state) (l : list event) : relay_state :=
  fold_left relay_step l s.

Definition pending (s : relay_state) : list byte :=
  match s with
  | Pending rest => rest
  | Failed rest => rest
  | _ => []
  end.

(** A write at [buf + off] of [count] bytes stays inside [char buf[512]]:
    with [off = nread - towrite] and [count = towrite] this is
    [0 < towrite <= nread <= sizeof (buf)]. *)
Definition write_in_buf (e : event) : Prop :=
  match e with
  | Sys (Write _ off count data) _ =>
      0 <= off /\ 0 < count /\ off + count <= Z.of_nat (length buf0) /\
      Z.of_nat (length data) = count
  | _ => True
  end.

(** A read asks for no more bytes than [char buf[512]] holds, and gets
    no more than it has asked for: [nread <= sizeof (buf)]. *)
Definition read_in_buf (e : event) : Prop :=
  match e with
  | SysRead _ count res =>
      count <= Z.of_nat (length buf0) /\
      match res with
      | Some data => Z.of_nat (length data) <= count
      | None => True
      end
  | _ => True
  end.

(** A write of the last [count] bytes of a chunk of [nread] bytes,
    [buf[nread - count, nread)]. *)
Definition write_in_chunk (nread : Z) (e : event) : Prop :=
  match e with
  | Sys (Write _ off count _) _ => off = nread - count
  | _ => True
  end.

(** What the program relies on from [write]: at most the number of
    bytes offered is written. *)
Definition write_contract (env : environment) : Prop :=
  forall n fd off count data, ret_of env n (Write fd off count data) <= count.

(** Every write fails or accepts at least one byte. *)
Definition write_progress (env : environment) : Prop :=
  forall n fd off count data, ret_of env n (Write fd off count data) <> 0.

(** From the [n]-th event on, every read reports an end of stream or an
    error. *)
Definition reads_end (env : environment) (n : nat) : Prop :=
  forall k, (n <= k)%nat -> input env k = Some [] \/ input env k = None.

(** The world of a process after [ps_server_init] has bound [sockfd]:
    the initial values of the globals, an empty stream, no history. *)
Definition world_after_init (sockfd : Z) : world :=
  mkWorld sockfd (-1, -1) (0, 0) [] 2 [].

(** ** Auxiliary definitions *)

(** The state of the copy when [towrite] bytes of the chunk
    [buf[0, nread)] are left to write. *)
Definition chunk_state (buf : list byte) (nread towrite : Z) : relay_state :=
  if towrite >? 0 then Pending (slice buf (nread - towrite) towrite) else Idle.

Definition omap {A B} (f : A -> B) (o : outcome A) : outcome B :=
  match o with
  | Ret a => Ret (f a)
  | Exited s => Exited s
  | Execed => Execed
  | Aborted => Aborted
  | Undefined => Undefined
  | OutOfFuel => OutOfFuel
  end.

(** The three loads at the top of [ps_relay_one]. *)
Definition relay_entry (arg sourcefd destfd other : Z) : list event :=
  [Load RelayFds arg sourcefd;
   Load RelayFds (Z.rem (sourcefd + 1) 2) destfd;
   Load RelayThreads (Z.rem (sourcefd + 1) 2) other].

(** The events between the copy loop and the return of the worker. *)
Definition relay_exit (nread other r : Z) : list event :=
  (if nread <? 0 then [Perror "child: read"] else []) ++
  [Sys (PthreadCancel other) r].

(** The last events of a copy loop that was not stopped by a write
    error. *)
Definition relay_last (sourcefd destfd nread r : Z) : list event :=
  if nread <? 0 then [SysRead sourcefd 512 None]
  else [SysRead sourcefd 512 (Some []); Sys (Close destfd) r].

(** The source, the destination and the thread to cancel that
    [ps_relay_one(arg)] takes from the shared arrays (lines 289-291). *)
Definition relay_ends (w : world) (arg : Z) : option (Z * Z * Z) :=
  match arr_get (ps_relay_fds w) arg with
  | Some sourcefd =>
      match arr_get (ps_relay_fds w) (Z.rem (sourcefd + 1) 2),
            arr_get (ps_relay_threads w) (Z.rem (sourcefd + 1) 2) with
      | Some destfd, Some other => Some (sourcefd, destfd, other)
      | _, _ => None
      end
  | None => None
  end.

(** The reads of a worker are reads of 512 bytes from [sourcefd]; its
    writes and its [close] go to [destfd]. *)
Definition relay_io (sourcefd destfd : Z) (e : event) : Prop :=
  match e with
  | SysRead fd count _ => fd = sourcefd /\ count = 512
  | Sys (Write fd _ _ _) _ => fd = destfd
  | Sys (Close fd) _ => fd = destfd
  | _ => True
  end.

(** The world as a newly started thread meets it: the globals of the
    process, and a history of its own. *)
Definition thread_world (w : world) : world :=
  mkWorld (ps_sockfd w) (ps_relay_fds w) (ps_relay_threads w) (modules w)
          (next_tid w) [].

Definition is_store (e : event) : Prop :=
  match e with
  | Store _ _ _ => True
  | _ => False
  end.

Definition is_storeb (e : event) : bool :=
  match e with
  | Store _ _ _ => true
  | _ => false
  end.

(** No element of the shared arrays is stored once a worker has been
    started, that is after a [pthread_create] that returned 0. *)
Fixpoint written_before_start (h : list event) : bool :=
  match h with
  | [] => true
  | Sys (PthreadCreate _ _) r :: h' =>
      if r =? 0 then forallb (fun e => negb (is_storeb e)) h'
      else written_before_start h'
  | _ :: h' => written_before_start h'
  end.

Definition not_fd_store (e : event) : Prop :=
  match e with
  | Store RelayFds _ _ => False
  | _ => True
  end.

(** An event that is not an [accept]. *)
Definition not_accept (e : event) : Prop :=
  match e with
  | Sys (Accept _) _ => False
  | _ => True
  end.

(** [w'] continues [w] with events that all satisfy [P]; when none of
    them is a store, the shared arrays are those of [w]. *)
Definition emits (P : event -> Prop) (w w' : world) : Prop :=
  exists l,
    trace w' = trace w ++ l /\ Forall P l /\
    (Forall (fun e => ~ is_store e) l -> forall a, sel a w' = sel a w).

Definition keeps (P : event -> Prop) {A} (m : M A) : Prop :=
  forall w, emits P w (snd (m w)).

(** The computation returns, exits or replaces the process image: it
    neither aborts, nor reads outside an array, nor runs for ever. *)
Definition finishes {A} (m : M A) : Prop :=
  forall w,
    match fst (m w) with
    | Ret _ | Exited _ | Execed => True
    | _ => False
    end.

Definition has_ldterm (w : world) : bool :=
  existsb (String.eqb "ldterm") (modules w).

(** The modules of the line discipline, in the order of their pushes. *)
Definition ld_modules : list string := ["ptem"; "ldterm"; "ttcompat"].

(** The modules pushed with success along a history, first push
    first. *)
Fixpoint pushed (h : list event) : list string :=
  match h with
  | [] => []
  | Sys (IoctlPush _ name) r :: h' =>
      if r <? 0 then pushed h' else name :: pushed h'
  | _ :: h' => pushed h'
  end.

(** A history has a [close] of the descriptor. *)
Definition closes (fd : Z) (h : list event) : bool :=
  existsb (fun e => match e with
                    | Sys (Close fd') _ => fd' =? fd
                    | _ => false
                    end) h.

Definition accept_failed (e : event) : bool :=
  match e with
  | Sys (Accept _) r => r <? 0
  | _ => false
  end.

(** Where the supervisor stands along a history: ready to accept;
    with a connection accepted and no child for it yet; with the child
    [pid] forked and not yet waited for.  [Violated] is entered by an
    [accept] made anywhere but in [Ready]. *)
Inductive session_state : Type :=
| Ready
| Accepted
| Running (pid : Z)
| Violated.

Definition session_step (s : session_state) (e : event) : session_state :=
  match s with
  | Violated => Violated
  | _ =>
      match e with
      | Sys (Accept _) r =>
          match s with
          | Ready => if r <? 0 then Ready else Accepted
          | _ => Violated
          end
      | Sys Fork pid => if pid >? 0 then Running pid else s
      | Sys Wait r =>
          match s with
          | Running pid => if r =? pid then Ready else s
          | _ => s
          end
      | _ => s
      end
  end.

Definition session_run (s : session_state) (h : list event) : session_state :=
  fold_left session_step h s.

(** Every [accept] of the history is made in [Ready]: it is the first
    one, or the child forked for the connection accepted before it has
    been waited for. *)
Definition serialized (h : list event) : bool :=
  match session_run Ready h with
  | Violated => false
  | _ => true
  end.

Section Turn.

Variable env : environment.
Variable w : world.

(** The answers of the operating system in one turn of the loop that
    starts in [w]. *)
Definition turn_peerfd : Z := ret_of env (length (trace w)) (Accept (ps_sockfd w)).

Definition turn_accepted : world := log (Sys (Accept (ps_sockfd w)) turn_peerfd) w.

Definition turn_pid : Z := ret_of env (length (trace turn_accepted)) Fork.

Definition turn_forked : world := log (Sys Fork turn_pid) turn_accepted.

Definition turn_waiting : world :=
  log (Printf fmt_forked turn_pid)
      (snd (sys env (Close turn_peerfd) turn_forked)).

Definition turn_newpid : Z := ret_of env (length (trace turn_waiting)) Wait.

Definition turn_status : Z := wstatus env (length (trace turn_waiting)).

Definition turn_waited : world := log (Sys Wait turn_newpid) turn_waiting.

End Turn.

Section Allocation.

Variable env : environment.
Variable w : world.

(** The answers of the operating system to the three steps of the
    allocation made in [w]. *)
Definition alloc_mfd : Z := ret_of env (length (trace w)) PosixOpenpt.

Definition alloc_opened : world := log (Sys PosixOpenpt alloc_mfd) w.

Definition alloc_grant : Z := ret_of env (length (trace alloc_opened)) (Grantpt alloc_mfd).

Definition alloc_granted : world := log (Sys (Grantpt alloc_mfd) alloc_grant) alloc_opened.

Definition alloc_unlock : Z :=
  ret_of env (length (trace alloc_granted)) (Unlockpt alloc_mfd).

Definition alloc_unlocked : world :=
  log (Sys (Unlockpt alloc_mfd) alloc_unlock) alloc_granted.

Definition alloc_fails : Prop :=
  alloc_mfd < 0 \/ alloc_grant <> 0 \/ alloc_unlock <> 0.

(** The world in which a failed allocation leaves the session. *)
Definition alloc_failed : world :=
  if alloc_mfd <? 0 then log (Perror "child: posix_openpt") alloc_opened
  else if negb (alloc_grant =? 0) then log (Perror "child: grantpt") alloc_granted
  else log (Perror "child: unlockpt") alloc_unlocked.

End Allocation.

(** ** Concrete operating systems and worlds *)

(** An operating system in which every call succeeds, every write
    accepts at most [step] bytes, and the reads deliver [inp]. *)
Definition env_of (step : Z) (inp : nat -> option (list byte)) : environment :=
  mkEnv (fun _ c =>
           match c with
           | Write _ _ count _ => if count >? 0 then Z.min count step else count - 1
           | _ => 0
           end)
        inp (fun _ => 0).

(** The peer sends "hi" and closes. *)
Definition input_hi (n : nat) : option (list byte) :=
  match n with
  | 3%nat => Some [x68; x69]
  | _ => Some []
  end.

(** Every read reports an end of stream. *)
Definition input_eof (n : nat) : option (list byte) := Some [].

(** The shared arrays as [ps_relay 4 3] leaves them. *)
Definition relay_world : world := mkWorld 3 (4, 3) (2, 3) [] 4 [].

(** An operating system whose writes accept nothing and report no
    error. *)
Definition env_stall : environment :=
  mkEnv (fun _ _ => 0) (fun _ => Some [x68; x69]) (fun _ => 0).

(** The shared arrays after [ps_relay 5 4], in a server whose
    listening socket is descriptor 4, whose peer socket is descriptor 5
    and whose pty master, opened once the child has closed the listening
    socket, is descriptor 4, as a new thread meets them. *)
Definition odd_peer_world : world :=
  thread_world (snd (ps_relay (env_of 1 input_hi) 5 4 (world_after_init 4))).

(** Every call succeeds but the push of [ldterm]. *)
Definition env_push_ldterm_fails : environment :=
  mkEnv (fun _ c =>
           match c with
           | IoctlPush _ name => if String.eqb name "ldterm" then -1 else 0
           | _ => 0
           end)
        input_eof (fun _ => 0).

(** Every read fails. *)
Definition env_read_fails : environment :=
  mkEnv (fun _ _ => 0) (fun _ => None) (fun _ => 0).

(** [posix_openpt] gives descriptor 3 and [grantpt] fails. *)
Definition env_grantpt_fails : environment :=
  mkEnv (fun _ c =>
           match c with
           | PosixOpenpt => 3
           | Grantpt _ => -1
           | Accept _ => 4
           | _ => 0
           end)
        input_eof (fun _ => 0).

(** Every [accept] succeeds with descriptor 4 and [fork] fails. *)
Definition env_fork_fails : environment :=
  mkEnv (fun _ c =>
           match c with
           | Accept _ => 4
           | Fork => -1
           | _ => 0
           end)
        input_eof (fun _ => 0).

(** Every session is served by child 100, which [wait] returns with
    status 7. *)
Definition env_sessions : environment :=
  mkEnv (fun _ c =>
           match c with
           | Accept _ => 4
           | Fork => 100
           | Wait => 100
           | _ => 0
           end)
        input_eof (fun _ => 7).

(** ** Setting up the server: [ps_server_init] and [main] *)

(** The calls of the set-up, with the arguments that vary. *)
Inductive boot_call : Type :=
| Socket                     (* socket(PF_INET, SOCK_STREAM, 0) *)
| Setsockopt (fd : Z)        (* setsockopt(fd, SOL_SOCKET, SO_REUSEADDR, &reuse, ...) *)
| Bind (fd port : Z)         (* bind(fd, &addr, ...), addr being INADDR_ANY and the port *)
| Listen (fd backlog : Z).

(** The history of the whole program: the calls of the set-up, the
    message of [main], and the events of the kinds met so far. *)
Inductive boot_event : Type :=
| Boot (c : boot_call) (r : Z)
| Fprintf (msg : string)     (* fprintf(stderr, msg) *)
| Run (e : event).

(** The set-up works on the global [ps_sockfd] alone. *)
Record boot : Type := mkBoot {
  b_sockfd : Z;
  b_trace : list boot_event
}.

(** [static int ps_sockfd = -1], and no history. *)
Definition boot0 : boot := mkBoot (-1) [].

(** [static int ps_port_net = 8080]. *)
Definition ps_port_net : Z := 8080.

Definition blog (e : boot_event) (b : boot) : boot :=
  mkBoot (b_sockfd b) (b_trace b ++ [e]).

(** The answers of the operating system to the calls of the set-up,
    indexed as those of an [environment]. *)
Definition boot_environment : Type := nat -> boot_call -> Z.

Section Boot.

Variable benv : boot_environment.
Variable env : environment.

Definition boot_sys (c : boot_call) (b : boot) : Z * boot :=
  let r := benv (length (b_trace b)) c in
  (r, blog (Boot c r) b).

Definition boot_close (fd : Z) (b : boot) : boot :=
  blog (Run (Sys (Close fd) (ret_of env (length (b_trace b)) (Close fd)))) b.

Definition boot_perror (msg : string) (b : boot) : boot :=
  blog (Run (Perror msg)) b.

(** Lines 67-100.  The port bound is [htons(ps_port_net)], whatever
    [port] is; the event keeps the port before the conversion. *)
Definition ps_server_init (port : Z) (b : boot) : Z * boot :=
  let (s, b1) := boot_sys Socket b in
  let b1 := mkBoot s (b_trace b1) in
  if s <? 0 then
    (-1, boot_perror "socket" b1)
  else
    let (o, b2) := boot_sys (Setsockopt (b_sockfd b1)) b1 in
    let b3 := if negb (o =? 0)
              then boot_perror "warning: setsockopt(SO_REUSEADDR)" b2
              else b2 in
    let (r, b4) := boot_sys (Bind (b_sockfd b3) ps_port_net) b3 in
    if negb (r =? 0) then
      (-1, boot_perror "bind" (boot_close (b_sockfd b4) b4))
    else
      let (l, b5) := boot_sys (Listen (b_sockfd b4) 10) b4 in
      if negb (l =? 0) then
        (-1, boot_perror "listen" (boot_close (b_sockfd b5) b5))
      else (0, b5).

(** Lines 51-62.  The supervisor starts in the world that the set-up
    leaves, with a history of its own that is appended to that of the
    set-up. *)
Definition main (fuel : nat) : outcome Z * list boot_event :=
  let (r, b) := ps_server_init ps_port_net boot0 in
  if negb (r =? 0) then
    (Ret 1, b_trace b ++ [Fprintf "failed to setup server"])
  else
    let (o, w) := ps_server_run env fuel (world_after_init (b_sockfd b)) in
    (omap (fun _ => 0) o, b_trace b ++ map Run (trace w)).

End Boot.

Section BootAnswers.

Variable benv : boot_environment.
Variable b : boot.

(** The answers of the operating system to the calls of a set-up that
    starts in [b], and the states between them. *)
Definition init_socket : Z := benv (length (b_trace b)) Socket.

Definition init_created : boot :=
  mkBoot init_socket (b_trace b ++ [Boot Socket init_socket]).

Definition init_reuse : Z :=
  benv (length (b_trace init_created)) (Setsockopt init_socket).

Definition init_options : boot :=
  if negb (init_reuse =? 0)
  then boot_perror "warning: setsockopt(SO_REUSEADDR)"
                   (blog (Boot (Setsockopt init_socket) init_reuse) init_created)
  else blog (Boot (Setsockopt init_socket) init_reuse) init_created.

Definition init_bind : Z :=
  benv (length (b_trace init_options)) (Bind init_socket ps_port_net).

Definition init_bound : boot :=
  blog (Boot (Bind init_socket ps_port_net) init_bind) init_options.

Definition init_listen : Z :=
  benv (length (b_trace init_bound)) (Listen init_socket 10).

Definition init_listening : boot :=
  blog (Boot (Listen init_socket 10) init_listen) init_bound.

(** The three calls that the set-up needs have succeeded. *)
Definition init_ok : bool :=
  (0 <=? init_socket) && (init_bind =? 0) && (init_listen =? 0).

End BootAnswers.

(** The descriptors closed along a history of the program, in order. *)
Fixpoint boot_closed (h : list boot_event) : list Z :=
  match h with
  | [] => []
  | Run (Sys (Close fd) _) :: h' => fd :: boot_closed h'
  | _ :: h' => boot_closed h'
  end.

(** The ports bound along a history of the program. *)
Fixpoint boot_ports (h : list boot_event) : list Z :=
  match h with
  | [] => []
  | Boot (Bind _ port) _ :: h' => port :: boot_ports h'
  | _ :: h' => boot_ports h'
  end.

(** An [accept] has been made. *)
Definition boot_accepts (h : list boot_event) : bool :=
  existsb (fun e => match e with
                    | Run (Sys (Accept _) _) => true
                    | _ => false
                    end) h.

(** Every call of the set-up succeeds, with socket 3. *)
Definition benv_ok : boot_environment :=
  fun _ c => match c with Socket => 3 | _ => 0 end.

(** The socket is descriptor 3 and [bind] fails. *)
Definition benv_bind_fails : boot_environment :=
  fun _ c => match c with Socket => 3 | Bind _ _ => -1 | _ => 0 end.

(** The first [accept] fails. *)
Definition env_accept_fails : environment :=
  mkEnv (fun _ c => match c with Accept _ => -1 | _ => 0 end)
        input_eof (fun _ => 0).

(** The last events of a supervisor that leaves its loop: an [accept]
    that fails, or a [fork] that fails, the diagnostic, and the [close] of
    the listening socket. *)
Definition loop_exit (sockfd : Z) (l : list event) : Prop :=
  (exists p r,
      p < 0 /\
      l = [Sys (Accept sockfd) p; Perror "accept"; Sys (Close sockfd) r]) \/
  (exists p q r,
      0 <= p /\ q < 0 /\
      l = [Sys (Accept sockfd) p; Sys Fork q; Perror "fork";
           Sys (Close sockfd) r]).

(** An event of a turn in which the connection is accepted and the child
    forked. *)
Definition served (e : event) : Prop :=
  match e with
  | Sys (Accept _) r => 0 <= r
  | Sys Fork pid => 0 < pid
  | _ => True
  end.

(** The accepted descriptors that no [close] has followed, along a
    history, last accepted first. *)
Fixpoint open_peers (acc : list Z) (h : list event) : list Z :=
  match h with
  | [] => acc
  | Sys (Accept _) r :: h' =>
      open_peers (if r <? 0 then acc else r :: acc) h'
  | Sys (Close fd) _ :: h' =>
      open_peers (filter (fun x => negb (x =? fd)) acc) h'
  | _ :: h' => open_peers acc h'
  end.

(** Every [wait] of a history is made when no accepted descriptor is
    open: each of them has been closed before it. *)
Fixpoint waits_clean (acc : list Z) (h : list event) : bool :=
  match h with
  | [] => true
  | Sys (Accept _) r :: h' =>
      waits_clean (if r <? 0 then acc else r :: acc) h'
  | Sys (Close fd) _ :: h' =>
      waits_clean (filter (fun x => negb (x =? fd)) acc) h'
  | Sys Wait _ :: h' =>
      match acc with
      | [] => waits_clean acc h'
      | _ :: _ => false
      end
  | _ :: h' => waits_clean acc h'
  end.

(** The calls of one turn of the supervisor that starts in [w], up to
    the [wait] for the child. *)
Definition turn_events (env : environment) (w : world) : list event :=
  [Sys (Accept (ps_sockfd w)) (turn_peerfd env w);
   Sys Fork (turn_pid env w);
   Sys (Close (turn_peerfd env w))
       (ret_of env (length (trace (turn_forked env w))) (Close (turn_peerfd env w)));
   Printf fmt_forked (turn_pid env w);
   Sys Wait (turn_newpid env w)].

(** ** The calls of [ps_init_slavepty] *)

(** The calls whose result [ps_init_slavepty] tests, with the result
    that lets it go on, and with the result that makes it give up.  The
    results of [close] and [closefrom] are not looked at. *)
Definition call_ok (e : event) : Prop :=
  match e with
  | Sys (Ptsname _) r => r <> 0
  | Sys (Open _) r => 0 <= r
  | Sys (IoctlFind _ _) r => 0 <= r
  | Sys (IoctlPush _ _) r => 0 <= r
  | Sys (Dup2 _ newfd) r => r = newfd
  | Perror _ => False
  | _ => True
  end.

Definition call_failed (e : event) : Prop :=
  match e with
  | Sys (Ptsname _) r => r = 0
  | Sys (Open _) r => r < 0
  | Sys (IoctlFind _ _) r => r < 0
  | Sys (IoctlPush _ _) r => r < 0
  | Sys (Dup2 _ newfd) r => r <> newfd
  | _ => False
  end.

Definition not_closefrom (e : event) : Prop :=
  match e with
  | Sys (Closefrom _) _ => False
  | _ => True
  end.

(** The calls on the stream of the slave pty that find the line
    discipline, or push it where it is missing. *)
Definition ld_calls (sfd : Z) (present : bool) : list event :=
  if present then [Sys (IoctlFind sfd "ldterm") 1]
  else [Sys (IoctlFind sfd "ldterm") 0;
        Sys (IoctlPush sfd "ptem") 0;
        Sys (IoctlPush sfd "ldterm") 0;
        Sys (IoctlPush sfd "ttcompat") 0].

(** The calls of a [ps_init_slavepty(mfd)] that succeeds: the slave is
    named from the master, the master is closed, the slave is opened,
    given its line discipline and made the standard input, output and
    error, and every other descriptor is closed. *)
Definition slavepty_calls (mfd name c sfd : Z) (present : bool) (r : Z) : list event :=
  [Sys (Ptsname mfd) name; Sys (Close mfd) c; Sys (Open name) sfd] ++
  ld_calls sfd present ++
  [Sys (Dup2 sfd 0) 0; Sys (Dup2 sfd 1) 1; Sys (Dup2 sfd 2) 2;
   Sys (Closefrom 3) r].

(** The session's second fork returns 0: the process is the one that
    becomes the shell.  The pty master is descriptor 3, the slave is
    named by a pointer that is not null and opened as descriptor 5, and
    every call succeeds. *)
Definition env_shell : environment :=
  mkEnv (fun _ c =>
           match c with
           | PosixOpenpt => 3
           | Ptsname _ => 7
           | Open _ => 5
           | Dup2 _ newfd => newfd
           | _ => 0
           end)
        input_eof (fun _ => 0).

(** ** The calls of one session *)

(** The three calls of a pty allocation that succeeds. *)
Definition alloc_calls (mfd : Z) : list event :=
  [Sys PosixOpenpt mfd; Sys (Grantpt mfd) 0; Sys (Unlockpt mfd) 0].

Definition is_alloc (e : event) : Prop :=
  match e with
  | Sys PosixOpenpt _ | Sys (Grantpt _) _ | Sys (Unlockpt _) _ => True
  | _ => False
  end.

(** What [ps_relay] does after it has stored the two descriptors, when
    the first creation fails, when the second one does, and when both
    workers are started; [t] is the identifier of the first thread. *)
Definition relay_failed_first (v c0 : Z) : list event :=
  [Store RelayThreads 0 v; Sys (PthreadCreate 0 0) c0;
   Perror "child: pthread_create(1)"].

Definition relay_failed_second (t v c1 : Z) : list event :=
  [Store RelayThreads 0 t; Sys (PthreadCreate 0 0) 0;
   Store RelayThreads 1 v; Sys (PthreadCreate 1 1) c1;
   Perror "child: pthread_create(2)"].

Definition relay_started_calls (t d0 d1 : Z) : list event :=
  [Store RelayThreads 0 t; Sys (PthreadCreate 0 0) 0;
   Store RelayThreads 1 (t + 1); Sys (PthreadCreate 1 1) 0;
   Load RelayThreads 0 t; Sys (PthreadDetach t) d0;
   Load RelayThreads 1 (t + 1); Sys (PthreadDetach (t + 1)) d1].

Definition chdir_warning (cd : Z) : list event :=
  if cd =? 0 then [] else [Perror "child: WARN: chdir"].

(** The calls of the process that becomes the shell, once its standard
    descriptors are the slave pty: [x] is the result of [execl], 0 when
    the process image has been replaced. *)
Definition shell_calls (home cd x : Z) : list event :=
  [Sys (Getenv "HOME") home; Sys (Chdir home) cd] ++ chdir_warning cd ++
  (if x =? 0 then [Sys (Execl "/bin/bash") 0]
   else [Sys (Execl "/bin/bash") x; Perror "child's child: exec"]).

(** The first calls of the process forked for the shell. *)
Definition child_calls (peerfd c s : Z) : list event :=
  [Sys Fork 0; Sys (Close peerfd) c; Sys Setsid s].

Definition not_wait (e : event) : Prop :=
  match e with
  | Sys Wait _ => False
  | _ => True
  end.

(** ** What a history tells of a relay worker *)

(** The descriptors closed along a history, in order. *)
Fixpoint closed (h : list event) : list Z :=
  match h with
  | [] => []
  | Sys (Close fd) _ :: h' => fd :: closed h'
  | _ :: h' => closed h'
  end.

(** The diagnostics printed along a history, in order. *)
Fixpoint diagnostics (h : list event) : list string :=
  match h with
  | [] => []
  | Perror msg :: h' => msg :: diagnostics h'
  | _ :: h' => diagnostics h'
  end.

(** A read that reports an end of stream; a read that fails; a write
    that fails. *)
Definition eof_read (e : event) : bool :=
  match e with
  | SysRead _ _ (Some []) => true
  | _ => false
  end.

Definition read_failed (e : event) : bool :=
  match e with
  | SysRead _ _ None => true
  | _ => false
  end.

Definition write_failed (e : event) : bool :=
  match e with
  | Sys (Write _ _ _ _) r => r <? 0
  | _ => false
  end.

(** What a history of a worker shows of its end. *)
Record relay_marks : Type := mkMarks {
  m_closed : list Z;
  m_diagnostics : list string;
  m_eof : bool;
  m_read_failed : bool;
  m_write_failed : bool
}.

Definition marks (l : list event) : relay_marks :=
  mkMarks (closed l) (diagnostics l) (existsb eof_read l)
          (existsb read_failed l) (existsb write_failed l).

Definition marks_app (a b : relay_marks) : relay_marks :=
  mkMarks (m_closed a ++ m_closed b) (m_diagnostics a ++ m_diagnostics b)
          (m_eof a || m_eof b) (m_read_failed a || m_read_failed b)
          (m_write_failed a || m_write_failed b).


(** Every write accepts all the bytes it is offered. *)
Definition full_writes (env : environment) : Prop :=
  forall n fd off count data, ret_of env n (Write fd off count data) = count.

(** The chunks delivered by the reads of a history, and the chunks
    offered to its writes, in order. *)
Fixpoint chunks_read (l : list event) : list (list byte) :=
  match l with
  | [] => []
  | SysRead _ _ (Some (b :: data)) :: l' => (b :: data) :: chunks_read l'
  | _ :: l' => chunks_read l'
  end.

Fixpoint chunks_written (l : list event) : list (list byte) :=
  match l with
  | [] => []
  | Sys (Write _ _ _ data) _ :: l' => data :: chunks_written l'
  | _ :: l' => chunks_written l'
  end.

(** A write of a whole chunk, from the start of the buffer, that accepts
    all of it. *)
Definition whole_write (e : event) : Prop :=
  match e with
  | Sys (Write _ off count data) r =>
      off = 0 /\ r = count /\ count = Z.of_nat (length data)
  | _ => True
  end.

(** Every call succeeds and every write accepts all it is offered; the
    peer sends "hi" and closes. *)
Definition env_full : environment :=
  mkEnv (fun _ c =>
           match c with
           | Write _ _ count _ => count
           | _ => 0
           end)
        input_hi (fun _ => 0).

(** * Properties *)

(** ** Histories *)

Ltac list_eq := repeat (rewrite <- app_assoc || simpl); reflexivity.

Lemma trace_log (e : event) (w : world) : trace (log e w) = trace w ++ [e].
Proof. reflexivity. Qed.

Lemma relay_run_app (s : relay_state) (l1 l2 : list event) :
  relay_run s (l1 ++ l2) = relay_run (relay_run s l1) l2.
Proof. apply fold_left_app. Qed.

Lemma relay_run_Bad (l : list event) : relay_run Bad l = Bad.
Proof.
  induction l as [|e l IH]; [reflexivity|].
  destruct e as [c r| | | | |]; try exact IH.
  destruct c; exact IH.
Qed.

Lemma readin_app (l1 l2 : list event) : readin (l1 ++ l2) = readin l1 ++ readin l2.
Proof.
  induction l1 as [|e l1 IH]; [reflexivity|].
  destruct e as [| fd count [data|] | | | |]; simpl; rewrite ?IH, ?app_assoc; reflexivity.
Qed.

Lemma written_app (l1 l2 : list event) : written (l1 ++ l2) = written l1 ++ written l2.
Proof.
  induction l1 as [|e l1 IH]; [reflexivity|].
  destruct e as [c r| | | | |]; simpl; try exact IH.
  destruct c; simpl; rewrite ?IH, ?app_assoc; reflexivity.
Qed.

(** In a history that the copy protocol accepts, the bytes read so far
    are the bytes written so far followed by the part of the current
    chunk still held. *)
Lemma relay_run_conserves (l : list event) :
  forall s, relay_run s l <> Bad ->
            pending s ++ readin l = written l ++ pending (relay_run s l).
Proof.
  induction l as [|e l IH]; intros s Hs.
  - simpl. rewrite app_nil_r. reflexivity.
  - change (relay_run s (e :: l)) with (relay_run (relay_step s e) l) in *.
    specialize (IH _ Hs).
    destruct e as [c r|fd count res| | | |]; try exact IH.
    + destruct c; try exact IH.
      destruct s; simpl in *;
        try (rewrite relay_run_Bad in Hs; congruence).
      destruct (list_eq_dec byte_eq_dec data rest) as [->|];
        [|rewrite relay_run_Bad in Hs; congruence].
      destruct (r <? 0).
      * exact IH.
      * destruct (r <? Z.of_nat (length rest)) eqn:E.
        -- simpl in IH. rewrite <- app_assoc, <- IH, app_assoc, firstn_skipn.
           reflexivity.
        -- simpl in IH. apply Z.ltb_ge in E.
           rewrite firstn_all2 by lia. rewrite <- app_assoc, <- IH. reflexivity.
    + destruct s; simpl in *;
        try (rewrite relay_run_Bad in Hs; congruence).
      destruct res as [[|b data]|]; simpl in *; exact IH.
Qed.

(** ** Slices of the buffer *)

Lemma slice_fill (buf data : list byte) :
  slice (fill buf data) 0 (Z.of_nat (length data)) = data.
Proof.
  unfold slice, fill. rewrite Nat2Z.id. simpl.
  rewrite firstn_app, firstn_all, Nat.sub_diag. simpl. apply app_nil_r.
Qed.

Lemma length_fill (buf data : list byte) :
  (length data <= length (fill buf data))%nat.
Proof. unfold fill. rewrite length_app. lia. Qed.

Lemma buf0_size : Z.of_nat (length buf0) = 512.
Proof. reflexivity. Qed.

Lemma length_fill_ge (buf data : list byte) :
  (length buf <= length (fill buf data))%nat.
Proof. unfold fill. rewrite length_app, length_skipn. lia. Qed.

Lemma length_fill_eq (buf data : list byte) :
  (length data <= length buf)%nat -> length (fill buf data) = length buf.
Proof. intros H. unfold fill. rewrite length_app, length_skipn. lia. Qed.

Lemma delivered_length (env : environment) (n : nat) (count : Z) (data : list byte) :
  delivered env n count = Some data -> 0 <= count ->
  Z.of_nat (length data) <= count.
Proof.
  unfold delivered. destruct (input env n) as [d|]; [|discriminate].
  intros H Hc. inversion H; subst. rewrite length_firstn. lia.
Qed.

(** A [read] of no more bytes than the buffer holds. *)
Lemma sys_read_eq (env : environment) (fd : Z) (buf : list byte) (count : Z)
      (w : world) :
  count <= Z.of_nat (length buf) ->
  sys_read env fd buf count w =
  (match delivered env (length (trace w)) count with
   | Some data => Ret (Z.of_nat (length data), fill buf data)
   | None => Ret (-1, buf)
   end,
   log (SysRead fd count (delivered env (length (trace w)) count)) w).
Proof.
  intros H. unfold sys_read. rewrite (proj2 (Z.ltb_ge _ _) H).
  destruct (delivered env (length (trace w)) count); reflexivity.
Qed.

Lemma length_slice (buf : list byte) (off count : Z) :
  0 <= off -> 0 <= count -> off + count <= Z.of_nat (length buf) ->
  Z.of_nat (length (slice buf off count)) = count.
Proof.
  intros. unfold slice. rewrite length_firstn, length_skipn. lia.
Qed.

Lemma skipn_slice (buf : list byte) (off count r : Z) :
  0 <= off -> 0 <= r -> r <= count ->
  skipn (Z.to_nat r) (slice buf off count) = slice buf (off + r) (count - r).
Proof.
  intros. unfold slice.
  rewrite skipn_firstn_comm, skipn_skipn.
  f_equal; [lia|]. f_equal. lia.
Qed.

(** ** The copy loops follow the copy protocol *)

Lemma relay_step_write (rest : list byte) (fd off count r : Z) :
  relay_step (Pending rest) (Sys (Write fd off count rest) r) =
  if r <? 0 then Failed rest
  else if r <? Z.of_nat (length rest) then Pending (skipn (Z.to_nat r) rest)
       else Idle.
Proof.
  simpl. destruct (list_eq_dec byte_eq_dec rest rest); congruence.
Qed.

Lemma chunk_state_next (buf : list byte) (nread towrite r : Z) :
  nread <= Z.of_nat (length buf) -> 0 < towrite <= nread -> 0 <= r ->
  (if r <? Z.of_nat (length (slice buf (nread - towrite) towrite))
   then Pending (skipn (Z.to_nat r) (slice buf (nread - towrite) towrite))
   else Idle) = chunk_state buf nread (towrite - r).
Proof.
  intros Hb Ht Hr. unfold chunk_state.
  rewrite length_slice by lia.
  destruct (r <? towrite) eqn:E.
  - apply Z.ltb_lt in E.
    replace (towrite - r >? 0) with true by (symmetry; apply Z.gtb_lt; lia).
    rewrite skipn_slice by lia.
    f_equal. f_equal. lia.
  - apply Z.ltb_ge in E.
    replace (towrite - r >? 0) with false; [reflexivity|].
    symmetry. rewrite Z.gtb_ltb. apply Z.ltb_ge. lia.
Qed.

Section Loops.

Variable env : environment.

Lemma write_loop_run (destfd : Z) (buf : list byte) (nread : Z) :
  nread <= Z.of_nat (length buf) ->
  forall fuel towrite w o w',
    towrite <= nread ->
    write_loop env fuel destfd buf nread towrite w = (o, w') ->
    exists l,
      trace w' = trace w ++ l /\
      match o with
      | Ret tw =>
          tw <= towrite /\
          relay_run (chunk_state buf nread towrite) l =
          (if tw >? 0 then Failed (slice buf (nread - tw) tw) else Idle)
      | OutOfFuel =>
          exists tw, 0 < tw <= towrite /\
            relay_run (chunk_state buf nread towrite) l =
            Pending (slice buf (nread - tw) tw)
      | _ => False
      end.
Proof.
  intros Hb fuel.
  induction fuel as [|fuel IH]; intros towrite w o w' Ht H.
  - simpl in H. destruct (towrite >? 0) eqn:E.
    + inversion H; subst. exists []. rewrite app_nil_r. split; [reflexivity|].
      exists towrite. apply Z.gtb_lt in E. split; [lia|].
      unfold chunk_state. simpl. rewrite (proj2 (Z.gtb_lt _ _)) by lia. reflexivity.
    + inversion H; subst. exists []. rewrite app_nil_r. split; [reflexivity|].
      split; [lia|]. unfold chunk_state. rewrite E. reflexivity.
  - simpl in H. destruct (towrite >? 0) eqn:E.
    + pose proof (proj1 (Z.gtb_lt _ _) E) as Hpos.
      unfold bind at 1 in H. unfold sys at 1 in H.
      set (c := Write destfd (nread - towrite) towrite
                      (slice buf (nread - towrite) towrite)) in *.
      set (r := ret_of env (length (trace w)) c) in *.
      destruct (r <? 0) eqn:Er.
      * unfold bind, perror, ret in H. inversion H; subst.
        exists [Sys c r; Perror "child: write"].
        split; [simpl; rewrite <- app_assoc; reflexivity|].
        split; [lia|].
        rewrite E. unfold chunk_state. rewrite E.
        unfold relay_run. cbn [fold_left]. unfold c.
        rewrite relay_step_write, Er. reflexivity.
      * apply Z.ltb_ge in Er.
        apply IH in H; [|lia].
        destruct H as (l & Hl & Ho).
        exists (Sys c r :: l).
        split; [rewrite Hl, trace_log, <- app_assoc; reflexivity|].
        assert (Hs : relay_run (chunk_state buf nread towrite) (Sys c r :: l) =
                     relay_run (chunk_state buf nread (towrite - r)) l).
        { unfold relay_run. cbn [fold_left]. f_equal.
          unfold chunk_state at 1. rewrite E. unfold c.
          rewrite relay_step_write.
          rewrite (proj2 (Z.ltb_ge _ _)) by lia.
          apply chunk_state_next; lia. }
        rewrite Hs.
        destruct o; try exact Ho.
        -- destruct Ho as [Ho1 Ho2]. split; [lia|exact Ho2].
        -- destruct Ho as (tw & Htw & Ho). exists tw. split; [lia|exact Ho].
    + inversion H; subst. exists []. rewrite app_nil_r. split; [reflexivity|].
      split; [lia|]. unfold chunk_state. rewrite E. reflexivity.
Qed.

Lemma relay_loop_run (sourcefd destfd : Z) :
  forall fuel buf w o w',
    512 <= Z.of_nat (length buf) ->
    relay_loop env fuel sourcefd destfd buf w = (o, w') ->
    exists l,
      trace w' = trace w ++ l /\
      match o with
      | Ret n =>
          if n >? 0 then exists rest, rest <> [] /\ relay_run Idle l = Failed rest
          else relay_run Idle l = Finished
      | OutOfFuel =>
          relay_run Idle l = Idle \/
          exists rest, rest <> [] /\ relay_run Idle l = Pending rest
      | Aborted => relay_run Idle l = Idle
      | _ => False
      end.
Proof.
  induction fuel as [|fuel IH]; intros buf w o w' Hb H.
  - inversion H; subst. exists []. rewrite app_nil_r. split; [reflexivity|].
    left. reflexivity.
  - simpl in H. unfold bind at 1 in H. rewrite (sys_read_eq _ _ _ _ _ Hb) in H.
    destruct (delivered env (length (trace w)) 512) as [data|] eqn:Ein.
    + cbn [fst snd] in H.
      set (e := SysRead sourcefd 512 (Some data)) in *.
      rewrite (proj2 (Z.geb_le _ _)) in H by lia.
      destruct (Z.of_nat (length data) =? 0) eqn:E0.
      * apply Z.eqb_eq in E0. destruct data; [|simpl in E0; lia].
        unfold bind, sys, ret in H. inversion H; subst.
        eexists [e; _]. split; [simpl; rewrite <- app_assoc; reflexivity|].
        reflexivity.
      * apply Z.eqb_neq in E0.
        assert (Hd : data <> []) by (intros ->; apply E0; reflexivity).
        assert (He : relay_step Idle e = Pending data)
          by (destruct data; [congruence|reflexivity]).
        unfold bind at 1 in H.
        destruct (write_loop env fuel destfd (fill buf data)
                    (Z.of_nat (length data)) (Z.of_nat (length data)) (log e w))
          as [o1 w1] eqn:Ew.
        apply write_loop_run in Ew;
          [|pose proof (length_fill buf data); lia|lia].
        destruct Ew as (l1 & Hl1 & Ho1).
        assert (Hc : chunk_state (fill buf data) (Z.of_nat (length data))
                       (Z.of_nat (length data)) = Pending data).
        { unfold chunk_state. rewrite (proj2 (Z.gtb_lt _ _)) by lia.
          rewrite Z.sub_diag, slice_fill. reflexivity. }
        rewrite Hc in Ho1.
        assert (Hrun : forall l2, relay_run Idle (e :: l1 ++ l2) =
                                  relay_run (relay_run (Pending data) l1) l2).
        { intros l2. unfold relay_run at 1. cbn [fold_left]. rewrite He.
          apply relay_run_app. }
        destruct o1 as [tw| | | | |];
          try (exfalso; exact Ho1); try (inversion H; subst).
        -- destruct Ho1 as [Htw Ho1].
           destruct (tw >? 0) eqn:Etw.
           ++ unfold ret in H. inversion H; subst.
              exists (e :: l1 ++ []).
              split; [rewrite Hl1, trace_log, app_nil_r, <- app_assoc; reflexivity|].
              rewrite (proj2 (Z.gtb_lt _ _)) by lia.
              rewrite Hrun, Ho1. simpl.
              eexists. split; [|reflexivity].
              apply Z.gtb_lt in Etw.
              intros Hn. apply (f_equal (@length byte)) in Hn.
              pose proof (length_fill buf data).
              rewrite <- (Nat2Z.id (length (slice _ _ _))) in Hn.
              rewrite length_slice in Hn by lia. simpl in Hn. lia.
           ++ unfold bind at 1 in H. unfold assert at 1 in H.
              destruct (tw =? 0) eqn:Ez.
              ** apply IH in H; [|pose proof (length_fill_ge buf data); lia].
                 destruct H as (l2 & Hl2 & Ho).
                 exists (e :: l1 ++ l2).
                 split; [rewrite Hl2, Hl1, trace_log, <- !app_assoc; reflexivity|].
                 rewrite Hrun, Ho1. exact Ho.
              ** inversion H; subst.
                 exists (e :: l1 ++ []).
                 split; [rewrite Hl1, trace_log, app_nil_r, <- app_assoc; reflexivity|].
                 rewrite Hrun, Ho1. reflexivity.
        -- destruct Ho1 as (tw & Htw & Ho1).
           exists (e :: l1 ++ []).
           split; [rewrite Hl1, trace_log, app_nil_r, <- app_assoc; reflexivity|].
           rewrite Hrun, Ho1. simpl. right.
           eexists. split; [|reflexivity].
           intros Hn. apply (f_equal (@length byte)) in Hn.
           pose proof (length_fill buf data).
           rewrite <- (Nat2Z.id (length (slice _ _ _))) in Hn.
           rewrite length_slice in Hn by lia. simpl in Hn. lia.
    + cbn [fst snd] in H. simpl in H. unfold ret in H. inversion H; subst.
      eexists [_]. split; [reflexivity|]. reflexivity.
Qed.

End Loops.

(** ** The shape of a run of [ps_relay_one] *)

Lemma load_inv (a : shared) (i : Z) (w : world) (o : outcome Z) (w' : world) :
  load a i w = (o, w') ->
  (exists v, arr_get (sel a w) i = Some v /\ o = Ret v /\ w' = log (Load a i v) w) \/
  (arr_get (sel a w) i = None /\ o = Undefined /\ w' = w).
Proof.
  unfold load. destruct (arr_get (sel a w) i) as [v|]; intros H; inversion H; subst.
  - left. exists v. auto.
  - right. auto.
Qed.

Lemma ps_relay_one_inv (env : environment) (fuel : nat) (arg : Z)
      (w : world) (o : outcome unit) (w' : world) :
  ps_relay_one env fuel arg w = (o, w') ->
  match relay_ends w arg with
  | None =>
      o = Undefined /\
      exists l, trace w' = trace w ++ l /\ relay_run Idle l = Idle /\
                readin l = [] /\ written l = [] /\ Forall write_in_buf l /\
                Forall read_in_buf l /\ count_reads l = 0%nat
  | Some (sourcefd, destfd, other) =>
      exists w1 o1 w2,
        trace w1 = trace w ++ relay_entry arg sourcefd destfd other /\
        relay_loop env fuel sourcefd destfd buf0 w1 = (o1, w2) /\
        o = omap (fun _ => tt) o1 /\
        match o1 with
        | Ret nread => exists r, trace w' = trace w2 ++ relay_exit nread other r
        | _ => w' = w2
        end
  end.
Proof.
  unfold ps_relay_one, relay_ends. intros H.
  unfold bind at 1 in H.
  destruct (load RelayFds arg w) as [o0 w0] eqn:E0.
  apply load_inv in E0. simpl sel in E0.
  destruct E0 as [(s & Hs & -> & ->)|(Hs & -> & ->)]; rewrite Hs.
  2:{ inversion H; subst. split; [reflexivity|].
      exists []. rewrite app_nil_r. repeat split; constructor. }
  unfold bind at 1 in H.
  destruct (load RelayFds (Z.rem (s + 1) 2) (log (Load RelayFds arg s) w))
    as [o0 w0] eqn:E0.
  apply load_inv in E0. simpl sel in E0.
  destruct E0 as [(d & Hd & -> & ->)|(Hd & -> & ->)]; rewrite Hd.
  2:{ inversion H; subst. split; [reflexivity|].
      eexists [_]. split; [reflexivity|]. repeat split; repeat constructor. }
  unfold bind at 1 in H.
  match type of H with
  | context [load RelayThreads ?i ?w0] =>
      destruct (load RelayThreads i w0) as [o0 w3] eqn:E0
  end.
  apply load_inv in E0. simpl sel in E0.
  destruct E0 as [(t & Ht & -> & ->)|(Ht & -> & ->)]; rewrite Ht.
  2:{ inversion H; subst. split; [reflexivity|].
      eexists [_; _]. split; [simpl; rewrite <- app_assoc; reflexivity|].
      repeat split; repeat constructor. }
  unfold bind at 1 in H.
  match type of H with
  | context [relay_loop env fuel s d buf0 ?w0] =>
      exists w0; destruct (relay_loop env fuel s d buf0 w0) as [o1 w2] eqn:E1
  end.
  exists o1, w2.
  split; [simpl; rewrite <- !app_assoc; reflexivity|].
  split; [reflexivity|].
  destruct o1 as [n| | | | |]; try (inversion H; subst; split; reflexivity).
  unfold relay_exit.
  destruct (n <? 0); unfold bind, perror, sys, ret in H; inversion H; subst;
    (split; [reflexivity|]); eexists; simpl; rewrite <- ?app_assoc; reflexivity.
Qed.

(** ** One iteration of the copy loop *)

Lemma relay_loop_step (env : environment) (fuel : nat) (sourcefd destfd : Z)
      (buf : list byte) (w : world) (o : outcome Z) (w' : world) :
  512 <= Z.of_nat (length buf) ->
  relay_loop env (S fuel) sourcefd destfd buf w = (o, w') ->
  let res := delivered env (length (trace w)) 512 in
  let w0 := log (SysRead sourcefd 512 res) w in
  match res with
  | None => o = Ret (-1) /\ w' = w0
  | Some [] => o = Ret 0 /\ exists r, w' = log (Sys (Close destfd) r) w0
  | Some data =>
      let nread := Z.of_nat (length data) in
      let buf' := fill buf data in
      exists o1 w1,
        write_loop env fuel destfd buf' nread nread w0 = (o1, w1) /\
        match o1 with
        | Ret towrite =>
            if towrite >? 0 then o = Ret nread /\ w' = w1
            else if towrite =? 0
                 then relay_loop env fuel sourcefd destfd buf' w1 = (o, w')
                 else o = Aborted /\ w' = w1
        | _ => o = omap (fun _ => 0) o1 /\ w' = w1
        end
  end.
Proof.
  intros Hb H. simpl in H. unfold bind at 1 in H.
  rewrite (sys_read_eq _ _ _ _ _ Hb) in H. cbv zeta.
  destruct (delivered env (length (trace w)) 512) as [data|].
  - cbn [fst snd] in H.
    rewrite (proj2 (Z.geb_le _ _)) in H by lia.
    destruct data as [|b data].
    + simpl in H. unfold bind, sys, ret in H. inversion H; subst.
      split; [reflexivity|]. eexists. reflexivity.
    + replace (Z.of_nat (length (b :: data)) =? 0) with false in H
        by (symmetry; apply Z.eqb_neq; simpl; lia).
      unfold bind at 1 in H.
      match type of H with
      | context [write_loop env fuel destfd ?b ?n ?n ?w0] =>
          destruct (write_loop env fuel destfd b n n w0) as [o1 w1] eqn:Ew
      end.
      exists o1, w1. split; [reflexivity|].
      destruct o1 as [tw| | | | |]; try (inversion H; subst; split; reflexivity).
      destruct (tw >? 0).
      * unfold ret in H. inversion H; subst. split; reflexivity.
      * unfold bind at 1 in H. unfold assert at 1 in H.
        destruct (tw =? 0); [exact H|].
        inversion H; subst. split; reflexivity.
  - cbn [fst snd] in H. simpl in H. unfold ret in H. inversion H; subst.
    split; reflexivity.
Qed.

(** ** The inner loop needs progress *)

Section WriteLoop.

Variable env : environment.

Lemma write_loop_terminates (destfd : Z) (buf : list byte) (nread : Z) :
  write_progress env ->
  forall fuel towrite w,
    (Z.to_nat towrite <= fuel)%nat ->
    exists tw w', write_loop env fuel destfd buf nread towrite w = (Ret tw, w').
Proof.
  intros Hp fuel.
  induction fuel as [|fuel IH]; intros towrite w Hf; simpl.
  - replace (towrite >? 0) with false
      by (symmetry; rewrite Z.gtb_ltb; apply Z.ltb_ge; lia).
    eexists _, _. reflexivity.
  - destruct (towrite >? 0) eqn:E; [|eexists _, _; reflexivity].
    apply Z.gtb_lt in E.
    unfold bind at 1. unfold sys at 1.
    match goal with
    | |- context [ret_of env ?n ?c] =>
        pose proof (Hp n destfd (nread - towrite) towrite
                       (slice buf (nread - towrite) towrite)) as Hr;
        set (r := ret_of env n c) in *
    end.
    destruct (r <? 0) eqn:Er.
    + unfold bind, perror, ret. eexists _, _. reflexivity.
    + apply Z.ltb_ge in Er. apply IH. lia.
Qed.

Lemma write_loop_stalls (destfd : Z) (buf : list byte) (nread towrite : Z) :
  (forall n fd off count data, ret_of env n (Write fd off count data) = 0) ->
  0 < towrite ->
  forall fuel w,
    exists w',
      write_loop env fuel destfd buf nread towrite w = (OutOfFuel, w') /\
      trace w' = trace w ++
                 repeat (Sys (Write destfd (nread - towrite) towrite
                                    (slice buf (nread - towrite) towrite)) 0) fuel.
Proof.
  intros Hz Ht fuel.
  induction fuel as [|fuel IH]; intros w; simpl;
    rewrite (proj2 (Z.gtb_lt _ _)) by lia.
  - exists w. rewrite app_nil_r. split; reflexivity.
  - unfold bind at 1. unfold sys at 1. rewrite Hz. simpl.
    rewrite Z.sub_0_r.
    destruct (IH (log (Sys (Write destfd (nread - towrite) towrite
                                  (slice buf (nread - towrite) towrite)) 0) w))
      as (w' & Hw & Htr).
    exists w'. split; [exact Hw|].
    rewrite Htr, trace_log, <- app_assoc. reflexivity.
Qed.

End WriteLoop.

(** ** Bounds of the copy loops *)

Section Bounds.

Variable env : environment.
Hypothesis Hwrite : write_contract env.

Lemma write_loop_bounds (destfd : Z) (buf : list byte) (nread : Z) :
  nread <= 512 -> nread <= Z.of_nat (length buf) ->
  forall fuel towrite w o w',
    0 <= towrite <= nread ->
    write_loop env fuel destfd buf nread towrite w = (o, w') ->
    (exists l, trace w' = trace w ++ l /\
               Forall (fun e => write_in_buf e /\ write_in_chunk nread e) l) /\
    match o with
    | Ret tw => 0 <= tw <= towrite
    | OutOfFuel => True
    | _ => False
    end.
Proof.
  intros Hn Hb fuel.
  induction fuel as [|fuel IH]; intros towrite w o w' Ht H; simpl in H.
  - destruct (towrite >? 0); inversion H; subst;
      (split; [exists []; rewrite app_nil_r; split; [reflexivity|constructor]|]);
      [exact I|lia].
  - destruct (towrite >? 0) eqn:E.
    2:{ inversion H; subst.
        split; [exists []; rewrite app_nil_r; split; [reflexivity|constructor]|lia]. }
    apply Z.gtb_lt in E.
    unfold bind at 1 in H. unfold sys at 1 in H.
    set (c := Write destfd (nread - towrite) towrite
                    (slice buf (nread - towrite) towrite)) in *.
    pose proof (Hwrite (length (trace w)) destfd (nread - towrite) towrite
                       (slice buf (nread - towrite) towrite)) as Hr.
    fold c in Hr.
    set (r := ret_of env (length (trace w)) c) in *.
    assert (Hc : write_in_buf (Sys c r) /\ write_in_chunk nread (Sys c r)).
    { unfold c, write_in_buf, write_in_chunk. rewrite buf0_size.
      rewrite length_slice by lia. lia. }
    destruct (r <? 0) eqn:Er.
    + unfold bind, perror, ret in H. inversion H; subst.
      split; [|lia].
      exists [Sys c r; Perror "child: write"].
      split; [simpl; rewrite <- app_assoc; reflexivity|].
      constructor; [exact Hc|]. constructor; [split; exact I|constructor].
    + apply Z.ltb_ge in Er.
      apply IH in H; [|lia].
      destruct H as [(l & Hl & HF) Ho].
      split.
      * exists (Sys c r :: l).
        split; [rewrite Hl, trace_log, <- app_assoc; reflexivity|].
        constructor; assumption.
      * destruct o; try exact Ho. lia.
Qed.

(** The inner loop reads nothing. *)
Lemma write_loop_reads (destfd : Z) (buf : list byte) (nread : Z) :
  forall fuel towrite w,
  exists l,
    trace (snd (write_loop env fuel destfd buf nread towrite w)) = trace w ++ l /\
    Forall read_in_buf l /\ readin l = [].
Proof.
  induction fuel as [|fuel IH]; intros towrite w; simpl.
  - destruct (towrite >? 0); exists []; rewrite app_nil_r; repeat split;
      constructor.
  - destruct (towrite >? 0).
    2:{ exists []. rewrite app_nil_r. repeat split. constructor. }
    unfold bind at 1. unfold sys at 1.
    set (c := Write destfd (nread - towrite) towrite
                    (slice buf (nread - towrite) towrite)).
    set (r := ret_of env (length (trace w)) c).
    destruct (r <? 0).
    + exists [Sys c r; Perror "child: write"].
      split; [simpl; rewrite <- app_assoc; reflexivity|].
      split; [repeat constructor|reflexivity].
    + destruct (IH (towrite - r) (log (Sys c r) w)) as (l & Hl & HF & Hr).
      exists (Sys c r :: l).
      split; [rewrite Hl, trace_log, <- app_assoc; reflexivity|].
      split; [constructor; [exact I|exact HF]|exact Hr].
Qed.

(** The inner loop never leaves with a negative [towrite]. *)
Lemma write_loop_nonneg (destfd : Z) (buf : list byte) (nread : Z) :
  forall fuel towrite w tw w',
    0 <= towrite ->
    write_loop env fuel destfd buf nread towrite w = (Ret tw, w') -> 0 <= tw.
Proof.
  induction fuel as [|fuel IH]; intros towrite w tw w' Ht H; simpl in H.
  - destruct (towrite >? 0); inversion H; subst. exact Ht.
  - destruct (towrite >? 0) eqn:E; [|inversion H; subst; exact Ht].
    unfold bind at 1 in H. unfold sys at 1 in H.
    pose proof (Hwrite (length (trace w)) destfd (nread - towrite) towrite
                       (slice buf (nread - towrite) towrite)) as Hr.
    destruct (_ <? 0) eqn:Er in H.
    + unfold bind, perror, ret in H. inversion H; subst. exact Ht.
    + apply IH in H; [exact H|lia].
Qed.

Lemma relay_loop_bounds (sourcefd destfd : Z) :
  forall fuel buf w o w',
    512 <= Z.of_nat (length buf) ->
    relay_loop env fuel sourcefd destfd buf w = (o, w') ->
    (exists l, trace w' = trace w ++ l /\
               Forall write_in_buf l /\ Forall read_in_buf l) /\
    match o with
    | Ret _ => True
    | OutOfFuel => True
    | _ => False
    end.
Proof.
  induction fuel as [|fuel IH]; intros buf w o w' Hb H.
  - inversion H; subst.
    split; [exists []; rewrite app_nil_r; repeat split; constructor|exact I].
  - apply relay_loop_step in H; [|exact Hb]. cbv zeta in H.
    assert (Hrd : read_in_buf (SysRead sourcefd 512
                                       (delivered env (length (trace w)) 512))).
    { unfold read_in_buf. rewrite buf0_size. split; [lia|].
      destruct (delivered env (length (trace w)) 512) as [data|] eqn:E; [|exact I].
      apply (delivered_length _ _ _ _ E). lia. }
    destruct (delivered env (length (trace w)) 512) as [[|b data]|] eqn:Ein.
    + destruct H as [-> [r ->]].
      split; [|exact I].
      eexists [_; _]. split; [simpl; rewrite <- app_assoc; reflexivity|].
      split; [repeat constructor|].
      constructor; [exact Hrd|repeat constructor].
    + destruct H as (o1 & w1 & Hw & H).
      assert (Hlen : Z.of_nat (length (b :: data)) <= 512)
        by (apply (delivered_length _ _ _ _ Ein); lia).
      assert (Hfill : 512 <= Z.of_nat (length (fill buf (b :: data))))
        by (pose proof (length_fill_ge buf (b :: data)); lia).
      destruct (write_loop_reads destfd (fill buf (b :: data))
                  (Z.of_nat (length (b :: data))) fuel
                  (Z.of_nat (length (b :: data)))
                  (log (SysRead sourcefd 512 (Some (b :: data))) w))
        as (l1' & Hl1' & HR1 & _).
      rewrite Hw in Hl1'. cbn [snd] in Hl1'.
      apply write_loop_bounds in Hw; [|lia|lia|simpl; lia].
      destruct Hw as [(l1 & Hl1 & HF1) Ho1].
      assert (l1' = l1)
        by (rewrite Hl1 in Hl1'; apply app_inv_head in Hl1'; congruence).
      subst l1'.
      apply (Forall_impl write_in_buf (fun e H => proj1 H)) in HF1.
      destruct o1 as [tw| | | | |]; try (exfalso; exact Ho1).
      * destruct (tw >? 0) eqn:Etw.
        -- destruct H as [-> ->]. split; [|exact I].
           exists (SysRead sourcefd 512 (Some (b :: data)) :: l1).
           split; [rewrite Hl1, trace_log, <- app_assoc; reflexivity|].
           split; constructor; try exact I; assumption.
        -- destruct (tw =? 0) eqn:Ez.
           ++ apply IH in H; [|exact Hfill].
              destruct H as [(l2 & Hl2 & HF2 & HR2) Ho].
              split; [|exact Ho].
              exists (SysRead sourcefd 512 (Some (b :: data)) :: l1 ++ l2).
              split; [rewrite Hl2, Hl1, trace_log, <- !app_assoc; reflexivity|].
              split; (constructor; [first [exact I|exact Hrd]|]);
                apply Forall_app; split; assumption.
           ++ exfalso. rewrite Z.gtb_ltb in Etw.
              apply Z.ltb_ge in Etw. apply Z.eqb_neq in Ez. lia.
      * destruct H as [-> ->]. split; [|exact I].
        exists (SysRead sourcefd 512 (Some (b :: data)) :: l1).
        split; [rewrite Hl1, trace_log, <- app_assoc; reflexivity|].
        split; constructor; try exact I; assumption.
    + destruct H as [-> ->]. split; [|exact I].
      eexists [_]. split; [reflexivity|].
      split; [repeat constructor|constructor; [exact Hrd|constructor]].
Qed.

(** With writes that make progress and a source that ends, the copy
    loop returns. *)
Lemma relay_loop_terminates (sourcefd destfd : Z) (N : nat) :
  write_progress env -> reads_end env N ->
  forall fuel buf w,
    512 <= Z.of_nat (length buf) ->
    (N - length (trace w) + 513 <= fuel)%nat ->
    exists n w', relay_loop env fuel sourcefd destfd buf w = (Ret n, w').
Proof.
  intros Hp He.
  induction fuel as [|fuel IH]; intros buf w Hbuf Hf; [lia|].
  destruct (relay_loop env (S fuel) sourcefd destfd buf w) as [o w'] eqn:H.
  pose proof H as H0.
  apply relay_loop_step in H; [|exact Hbuf]. cbv zeta in H.
  destruct (delivered env (length (trace w)) 512) as [[|b data]|] eqn:Ein.
  - destruct H as [-> _]. eexists _, _. reflexivity.
  - destruct H as (o1 & w1 & Hw & H).
    assert (Hlen : Z.of_nat (length (b :: data)) <= 512)
      by (apply (delivered_length _ _ _ _ Ein); lia).
    assert (Hfill : 512 <= Z.of_nat (length (fill buf (b :: data))))
      by (pose proof (length_fill_ge buf (b :: data)); lia).
    assert (Hlt : (length (trace w) < N)%nat).
    { destruct (Nat.lt_ge_cases (length (trace w)) N) as [Hlt|Hge]; [exact Hlt|].
      unfold delivered in Ein.
      destruct (He _ Hge) as [E|E]; rewrite E in Ein; discriminate. }
    destruct (write_loop_terminates env destfd (fill buf (b :: data))
                (Z.of_nat (length (b :: data))) Hp fuel
                (Z.of_nat (length (b :: data)))
                (log (SysRead sourcefd 512 (Some (b :: data))) w))
      as (tw & w1' & Hw'); [lia|].
    rewrite Hw' in Hw. inversion Hw; subst o1 w1.
    pose proof Hw' as Hb.
    apply write_loop_bounds in Hb; [|lia|lia|simpl; lia].
    destruct Hb as [(l1 & Hl1 & _) Htw].
    destruct (tw >? 0) eqn:Etw.
    + destruct H as [-> _]. eexists _, _. reflexivity.
    + replace (tw =? 0) with true in H.
      2:{ symmetry. apply Z.eqb_eq. rewrite Z.gtb_ltb in Etw.
          apply Z.ltb_ge in Etw. lia. }
      destruct (IH (fill buf (b :: data)) w1') as (n & w2 & Hn).
      { exact Hfill. }
      { rewrite Hl1, trace_log, !length_app. simpl. lia. }
      rewrite Hn in H. inversion H; subst. eexists _, _. reflexivity.
  - destruct H as [-> _]. eexists _, _. reflexivity.
Qed.

End Bounds.

(** ** What a computation adds to the history *)

Section Keeps.

Variable P : event -> Prop.

Lemma emits_refl (w : world) : emits P w w.
Proof.
  exists []. rewrite app_nil_r. split; [reflexivity|]. split; [constructor|].
  reflexivity.
Qed.

Lemma emits_trans (w1 w2 w3 : world) :
  emits P w1 w2 -> emits P w2 w3 -> emits P w1 w3.
Proof.
  intros (l1 & H1 & F1 & S1) (l2 & H2 & F2 & S2).
  exists (l1 ++ l2). split; [rewrite H2, H1, app_assoc; reflexivity|].
  split; [apply Forall_app; split; assumption|].
  intros HF a. apply Forall_app in HF. destruct HF as [HF1 HF2].
  rewrite S2, S1 by assumption. reflexivity.
Qed.

Lemma emits_log (e : event) (w : world) :
  P e -> ~ is_store e -> emits P w (log e w).
Proof.
  intros He Hs. exists [e]. split; [reflexivity|].
  split; [constructor; [exact He|constructor]|].
  intros _ [|]; reflexivity.
Qed.

Lemma keeps_ret {A} (a : A) : keeps P (ret a).
Proof. intros w. apply emits_refl. Qed.

Lemma keeps_exit {A} (s : Z) : keeps P (@exit A s).
Proof. intros w. apply emits_refl. Qed.

Lemma keeps_out_of_fuel {A} : keeps P (@out_of_fuel A).
Proof. intros w. apply emits_refl. Qed.

Lemma keeps_assert (b : bool) : keeps P (assert b).
Proof. intros w. unfold assert. destruct b; apply emits_refl. Qed.

Lemma keeps_get_sockfd : keeps P get_sockfd.
Proof. intros w. apply emits_refl. Qed.

Lemma keeps_bind {A B} (m : M A) (f : A -> M B) :
  keeps P m -> (forall a, keeps P (f a)) -> keeps P (bind m f).
Proof.
  intros Hm Hf w. unfold bind. specialize (Hm w).
  destruct (m w) as [[a| | | | |] w1]; try exact Hm.
  eapply emits_trans; [exact Hm|apply Hf].
Qed.

Lemma keeps_perror (msg : string) : P (Perror msg) -> keeps P (perror msg).
Proof. intros H w. apply emits_log; [exact H|exact (fun x => x)]. Qed.

Lemma keeps_printf (msg : string) (v : Z) :
  P (Printf msg v) -> keeps P (printf msg v).
Proof. intros H w. apply emits_log; [exact H|exact (fun x => x)]. Qed.

Lemma keeps_load (a : shared) (i : Z) :
  (forall v, P (Load a i v)) -> keeps P (load a i).
Proof.
  intros H w. unfold load. destruct (arr_get (sel a w) i).
  - apply emits_log; [apply H|exact (fun x => x)].
  - apply emits_refl.
Qed.

Lemma keeps_store (a : shared) (i v : Z) :
  P (Store a i v) -> keeps P (store a i v).
Proof.
  intros H w. unfold store. destruct (arr_set (sel a w) i v) as [l|].
  - exists [Store a i v]. split; [destruct a; reflexivity|].
    split; [constructor; [exact H|constructor]|].
    intros HF. inversion HF; subst. exfalso. apply H2. exact I.
  - apply emits_refl.
Qed.

Variable env : environment.

Lemma keeps_sys (c : syscall) : (forall r, P (Sys c r)) -> keeps P (sys env c).
Proof. intros H w. apply emits_log; [apply H|exact (fun x => x)]. Qed.

Lemma keeps_sys_read (fd : Z) (buf : list byte) (count : Z) :
  (forall res, P (SysRead fd count res)) -> keeps P (sys_read env fd buf count).
Proof.
  intros H w. unfold sys_read.
  destruct (Z.of_nat (length buf) <? count); [apply emits_refl|].
  cbv zeta. destruct (delivered env (length (trace w)) count);
    (apply emits_log; [apply H|exact (fun x => x)]).
Qed.

Lemma keeps_sys_wait : (forall r, P (Sys Wait r)) -> keeps P (sys_wait env).
Proof. intros H w. apply emits_log; [apply H|exact (fun x => x)]. Qed.

Lemma keeps_execl (path : string) :
  (forall r, P (Sys (Execl path) r)) -> keeps P (execl env path).
Proof.
  intros H w. unfold execl.
  destruct (_ =? 0); (apply emits_log; [apply H|exact (fun x => x)]).
Qed.

Lemma keeps_ioctl_find (fd : Z) (name : string) :
  (forall r, P (Sys (IoctlFind fd name) r)) -> keeps P (ioctl_find env fd name).
Proof. intros H w. apply emits_log; [apply H|exact (fun x => x)]. Qed.

Lemma keeps_ioctl_push (fd : Z) (name : string) :
  (forall r, P (Sys (IoctlPush fd name) r)) -> keeps P (ioctl_push env fd name).
Proof.
  intros H w. unfold ioctl_push. destruct (_ <? 0).
  - apply emits_log; [apply H|exact (fun x => x)].
  - exists [Sys (IoctlPush fd name) 0]. split; [reflexivity|].
    split; [constructor; [apply H|constructor]|].
    intros _ [|]; reflexivity.
Qed.

Lemma keeps_pthread_create (slot arg : Z) :
  (forall r, P (Sys (PthreadCreate slot arg) r)) ->
  (forall v, P (Store RelayThreads slot v)) ->
  keeps P (pthread_create env slot arg).
Proof.
  intros H1 H2 w. unfold pthread_create.
  destruct (_ =? 0).
  - apply emits_trans with (w2 := bump_tid w).
    + exists []. rewrite app_nil_r. split; [reflexivity|].
      split; [constructor|]. intros _ [|]; reflexivity.
    + apply (keeps_bind (store RelayThreads slot (next_tid w))
                        (fun _ w' => (Ret 0, log (Sys (PthreadCreate slot arg) 0) w'))).
      * apply keeps_store. apply H2.
      * intros _ w'. apply emits_log; [apply H1|exact (fun x => x)].
  - apply (keeps_bind (store RelayThreads slot _)
                      (fun _ w' => (Ret _, log (Sys (PthreadCreate slot arg) _) w'))).
    + apply keeps_store. apply H2.
    + intros _ w'. apply emits_log; [apply H1|exact (fun x => x)].
Qed.

End Keeps.

(** One step of the proof that a computation keeps a property of its
    events: split a sequence or a conditional, or close a call whose
    event satisfies the property by computation. *)
Ltac keeps_step :=
  match goal with
  | |- keeps _ (bind _ _) => apply keeps_bind; [|intros ?]
  | |- keeps _ (if ?b then _ else _) => destruct b
  | |- keeps _ (ret _) => apply keeps_ret
  | |- keeps _ (exit _) => apply keeps_exit
  | |- keeps _ out_of_fuel => apply keeps_out_of_fuel
  | |- keeps _ (assert _) => apply keeps_assert
  | |- keeps _ get_sockfd => apply keeps_get_sockfd
  | |- keeps _ (perror _) => apply keeps_perror; exact I
  | |- keeps _ (printf _ _) => apply keeps_printf; exact I
  | |- keeps _ (load _ _) => apply keeps_load; intros; exact I
  | |- keeps _ (store _ _ _) => apply keeps_store; exact I
  | |- keeps _ (sys _ _) => apply keeps_sys; intros; exact I
  | |- keeps _ (sys_read _ _ _ _) => apply keeps_sys_read; intros; exact I
  | |- keeps _ (sys_wait _) => apply keeps_sys_wait; intros; exact I
  | |- keeps _ (execl _ _) => apply keeps_execl; intros; exact I
  | |- keeps _ (ioctl_find _ _ _) => apply keeps_ioctl_find; intros; exact I
  | |- keeps _ (ioctl_push _ _ _) => apply keeps_ioctl_push; intros; exact I
  | |- keeps _ (pthread_create _ _ _) =>
      apply keeps_pthread_create; intros; exact I
  end.

(** ** The relay workers only read the shared arrays *)

Section KeepsLoops.

Variable P : event -> Prop.
Variable env : environment.
Variables sourcefd destfd : Z.

Hypothesis P_read : forall res, P (SysRead sourcefd 512 res).
Hypothesis P_write : forall off count data r, P (Sys (Write destfd off count data) r).
Hypothesis P_close : forall r, P (Sys (Close destfd) r).
Hypothesis P_perror : forall msg, P (Perror msg).

Lemma keeps_write_loop (buf : list byte) (nread : Z) :
  forall fuel towrite, keeps P (write_loop env fuel destfd buf nread towrite).
Proof.
  induction fuel as [|fuel IH]; intros towrite; simpl.
  - repeat keeps_step.
  - destruct (towrite >? 0); [|keeps_step].
    keeps_step. { apply keeps_sys. apply P_write. }
    destruct (a <? 0).
    + keeps_step; [apply keeps_perror; apply P_perror|keeps_step].
    + apply IH.
Qed.

Lemma keeps_relay_loop :
  forall fuel buf, keeps P (relay_loop env fuel sourcefd destfd buf).
Proof.
  induction fuel as [|fuel IH]; intros buf; simpl.
  - keeps_step.
  - keeps_step. { apply keeps_sys_read. apply P_read. }
    destruct (fst a >=? 0); [|keeps_step].
    destruct (fst a =? 0).
    + keeps_step; [apply keeps_sys; apply P_close|keeps_step].
    + keeps_step; [apply keeps_write_loop|].
      destruct (a0 >? 0); [keeps_step|].
      keeps_step; [keeps_step|apply IH].
Qed.

End KeepsLoops.

Lemma keeps_ps_relay_one (env : environment) (fuel : nat) (arg : Z) :
  keeps (fun e => is_store e -> False) (ps_relay_one env fuel arg).
Proof.
  unfold ps_relay_one.
  keeps_step. { apply keeps_load. intros v H. exact H. }
  keeps_step. { apply keeps_load. intros v H. exact H. }
  keeps_step. { apply keeps_load. intros v H. exact H. }
  keeps_step. { apply keeps_relay_loop; simpl; intros; assumption. }
  keeps_step.
  { destruct (a2 <? 0); [apply keeps_perror; exact (fun H => H)|keeps_step]. }
  keeps_step; [apply keeps_sys; intros r H; exact H|keeps_step].
Qed.

(** ** The relay worker copies in order *)

Lemma relay_run_entry (arg s d t : Z) (l : list event) :
  relay_run Idle (relay_entry arg s d t ++ l) = relay_run Idle l.
Proof. reflexivity. Qed.

Lemma relay_run_exit (st : relay_state) (n t r : Z) :
  relay_run st (relay_exit n t r) = st.
Proof. unfold relay_exit. destruct (n <? 0); reflexivity. Qed.

Lemma readin_exit (n t r : Z) : readin (relay_exit n t r) = [].
Proof. unfold relay_exit. destruct (n <? 0); reflexivity. Qed.

Lemma written_exit (n t r : Z) : written (relay_exit n t r) = [].
Proof. unfold relay_exit. destruct (n <? 0); reflexivity. Qed.


Lemma Forall_entry (P : event -> Prop) (arg s d t : Z) :
  (forall a i v, P (Load a i v)) -> Forall P (relay_entry arg s d t).
Proof. intros H. repeat constructor; apply H. Qed.

Lemma Forall_exit_io (s d n t r : Z) : Forall (relay_io s d) (relay_exit n t r).
Proof. unfold relay_exit. destruct (n <? 0); repeat constructor. Qed.

(** The events of a run of the worker, the descriptors they are made on,
    and the state of the copy at its end. *)
Lemma ps_relay_one_run (env : environment) (fuel : nat) (arg : Z) (w : world) :
  exists l,
    trace (snd (ps_relay_one env fuel arg w)) = trace w ++ l /\
    (forall s d t, relay_ends w arg = Some (s, d, t) -> Forall (relay_io s d) l) /\
    match fst (ps_relay_one env fuel arg w) with
    | Ret _ =>
        relay_run Idle l = Finished \/
        exists rest, rest <> [] /\ relay_run Idle l = Failed rest
    | OutOfFuel =>
        relay_run Idle l = Idle \/
        exists rest, rest <> [] /\ relay_run Idle l = Pending rest
    | Aborted => relay_run Idle l = Idle
    | Undefined => relay_run Idle l = Idle
    | _ => False
    end.
Proof.
  destruct (ps_relay_one env fuel arg w) as [o w'] eqn:H.
  apply ps_relay_one_inv in H. cbn [fst snd].
  destruct (relay_ends w arg) as [[[s d] t]|].
  - destruct H as (w1 & o1 & w2 & Hw1 & Hloop & -> & Hend).
    assert (Hio : exists l, trace w2 = trace w1 ++ l /\ Forall (relay_io s d) l).
    { destruct (keeps_relay_loop (relay_io s d) env s d) with (fuel := fuel)
        (buf := buf0) (w := w1) as (l & Hl & HF & _);
        try (intros; simpl; auto; fail).
      rewrite Hloop in Hl. exists l. split; assumption. }
    destruct Hio as (l0 & Hl0 & HF0).
    apply relay_loop_run in Hloop; [|rewrite buf0_size; lia].
    destruct Hloop as (l & Hl & Ho).
    assert (l0 = l) by (rewrite Hl in Hl0; apply app_inv_head in Hl0; congruence).
    subst l0.
    assert (He : Forall (relay_io s d) (relay_entry arg s d t))
      by (apply Forall_entry; intros; exact I).
    destruct o1 as [n| | | | |]; try (exfalso; exact Ho).
    + destruct Hend as [r Hend].
      exists (relay_entry arg s d t ++ l ++ relay_exit n t r).
      split; [rewrite Hend, Hl, Hw1, <- !app_assoc; reflexivity|].
      split.
      { intros s' d' t' E. inversion E; subst s' d' t'.
        apply Forall_app. split; [exact He|].
        apply Forall_app. split; [exact HF0|apply Forall_exit_io]. }
      rewrite relay_run_entry, relay_run_app, relay_run_exit. simpl.
      destruct (n >? 0); [right|left]; exact Ho.
    + subst w'. exists (relay_entry arg s d t ++ l).
      split; [rewrite Hl, Hw1, <- !app_assoc; reflexivity|].
      split.
      { intros s' d' t' E. inversion E; subst s' d' t'.
        apply Forall_app. split; assumption. }
      rewrite relay_run_entry. exact Ho.
    + subst w'. exists (relay_entry arg s d t ++ l).
      split; [rewrite Hl, Hw1, <- !app_assoc; reflexivity|].
      split.
      { intros s' d' t' E. inversion E; subst s' d' t'.
        apply Forall_app. split; assumption. }
      rewrite relay_run_entry. exact Ho.
  - destruct H as (-> & l & Hl & Hrun & _). exists l.
    split; [exact Hl|]. split; [discriminate|exact Hrun].
Qed.

(** ** The fuel and the calls of the copy *)

Lemma count_reads_app (l1 l2 : list event) :
  count_reads (l1 ++ l2) = (count_reads l1 + count_reads l2)%nat.
Proof.
  induction l1 as [|e l1 IH]; [reflexivity|].
  destruct e; simpl; rewrite IH; reflexivity.
Qed.

Lemma count_writes_app (l1 l2 : list event) :
  count_writes (l1 ++ l2) = (count_writes l1 + count_writes l2)%nat.
Proof.
  induction l1 as [|e l1 IH]; [reflexivity|].
  destruct e as [c r| | | | |]; simpl; try exact IH.
  destruct c; simpl; rewrite IH; reflexivity.
Qed.

(** Each iteration of the inner loop makes one write: with fuel [n] it
    makes at most [n] writes, and [n] of them when it is still
    running. *)
Lemma write_loop_counts (env : environment) (destfd : Z) (buf : list byte)
      (nread : Z) :
  forall fuel towrite w o w',
    write_loop env fuel destfd buf nread towrite w = (o, w') ->
    exists l,
      trace w' = trace w ++ l /\
      count_reads l = 0%nat /\ (count_writes l <= fuel)%nat /\
      (o = OutOfFuel -> count_writes l = fuel).
Proof.
  induction fuel as [|fuel IH]; intros towrite w o w' H; simpl in H.
  - destruct (towrite >? 0); inversion H; subst; exists [];
      rewrite app_nil_r; repeat split; try reflexivity; try discriminate.
  - destruct (towrite >? 0).
    2:{ inversion H; subst. exists []. rewrite app_nil_r.
        repeat split; [simpl; lia|discriminate]. }
    unfold bind at 1 in H. unfold sys at 1 in H.
    set (c := Write destfd (nread - towrite) towrite
                    (slice buf (nread - towrite) towrite)) in *.
    set (r := ret_of env (length (trace w)) c) in *.
    destruct (r <? 0).
    + unfold bind, perror, ret in H. injection H as <- <-.
      exists [Sys c r; Perror "child: write"].
      split; [simpl; rewrite <- app_assoc; reflexivity|].
      split; [reflexivity|]. split; [simpl; lia|discriminate].
    + apply IH in H. destruct H as (l & Hl & Hr & Hw & Ho).
      exists (Sys c r :: l).
      split; [rewrite Hl, trace_log, <- app_assoc; reflexivity|].
      split; [exact Hr|]. split; [simpl; lia|].
      intros E. simpl. rewrite (Ho E). reflexivity.
Qed.

(** Each iteration of the copy loop makes one read: with fuel [n] it
    makes at most [n] reads, and when it is still running it has made at
    least [n] reads and writes. *)
Lemma relay_loop_counts (env : environment) (sourcefd destfd : Z) :
  forall fuel buf w o w',
    512 <= Z.of_nat (length buf) ->
    relay_loop env fuel sourcefd destfd buf w = (o, w') ->
    exists l,
      trace w' = trace w ++ l /\
      (count_reads l <= fuel)%nat /\
      (o = OutOfFuel -> (fuel <= count_reads l + count_writes l)%nat).
Proof.
  induction fuel as [|fuel IH]; intros buf w o w' Hb H.
  { inversion H; subst. exists []. rewrite app_nil_r.
    split; [reflexivity|]. split; [simpl; lia|simpl; lia]. }
  apply relay_loop_step in H; [|exact Hb]. cbv zeta in H.
  destruct (delivered env (length (trace w)) 512) as [[|b data]|] eqn:Ein.
  - destruct H as [-> [r ->]].
    exists [SysRead sourcefd 512 (Some []); Sys (Close destfd) r].
    split; [rewrite !trace_log, <- app_assoc; reflexivity|].
    split; [simpl; lia|discriminate].
  - destruct H as (o1 & w1 & Hw & H).
    apply write_loop_counts in Hw. destruct Hw as (l1 & Hl1 & Hr1 & Hw1 & Ho1).
    set (rd := SysRead sourcefd 512 (Some (b :: data))) in *.
    assert (Hone : forall l2,
               trace w1 ++ l2 = trace w ++ rd :: l1 ++ l2 /\
               count_reads (rd :: l1 ++ l2) = S (count_reads l2) /\
               count_writes (rd :: l1 ++ l2) = (count_writes l1 + count_writes l2)%nat).
    { intros l2. split; [rewrite Hl1, trace_log, <- !app_assoc; reflexivity|].
      split; [simpl; rewrite count_reads_app, Hr1; reflexivity|].
      simpl. apply count_writes_app. }
    assert (Hstop : forall o', o = o' -> w' = w1 ->
               (o' = OutOfFuel -> o1 = OutOfFuel) ->
               exists l,
                 trace w' = trace w ++ l /\
                 (count_reads l <= S fuel)%nat /\
                 (o = OutOfFuel -> (S fuel <= count_reads l + count_writes l)%nat)).
    { intros o' -> -> Hout. exists (rd :: l1 ++ []).
      destruct (Hone []) as (Ht & Hcr & Hcw). rewrite app_nil_r in Ht.
      split; [exact Ht|]. rewrite Hcr, Hcw. simpl.
      split; [lia|]. intros E. rewrite (Ho1 (Hout E)). lia. }
    destruct o1 as [tw| | | | |].
    + destruct (tw >? 0).
      * destruct H as [Ho Hw']. apply (Hstop _ Ho Hw'). discriminate.
      * destruct (tw =? 0).
        -- apply IH in H; [|pose proof (length_fill_ge buf (b :: data)); lia].
           destruct H as (l2 & Hl2 & Hr2 & Ho2).
           exists (rd :: l1 ++ l2).
           destruct (Hone l2) as (Ht & Hcr & Hcw).
           split; [rewrite Hl2; exact Ht|]. rewrite Hcr, Hcw.
           split; [lia|]. intros E. specialize (Ho2 E). lia.
        -- destruct H as [Ho Hw']. apply (Hstop _ Ho Hw'). discriminate.
    + destruct H as [Ho Hw']. apply (Hstop _ Ho Hw'). discriminate.
    + destruct H as [Ho Hw']. apply (Hstop _ Ho Hw'). discriminate.
    + destruct H as [Ho Hw']. apply (Hstop _ Ho Hw'). discriminate.
    + destruct H as [Ho Hw']. apply (Hstop _ Ho Hw'). discriminate.
    + destruct H as [Ho Hw']. apply (Hstop _ Ho Hw'). reflexivity.
  - destruct H as [-> ->]. exists [SysRead sourcefd 512 None].
    split; [reflexivity|]. split; [simpl; lia|discriminate].
Qed.

Lemma ps_relay_one_counts (env : environment) (fuel : nat) (arg : Z) (w : world) :
  exists l,
    trace (snd (ps_relay_one env fuel arg w)) = trace w ++ l /\
    (count_reads l <= fuel)%nat /\
    (fst (ps_relay_one env fuel arg w) = OutOfFuel ->
     (fuel <= count_reads l + count_writes l)%nat).
Proof.
  destruct (ps_relay_one env fuel arg w) as [o w'] eqn:H.
  apply ps_relay_one_inv in H. cbn [fst snd].
  destruct (relay_ends w arg) as [[[s d] t]|].
  - destruct H as (w1 & o1 & w2 & Hw1 & Hloop & -> & Hend).
    apply relay_loop_counts in Hloop; [|rewrite buf0_size; lia].
    destruct Hloop as (l & Hl & Hr & Ho).
    destruct o1 as [n| | | | |];
      try (subst w'; exists (relay_entry arg s d t ++ l);
           split; [rewrite Hl, Hw1, <- !app_assoc; reflexivity|];
           rewrite count_reads_app, count_writes_app; simpl;
           split; [exact Hr|]; intros E; first [discriminate E|exact (Ho eq_refl)]).
    destruct Hend as [r Hend].
    exists (relay_entry arg s d t ++ l ++ relay_exit n t r).
    split; [rewrite Hend, Hl, Hw1, <- !app_assoc; reflexivity|].
    rewrite !count_reads_app.
    assert (Hx : count_reads (relay_exit n t r) = 0%nat)
      by (unfold relay_exit; destruct (n <? 0); reflexivity).
    rewrite Hx. simpl. split; [lia|discriminate].
  - destruct H as (-> & l & Hl & _ & _ & _ & _ & _ & Hr).
    exists l. split; [exact Hl|]. split; [lia|discriminate].
Qed.

(** C2.  In every run of a relay worker, whatever the fuel: every read
    is made on the descriptor taken as source and every write on the one
    taken as destination; the history follows the copy protocol (a chunk
    is read only when the previous one has been written in full, every
    write offers exactly the part of the current chunk not yet accepted,
    nothing is read or written after an end of stream, a read error or a
    write error); the bytes read are the bytes written followed by the
    part of the last chunk still held; a worker that has returned has
    finished or was stopped by a write error, and a worker still running
    has met neither; each unit of fuel stands for one read or one write,
    so that a run with fuel [n] makes at most [n] reads, and has made at
    least [n] reads and writes when it is still running.  When no write
    accepts more than it is offered, every write makes progress and the
    source ends, the worker returns, and then the bytes it has written
    are the bytes it has read, in their order, unless a write has failed,
    when they are the bytes read but for the part of the last chunk that
    was left.  Under the same conditions the inner loop returns: it has
    written the whole of what was left of the chunk, or a write has
    failed and what it has written and what it has left make up what was
    left of the chunk. *)
Theorem relay_one_copies_in_order (env : environment) (arg : Z) (w : world) :
  (forall fuel,
      exists l,
        trace (snd (ps_relay_one env fuel arg w)) = trace w ++ l /\
        (forall sourcefd destfd other,
            relay_ends w arg = Some (sourcefd, destfd, other) ->
            Forall (relay_io sourcefd destfd) l) /\
        relay_run Idle l <> Bad /\
        readin l = written l ++ pending (relay_run Idle l) /\
        (relay_run Idle l = Finished -> written l = readin l) /\
        (fst (ps_relay_one env fuel arg w) = Ret tt ->
         relay_run Idle l = Finished \/
         exists rest, rest <> [] /\ relay_run Idle l = Failed rest) /\
        (fst (ps_relay_one env fuel arg w) = OutOfFuel ->
         relay_run Idle l = Idle \/
         exists rest, rest <> [] /\ relay_run Idle l = Pending rest) /\
        (count_reads l <= fuel)%nat /\
        (fst (ps_relay_one env fuel arg w) = OutOfFuel ->
         (fuel <= count_reads l + count_writes l)%nat)) /\
  (forall N,
      write_contract env -> write_progress env ->
      reads_end env N -> relay_ends w arg <> None ->
      forall fuel,
        (N + 513 <= fuel)%nat ->
        fst (ps_relay_one env fuel arg w) = Ret tt /\
        exists l,
          trace (snd (ps_relay_one env fuel arg w)) = trace w ++ l /\
          ((relay_run Idle l = Finished /\ written l = readin l) \/
           (exists rest,
               rest <> [] /\ relay_run Idle l = Failed rest /\
               readin l = written l ++ rest))) /\
  (forall destfd buf nread towrite fuel w0,
      write_contract env -> write_progress env ->
      0 <= towrite <= nread -> nread <= Z.of_nat (length buf) ->
      (Z.to_nat towrite <= fuel)%nat ->
      exists tw l,
        fst (write_loop env fuel destfd buf nread towrite w0) = Ret tw /\
        trace (snd (write_loop env fuel destfd buf nread towrite w0)) =
        trace w0 ++ l /\
        0 <= tw <= towrite /\
        written l ++ slice buf (nread - tw) tw =
        slice buf (nread - towrite) towrite /\
        relay_run (chunk_state buf nread towrite) l =
        (if tw >? 0 then Failed (slice buf (nread - tw) tw) else Idle)).
Proof.
  assert (Hpart1 : forall fuel,
      exists l,
        trace (snd (ps_relay_one env fuel arg w)) = trace w ++ l /\
        (forall sourcefd destfd other,
            relay_ends w arg = Some (sourcefd, destfd, other) ->
            Forall (relay_io sourcefd destfd) l) /\
        relay_run Idle l <> Bad /\
        readin l = written l ++ pending (relay_run Idle l) /\
        (relay_run Idle l = Finished -> written l = readin l) /\
        (fst (ps_relay_one env fuel arg w) = Ret tt ->
         relay_run Idle l = Finished \/
         exists rest, rest <> [] /\ relay_run Idle l = Failed rest) /\
        (fst (ps_relay_one env fuel arg w) = OutOfFuel ->
         relay_run Idle l = Idle \/
         exists rest, rest <> [] /\ relay_run Idle l = Pending rest) /\
        (count_reads l <= fuel)%nat /\
        (fst (ps_relay_one env fuel arg w) = OutOfFuel ->
         (fuel <= count_reads l + count_writes l)%nat)).
  { intros fuel.
    destruct (ps_relay_one_counts env fuel arg w) as (l' & Hl' & Hcr & Hcw).
    destruct (ps_relay_one_run env fuel arg w) as (l & Hl & Hio & Ho).
    assert (l' = l) by (rewrite Hl in Hl'; apply app_inv_head in Hl'; congruence).
    subst l'.
    exists l. split; [exact Hl|]. split; [exact Hio|].
    assert (Hbad : relay_run Idle l <> Bad).
    { destruct (fst (ps_relay_one env fuel arg w));
        try (exfalso; exact Ho);
        try (rewrite Ho; discriminate);
        destruct Ho as [Ho|(rest & _ & Ho)]; rewrite Ho; discriminate. }
    split; [exact Hbad|].
    pose proof (relay_run_conserves l Idle Hbad) as Hc. simpl in Hc.
    split; [exact Hc|].
    split; [intros Hf; rewrite Hc, Hf; simpl; rewrite app_nil_r; reflexivity|].
    split; [intros Hr; rewrite Hr in Ho; exact Ho|].
    split; [intros Hr; rewrite Hr in Ho; exact Ho|].
    split; [exact Hcr|exact Hcw]. }
  split; [exact Hpart1|]. split.
  - intros N Hwrite Hprog Hend Hends fuel Hfuel.
    assert (Hret : fst (ps_relay_one env fuel arg w) = Ret tt).
    { destruct (ps_relay_one env fuel arg w) as [o w'] eqn:H.
      apply ps_relay_one_inv in H. cbn [fst].
      destruct (relay_ends w arg) as [[[s d] t]|]; [|congruence].
      destruct H as (w1 & o1 & w2 & Hw1 & Hloop & -> & _).
      destruct (relay_loop_terminates env Hwrite s d N Hprog Hend
                  fuel buf0 w1) as (n & w3 & Hn);
        [rewrite buf0_size; lia|lia|].
      rewrite Hn in Hloop. inversion Hloop; subst. reflexivity. }
    split; [exact Hret|].
    destruct (Hpart1 fuel) as (l & Hl & _ & _ & Hc & Hf & Hr & _).
    exists l. split; [exact Hl|].
    destruct (Hr Hret) as [Hfin|(rest & Hne & Hfail)].
    + left. split; [exact Hfin|exact (Hf Hfin)].
    + right. exists rest. split; [exact Hne|]. split; [exact Hfail|].
      rewrite Hc, Hfail. reflexivity.
  - intros destfd buf nread towrite fuel w0 Hwrite Hprog Ht Hb Hfuel.
    destruct (write_loop_terminates env destfd buf nread Hprog fuel towrite w0 Hfuel)
      as (tw & w' & H).
    pose proof (write_loop_reads env destfd buf nread fuel towrite w0)
      as (l0 & Hl0 & _ & Hrd).
    rewrite H in Hl0. cbn [snd] in Hl0.
    pose proof (write_loop_nonneg env Hwrite destfd buf nread fuel towrite w0 tw w'
                                  (proj1 Ht) H) as Hpos.
    pose proof (write_loop_run env destfd buf nread Hb fuel towrite w0 _ _
                               (proj2 Ht) H) as (l & Hl & Htw & Hrun).
    assert (l0 = l) by (rewrite Hl in Hl0; apply app_inv_head in Hl0; congruence).
    subst l0.
    exists tw, l. rewrite H. cbn [fst snd].
    split; [reflexivity|]. split; [exact Hl|]. split; [lia|].
    split; [|exact Hrun].
    assert (Hbad : relay_run (chunk_state buf nread towrite) l <> Bad)
      by (rewrite Hrun; destruct (tw >? 0); discriminate).
    pose proof (relay_run_conserves l _ Hbad) as Hc.
    rewrite Hrd, app_nil_r, Hrun in Hc.
    assert (Hs : forall n, 0 <= n ->
                 pending (chunk_state buf nread n) = slice buf (nread - n) n).
    { intros n Hn. unfold chunk_state. destruct (n >? 0) eqn:E; [reflexivity|].
      rewrite Z.gtb_ltb in E. apply Z.ltb_ge in E.
      replace n with 0 by lia. unfold slice. reflexivity. }
    rewrite (Hs towrite (proj1 Ht)) in Hc. rewrite Hc.
    f_equal. rewrite <- (Hs tw Hpos). unfold chunk_state.
    destruct (tw >? 0); reflexivity.
Qed.

Lemma write_contract_of (step : Z) inp : write_contract (env_of step inp).
Proof.
  intros n fd off count data. simpl.
  destruct (count >? 0); lia.
Qed.

Lemma write_progress_of (step : Z) inp : 0 < step -> write_progress (env_of step inp).
Proof.
  intros Hs n fd off count data. simpl.
  destruct (count >? 0) eqn:E; [apply Z.gtb_lt in E; lia|].
  rewrite Z.gtb_ltb in E. apply Z.ltb_ge in E. lia.
Qed.

Lemma reads_end_hi (step : Z) : reads_end (env_of step input_hi) 4.
Proof.
  intros k Hk. left. simpl. unfold input_hi.
  do 4 (destruct k as [|k]; [lia|]). reflexivity.
Qed.

(** The peer sends "hi" and closes, and every write accepts one byte:
    the worker writes "h", then "i", and returns. *)
Lemma relay_one_copies_in_order_witness :
  (fst (ps_relay_one (env_of 1 input_hi) 517 0 relay_world) = Ret tt /\
   exists l,
     trace (snd (ps_relay_one (env_of 1 input_hi) 517 0 relay_world)) =
     trace relay_world ++ l /\
     ((relay_run Idle l = Finished /\ written l = readin l) \/
      (exists rest,
          rest <> [] /\ relay_run Idle l = Failed rest /\
          readin l = written l ++ rest))) /\
  readin (trace (snd (ps_relay_one (env_of 1 input_hi) 517 0 relay_world))) =
  [x68; x69] /\
  written (trace (snd (ps_relay_one (env_of 1 input_hi) 517 0 relay_world))) =
  [x68; x69] /\
  trace (snd (ps_relay_one (env_of 1 input_hi) 517 0 relay_world)) =
  [Load RelayFds 0 4; Load RelayFds 1 3; Load RelayThreads 1 3;
   SysRead 4 512 (Some [x68; x69]);
   Sys (Write 3 0 2 [x68; x69]) 1; Sys (Write 3 1 1 [x69]) 1;
   SysRead 4 512 (Some []); Sys (Close 3) 0; Sys (PthreadCancel 3) 0].
Proof.
  split.
  - apply (proj1 (proj2 (relay_one_copies_in_order (env_of 1 input_hi) 0 relay_world))
                 4%nat).
    + apply write_contract_of.
    + apply write_progress_of. lia.
    + apply reads_end_hi.
    + vm_compute. discriminate.
    + lia.
  - vm_compute. repeat split; reflexivity.
Defined.

(** ** The buffer is never overrun *)



(** ** The inner loop and writes of zero bytes *)

(** C10.  The inner loop of a relay worker returns within [towrite]
    iterations when every write fails or accepts at least one byte; when
    every write returns 0 it never returns: whatever the fuel, it is
    still running, having repeated the same write of the same [towrite]
    bytes once per iteration. *)
Theorem write_loop_needs_progress (env : environment) (destfd : Z)
        (buf : list byte) (nread towrite : Z) (w : world) :
  (write_progress env ->
   forall fuel, (Z.to_nat towrite <= fuel)%nat ->
     exists tw w', write_loop env fuel destfd buf nread towrite w = (Ret tw, w')) /\
  ((forall n fd off count data, ret_of env n (Write fd off count data) = 0) ->
   0 < towrite ->
   forall fuel,
     exists w',
       write_loop env fuel destfd buf nread towrite w = (OutOfFuel, w') /\
       trace w' = trace w ++
                  repeat (Sys (Write destfd (nread - towrite) towrite
                                     (slice buf (nread - towrite) towrite)) 0) fuel).
Proof.
  split.
  - intros Hp fuel Hf. apply write_loop_terminates; assumption.
  - intros Hz Ht fuel. apply write_loop_stalls; assumption.
Qed.

Lemma write_loop_needs_progress_witness :
  (exists tw w',
      write_loop (env_of 1 input_hi) 2 3 [x68; x69] 2 2 relay_world = (Ret tw, w')) /\
  (exists w',
      write_loop env_stall 7 3 [x68; x69] 2 2 relay_world = (OutOfFuel, w') /\
      trace w' = trace relay_world ++
                 repeat (Sys (Write 3 (2 - 2) 2 (slice [x68; x69] (2 - 2) 2)) 0) 7).
Proof.
  split.
  - apply (proj1 (write_loop_needs_progress (env_of 1 input_hi) 3 [x68; x69] 2 2
                    relay_world)).
    + apply write_progress_of. lia.
    + simpl. lia.
  - apply (proj2 (write_loop_needs_progress env_stall 3 [x68; x69] 2 2 relay_world)).
    + reflexivity.
    + lia.
Defined.

(** ** The shared relay state *)

(** The descriptors are stored first. *)
Lemma ps_relay_stores_fds_first (env : environment) (peerfd mfd : Z) (w : world) :
  exists h,
    trace (snd (ps_relay env peerfd mfd w)) =
    trace w ++ Store RelayFds 0 peerfd :: Store RelayFds 1 mfd :: h /\
    Forall not_fd_store h.
Proof.
  unfold ps_relay.
  unfold bind at 1. unfold store at 1. cbn [arr_set Z.eqb Pos.eqb].
  unfold bind at 1. unfold store at 1. cbn [arr_set Z.eqb Pos.eqb].
  match goal with
  | |- context [snd (bind ?m ?f ?w0)] =>
      assert (Hk : keeps not_fd_store (bind m f));
      [|destruct (Hk w0) as (h & Hh & HF & _)]
  end.
  { repeat keeps_step. }
  exists h. split; [|exact HF].
  rewrite Hh. simpl. rewrite <- !app_assoc. reflexivity.
Qed.

Lemma fds_log (e : event) (w : world) : ps_relay_fds (log e w) = ps_relay_fds w.
Proof. reflexivity. Qed.

Lemma threads_log (e : event) (w : world) :
  ps_relay_threads (log e w) = ps_relay_threads w.
Proof. reflexivity. Qed.

(** Sequencing after a computation whose result is known. *)
Lemma bind_ret_eq {A B} (m : M A) (f : A -> M B) (w w1 : world) (a : A) :
  m w = (Ret a, w1) -> bind m f w = f a w1.
Proof. intros H. unfold bind. rewrite H. reflexivity. Qed.

Lemma pthread_create_eq (env : environment) (slot arg : Z) (w : world) :
  slot = 0 \/ slot = 1 ->
  let r := ret_of env (length (trace w)) (PthreadCreate slot arg) in
  exists w',
    pthread_create env slot arg w = (Ret r, w') /\
    ps_relay_fds w' = ps_relay_fds w /\
    if r =? 0 then
      trace w' = trace w ++ [Store RelayThreads slot (next_tid w);
                             Sys (PthreadCreate slot arg) 0] /\
      arr_set (ps_relay_threads w) slot (next_tid w) = Some (ps_relay_threads w') /\
      next_tid w' = next_tid w + 1
    else
      trace w' = trace w ++
                 [Store RelayThreads slot (ret_of env (length (trace w)) (ThreadSlot slot));
                  Sys (PthreadCreate slot arg) r] /\
      arr_set (ps_relay_threads w) slot
              (ret_of env (length (trace w)) (ThreadSlot slot)) =
      Some (ps_relay_threads w') /\
      next_tid w' = next_tid w.
Proof.
  intros Hs. cbv zeta. unfold pthread_create.
  destruct (ret_of env (length (trace w)) (PthreadCreate slot arg) =? 0) eqn:E.
  - apply Z.eqb_eq in E. rewrite E.
    destruct Hs as [-> | ->]; eexists; (split; [reflexivity|]);
      (split; [reflexivity|]); simpl; rewrite <- app_assoc; auto.
  - destruct Hs as [-> | ->]; eexists; (split; [reflexivity|]);
      (split; [reflexivity|]); simpl; rewrite <- app_assoc; auto.
Qed.

(** The history of a call of [ps_relay] that started both workers. *)
Lemma ps_relay_started (env : environment) (peerfd mfd : Z) (w : world) :
  fst (ps_relay env peerfd mfd w) = Ret 0 ->
  let t := next_tid w in
  exists d0 d1,
    trace (snd (ps_relay env peerfd mfd w)) =
    trace w ++
    [Store RelayFds 0 peerfd; Store RelayFds 1 mfd;
     Store RelayThreads 0 t; Sys (PthreadCreate 0 0) 0;
     Store RelayThreads 1 (t + 1); Sys (PthreadCreate 1 1) 0;
     Load RelayThreads 0 t; Sys (PthreadDetach t) d0;
     Load RelayThreads 1 (t + 1); Sys (PthreadDetach (t + 1)) d1] /\
    ps_relay_fds (snd (ps_relay env peerfd mfd w)) = (peerfd, mfd) /\
    ps_relay_threads (snd (ps_relay env peerfd mfd w)) = (t, t + 1).
Proof.
  cbv zeta. unfold ps_relay.
  rewrite (bind_ret_eq (store RelayFds 0 peerfd) _ w _ tt eq_refl).
  match goal with |- context [bind _ _ ?w0] => set (w1 := w0) end.
  rewrite (bind_ret_eq (store RelayFds 1 mfd) _ w1 _ tt eq_refl).
  match goal with |- context [bind _ _ ?w0] => set (w2 := w0) end.
  destruct (pthread_create_eq env 0 0 w2 (or_introl eq_refl))
    as (w3 & H3 & F3 & C3).
  rewrite (bind_ret_eq _ _ _ _ _ H3).
  destruct (ret_of env (length (trace w2)) (PthreadCreate 0 0) =? 0) eqn:E0.
  2:{ cbn [negb]. intros H. discriminate H. }
  cbn [negb]. destruct C3 as (T3 & A3 & N3).
  destruct (pthread_create_eq env 1 1 w3 (or_intror eq_refl))
    as (w4 & H4 & F4 & C4).
  rewrite (bind_ret_eq _ _ _ _ _ H4).
  destruct (ret_of env (length (trace w3)) (PthreadCreate 1 1) =? 0) eqn:E1.
  2:{ cbn [negb]. intros H. discriminate H. }
  cbn [negb]. destruct C4 as (T4 & A4 & N4). intros _.
  assert (Hth : ps_relay_threads w4 = (next_tid w, next_tid w + 1)).
  { cbn in A3. cbn in A4. inversion A3 as [A3']. inversion A4 as [A4'].
    rewrite <- A3'. cbn [fst]. rewrite N3. reflexivity. }
  assert (H0 : load RelayThreads 0 w4 =
               (Ret (next_tid w), log (Load RelayThreads 0 (next_tid w)) w4)).
  { unfold load, sel. rewrite Hth. reflexivity. }
  rewrite (bind_ret_eq _ _ _ _ _ H0).
  rewrite (bind_ret_eq (sys env _) _ _ _ _ eq_refl).
  match goal with |- context [bind _ _ ?w0] => set (w5 := w0) end.
  assert (H1 : load RelayThreads 1 w5 =
               (Ret (next_tid w + 1), log (Load RelayThreads 1 (next_tid w + 1)) w5)).
  { unfold load, sel. subst w5. rewrite !threads_log, Hth. reflexivity. }
  rewrite (bind_ret_eq _ _ _ _ _ H1).
  rewrite (bind_ret_eq (sys env _) _ _ _ _ eq_refl).
  unfold ret. cbn [fst snd].
  eexists _, _. split; [|split].
  - rewrite !trace_log. subst w5. rewrite !trace_log, T4, T3. subst w2 w1.
    rewrite N3. cbn [trace log set_sel]. rewrite <- !app_assoc. reflexivity.
  - subst w5. rewrite !fds_log, F4, F3. reflexivity.
  - subst w5. rewrite !threads_log. exact Hth.
Qed.

(** C8, as the code has it.  [ps_relay] stores the two descriptors
    first, once each, before any worker is started, and does not store
    them again; when it has started both workers, it has stored each
    thread identifier once, the identifier of worker [i] with the
    [pthread_create] that starts worker [i], so the second identifier is
    stored after the first worker has started; a worker stores nothing
    and leaves both arrays as they are. *)
Theorem relay_state_stores (env : environment) :
  (forall peerfd mfd w,
      exists h,
        trace (snd (ps_relay env peerfd mfd w)) =
        trace w ++ Store RelayFds 0 peerfd :: Store RelayFds 1 mfd :: h /\
        Forall not_fd_store h) /\
  (forall peerfd mfd w,
      fst (ps_relay env peerfd mfd w) = Ret 0 ->
      exists d0 d1,
        trace (snd (ps_relay env peerfd mfd w)) =
        trace w ++
        [Store RelayFds 0 peerfd; Store RelayFds 1 mfd;
         Store RelayThreads 0 (next_tid w); Sys (PthreadCreate 0 0) 0;
         Store RelayThreads 1 (next_tid w + 1); Sys (PthreadCreate 1 1) 0;
         Load RelayThreads 0 (next_tid w); Sys (PthreadDetach (next_tid w)) d0;
         Load RelayThreads 1 (next_tid w + 1);
         Sys (PthreadDetach (next_tid w + 1)) d1]) /\
  (forall fuel arg w,
      ps_relay_fds (snd (ps_relay_one env fuel arg w)) = ps_relay_fds w /\
      ps_relay_threads (snd (ps_relay_one env fuel arg w)) = ps_relay_threads w /\
      exists l,
        trace (snd (ps_relay_one env fuel arg w)) = trace w ++ l /\
        Forall (fun e => ~ is_store e) l).
Proof.
  split; [|split].
  - intros. apply ps_relay_stores_fds_first.
  - intros peerfd mfd w H.
    destruct (ps_relay_started env peerfd mfd w H) as (d0 & d1 & Ht & _).
    exists d0, d1. exact Ht.
  - intros fuel arg w.
    destruct (keeps_ps_relay_one env fuel arg w) as (l & Hl & HF & Hs).
    split; [exact (Hs HF RelayFds)|]. split; [exact (Hs HF RelayThreads)|].
    exists l. split; assumption.
Qed.

Lemma relay_state_stores_witness :
  exists d0 d1,
    trace (snd (ps_relay (env_of 1 input_hi) 4 3 (world_after_init 3))) =
    trace (world_after_init 3) ++
    [Store RelayFds 0 4; Store RelayFds 1 3;
     Store RelayThreads 0 (next_tid (world_after_init 3));
     Sys (PthreadCreate 0 0) 0;
     Store RelayThreads 1 (next_tid (world_after_init 3) + 1);
     Sys (PthreadCreate 1 1) 0;
     Load RelayThreads 0 (next_tid (world_after_init 3));
     Sys (PthreadDetach (next_tid (world_after_init 3))) d0;
     Load RelayThreads 1 (next_tid (world_after_init 3) + 1);
     Sys (PthreadDetach (next_tid (world_after_init 3) + 1)) d1].
Proof.
  apply (proj1 (proj2 (relay_state_stores (env_of 1 input_hi))) 4 3
               (world_after_init 3)).
  vm_compute. reflexivity.
Defined.

(** C8, as stated, fails: when [ps_relay 4 3] starts both workers, the
    identifier of the second worker is stored after the first worker has
    been started. *)
Lemma relay_state_stored_after_start :
  fst (ps_relay (env_of 1 input_hi) 4 3 (world_after_init 3)) = Ret 0 /\
  written_before_start
    (trace (snd (ps_relay (env_of 1 input_hi) 4 3 (world_after_init 3)))) = false /\
  exists h,
    trace (snd (ps_relay (env_of 1 input_hi) 4 3 (world_after_init 3))) =
    [Store RelayFds 0 4; Store RelayFds 1 3; Store RelayThreads 0 2;
     Sys (PthreadCreate 0 0) 0; Store RelayThreads 1 3] ++ h.
Proof.
  split; [vm_compute; reflexivity|]. split; [vm_compute; reflexivity|].
  eexists. vm_compute. reflexivity.
Qed.

(** ** The directions of the two workers *)

(** For descriptors that are not negative, the destination index
    [(sourcefd + 1) % 2] is 1 for an even source descriptor and 0 for an
    odd one, whatever the index the source was taken from. *)
Lemma relay_ends_parity (w : world) (arg : Z) :
  arg = 0 \/ arg = 1 ->
  0 <= fst (ps_relay_fds w) -> 0 <= snd (ps_relay_fds w) ->
  let sourcefd := if arg =? 0 then fst (ps_relay_fds w) else snd (ps_relay_fds w) in
  relay_ends w arg =
  Some (sourcefd,
        if Z.even sourcefd then snd (ps_relay_fds w) else fst (ps_relay_fds w),
        if Z.even sourcefd then snd (ps_relay_threads w)
        else fst (ps_relay_threads w)).
Proof.
  intros Harg H0 H1. cbv zeta. unfold relay_ends.
  assert (Hs : arr_get (ps_relay_fds w) arg =
               Some (if arg =? 0 then fst (ps_relay_fds w) else snd (ps_relay_fds w)))
    by (destruct Harg as [-> | ->]; reflexivity).
  rewrite Hs.
  set (s := if arg =? 0 then fst (ps_relay_fds w) else snd (ps_relay_fds w)).
  assert (Hpos : 0 <= s) by (unfold s; destruct (arg =? 0); assumption).
  assert (Hrem : Z.rem (s + 1) 2 = if Z.even s then 1 else 0).
  { rewrite Z.rem_mod_nonneg by lia.
    destruct (Z.even s) eqn:E.
    - apply Z.even_spec in E. destruct E as [k ->].
      rewrite Z.add_comm, Z.mul_comm, Z.mod_add by lia. reflexivity.
    - rewrite <- Z.negb_odd in E. apply negb_false_iff in E.
      apply Z.odd_spec in E. destruct E as [k ->].
      replace (2 * k + 1 + 1) with (0 + (k + 1) * 2) by lia.
      rewrite Z.mod_add by lia. reflexivity. }
  rewrite Hrem. destruct (Z.even s); reflexivity.
Qed.

(** With an even peer descriptor and an odd pty master descriptor the
    two workers copy in opposite directions and cancel each other. *)
Lemma relay_ends_even_odd (w : world) (peerfd mfd t0 t1 : Z) :
  ps_relay_fds w = (peerfd, mfd) -> ps_relay_threads w = (t0, t1) ->
  0 <= peerfd -> 0 <= mfd -> Z.even peerfd = true -> Z.even mfd = false ->
  relay_ends w 0 = Some (peerfd, mfd, t1) /\
  relay_ends w 1 = Some (mfd, peerfd, t0).
Proof.
  intros Hf Ht Hp Hm Ep Em.
  rewrite !relay_ends_parity by (rewrite ?Hf; simpl; auto).
  rewrite Hf, Ht. simpl. rewrite Ep, Em. split; reflexivity.
Qed.

(** C1 at peer descriptor 5 and pty master descriptor 4.  [ps_relay]
    starts two workers, with arguments 0 and 1, and each of them writes
    to the descriptor it reads from: the worker started with 0 reads the
    peer (5) and writes "hi" back to the peer, the worker started with 1
    reads the pty master (4) and writes to the pty master. *)
Theorem relay_odd_peer_writes_to_source :
  ps_relay (env_of 1 input_hi) 5 4 (world_after_init 4) =
  (Ret 0,
   mkWorld 4 (5, 4) (2, 3) [] 4
           [Store RelayFds 0 5; Store RelayFds 1 4;
            Store RelayThreads 0 2; Sys (PthreadCreate 0 0) 0;
            Store RelayThreads 1 3; Sys (PthreadCreate 1 1) 0;
            Load RelayThreads 0 2; Sys (PthreadDetach 2) 0;
            Load RelayThreads 1 3; Sys (PthreadDetach 3) 0]) /\
  relay_ends odd_peer_world 0 = Some (5, 5, 2) /\
  relay_ends odd_peer_world 1 = Some (4, 4, 3) /\
  trace (snd (ps_relay_one (env_of 1 input_hi) 9 0 odd_peer_world)) =
  [Load RelayFds 0 5; Load RelayFds 0 5; Load RelayThreads 0 2;
   SysRead 5 512 (Some [x68; x69]);
   Sys (Write 5 0 2 [x68; x69]) 1; Sys (Write 5 1 1 [x69]) 1;
   SysRead 5 512 (Some []); Sys (Close 5) 0; Sys (PthreadCancel 2) 0] /\
  trace (snd (ps_relay_one (env_of 1 input_hi) 9 1 odd_peer_world)) =
  [Load RelayFds 1 4; Load RelayFds 1 4; Load RelayThreads 1 3;
   SysRead 4 512 (Some [x68; x69]);
   Sys (Write 4 0 2 [x68; x69]) 1; Sys (Write 4 1 1 [x69]) 1;
   SysRead 4 512 (Some []); Sys (Close 4) 0; Sys (PthreadCancel 3) 0].
Proof.
  repeat split; vm_compute; reflexivity.
Qed.

(** ** End of stream and cancellation *)

(** A copy loop that leaves with [nread = 0] has just read an end of
    stream and closed its destination; one that leaves with [nread < 0]
    has just met a read error. *)
Lemma relay_loop_last (env : environment) (sourcefd destfd : Z) :
  forall fuel buf w n w',
    512 <= Z.of_nat (length buf) ->
    relay_loop env fuel sourcefd destfd buf w = (Ret n, w') -> n <= 0 ->
    exists l r, trace w' = trace w ++ l ++ relay_last sourcefd destfd n r.
Proof.
  induction fuel as [|fuel IH]; intros buf w n w' Hb H Hn; [discriminate H|].
  apply relay_loop_step in H; [|exact Hb]. cbv zeta in H.
  destruct (delivered env (length (trace w)) 512) as [[|b data]|] eqn:Ein.
  - destruct H as [H [r ->]]. inversion H; subst n. exists [], r.
    rewrite !trace_log. list_eq.
  - destruct H as (o1 & w1 & Hw & H).
    apply write_loop_run in Hw;
      [|pose proof (length_fill buf (b :: data)); lia|lia].
    destruct Hw as (l1 & Hl1 & _).
    destruct o1 as [tw| | | | |]; try (destruct H as [H _]; discriminate H).
    destruct (tw >? 0).
    { destruct H as [H _]. inversion H; subst n. simpl in Hn. lia. }
    destruct (tw =? 0); [|destruct H as [H _]; discriminate H].
    apply IH in H;
      [|pose proof (length_fill_ge buf (b :: data)); lia|exact Hn].
    destruct H as (l & r & Hl).
    exists (SysRead sourcefd 512 (Some (b :: data)) :: l1 ++ l), r.
    rewrite Hl, Hl1, trace_log. list_eq.
  - destruct H as [H ->]. inversion H; subst n. exists [], 0.
    rewrite trace_log. reflexivity.
Qed.

(** Whenever the worker returns, the copy has finished or a write has
    failed, and the last call of the worker is [pthread_cancel(other)];
    when the copy has finished, the calls before it are the read of an
    end of stream and the [close] of the destination, or a failed read
    and its diagnostic. *)
Lemma ps_relay_one_returns (env : environment) (fuel : nat) (arg : Z) (w : world) :
  fst (ps_relay_one env fuel arg w) = Ret tt ->
  exists sourcefd destfd other l r,
    relay_ends w arg = Some (sourcefd, destfd, other) /\
    trace (snd (ps_relay_one env fuel arg w)) =
    trace w ++ l ++ [Sys (PthreadCancel other) r] /\
    (relay_run Idle l = Finished \/ exists rest, relay_run Idle l = Failed rest) /\
    (relay_run Idle l = Finished ->
     (exists l' r', l = l' ++ [SysRead sourcefd 512 (Some []);
                               Sys (Close destfd) r']) \/
     (exists l', l = l' ++ [SysRead sourcefd 512 None; Perror "child: read"])).
Proof.
  destruct (ps_relay_one env fuel arg w) as [o w'] eqn:H.
  apply ps_relay_one_inv in H. cbn [fst snd]. intros ->.
  destruct (relay_ends w arg) as [[[s d] t]|]; [|destruct H as [H _]; discriminate H].
  destruct H as (w1 & o1 & w2 & Hw1 & Hloop & Ho & Hend).
  destruct o1 as [n| | | | |]; try discriminate Ho.
  destruct Hend as [r Hend].
  assert (Hbuf : 512 <= Z.of_nat (length buf0)) by (rewrite buf0_size; lia).
  destruct (relay_loop_run env s d fuel buf0 w1 _ _ Hbuf Hloop) as (l & Hl & Hst).
  exists s, d, t.
  exists (relay_entry arg s d t ++ l ++
          (if n <? 0 then [Perror "child: read"] else [])), r.
  split; [reflexivity|].
  split; [rewrite Hend, Hl, Hw1; unfold relay_exit; rewrite <- !app_assoc; reflexivity|].
  assert (Hrun : relay_run Idle (relay_entry arg s d t ++ l ++
                   (if n <? 0 then [Perror "child: read"] else [])) =
                 relay_run Idle l).
  { rewrite relay_run_entry, relay_run_app. destruct (n <? 0); reflexivity. }
  rewrite Hrun.
  destruct (n >? 0) eqn:En.
  - destruct Hst as (rest & _ & Hst). split; [right; eexists; exact Hst|].
    intros Hf. rewrite Hf in Hst. discriminate Hst.
  - split; [left; exact Hst|]. intros _.
    rewrite Z.gtb_ltb in En. apply Z.ltb_ge in En.
    apply relay_loop_last in Hloop; [|exact Hbuf|exact En].
    destruct Hloop as (l0 & r0 & Hl0).
    rewrite Hl in Hl0. apply app_inv_head in Hl0. subst l.
    unfold relay_last. destruct (n <? 0).
    + right. exists (relay_entry arg s d t ++ l0). list_eq.
    + left. exists (relay_entry arg s d t ++ l0), r0. list_eq.
Qed.

(** C3 at peer descriptor 5 and pty master descriptor 4.  The worker
    started with argument 0, whose identifier 2 is in
    [ps_relay_threads[0]], reads an end of stream from the peer, closes
    the descriptor taken as its destination (the peer, 5) and returns
    after [pthread_cancel(2)]: it cancels itself, not the worker started
    with argument 1, whose identifier is 3. *)
Theorem relay_odd_peer_cancels_itself :
  ps_relay_threads odd_peer_world = (2, 3) /\
  arr_get (ps_relay_threads odd_peer_world) 0 = Some 2 /\
  arr_get (ps_relay_threads odd_peer_world) 1 = Some 3 /\
  relay_ends odd_peer_world 0 = Some (5, 5, 2) /\
  fst (ps_relay_one (env_of 1 input_eof) 9 0 odd_peer_world) = Ret tt /\
  trace (snd (ps_relay_one (env_of 1 input_eof) 9 0 odd_peer_world)) =
  [Load RelayFds 0 5; Load RelayFds 0 5; Load RelayThreads 0 2;
   SysRead 5 512 (Some []); Sys (Close 5) 0; Sys (PthreadCancel 2) 0].
Proof.
  repeat split; vm_compute; reflexivity.
Qed.

(** ** The line discipline of the slave pty *)

Local Arguments String.eqb : simpl never.
Local Arguments existsb : simpl never.

Lemma modules_log (e : event) (w : world) : modules (log e w) = modules w.
Proof. reflexivity. Qed.

(** The runs of the preparation: the search fails; the line discipline
    is there; it is not, and the three pushes succeed, or the push of the
    module of rank [k] fails after [k] modules have been pushed. *)
Lemma ps_init_slavepty_ldterm_inv (env : environment) (sfd : Z) (w : world)
      (o : outcome Z) (w1 : world) :
  ps_init_slavepty_ldterm env sfd w = (o, w1) ->
  let f := ret_of env (length (trace w)) (IoctlFind sfd "ldterm") in
  if f <? 0 then
    o = Ret (-1) /\ modules w1 = modules w /\
    trace w1 = trace w ++ [Sys (IoctlFind sfd "ldterm") f;
                           Perror msg_find_ldterm]
  else if has_ldterm w then
    o = Ret 0 /\ modules w1 = modules w /\
    trace w1 = trace w ++ [Sys (IoctlFind sfd "ldterm") 1]
  else
    (o = Ret (-1) /\
     exists k r msg,
       (k < 3)%nat /\ r < 0 /\
       modules w1 = rev (firstn k ld_modules) ++ modules w /\
       trace w1 =
       trace w ++
       Sys (IoctlFind sfd "ldterm") 0 ::
       map (fun name => Sys (IoctlPush sfd name) 0) (firstn k ld_modules) ++
       [Sys (IoctlPush sfd (nth k ld_modules "")) r; Perror msg]) \/
    (o = Ret 0 /\
     modules w1 = "ttcompat" :: "ldterm" :: "ptem" :: modules w /\
     trace w1 = trace w ++ [Sys (IoctlFind sfd "ldterm") 0;
                            Sys (IoctlPush sfd "ptem") 0;
                            Sys (IoctlPush sfd "ldterm") 0;
                            Sys (IoctlPush sfd "ttcompat") 0]).
Proof.
  unfold ps_init_slavepty_ldterm, has_ldterm. intros H. cbv zeta.
  unfold bind at 1 in H. unfold ioctl_find at 1 in H. cbv zeta in H.
  destruct (ret_of env (length (trace w)) (IoctlFind sfd "ldterm") <? 0) eqn:E.
  { rewrite E in H. unfold bind, perror, ret in H. inversion H; subst.
    split; [reflexivity|]. split; [reflexivity|]. list_eq. }
  destruct (existsb (String.eqb "ldterm") (modules w)).
  { cbn in H. unfold ret in H. inversion H; subst. repeat split. }
  cbn [Z.ltb Z.eqb Z.compare] in H.
  unfold bind at 1 in H. unfold ioctl_push at 1 in H.
  destruct (ret_of env _ (IoctlPush sfd "ptem") <? 0) eqn:E1.
  { rewrite E1 in H. unfold bind, perror, ret in H. inversion H; subst.
    left. split; [reflexivity|]. exists 0%nat. eexists _, _.
    split; [lia|]. split; [apply Z.ltb_lt; exact E1|].
    split; [reflexivity|]. list_eq. }
  cbn [Z.ltb Z.compare] in H.
  unfold bind at 1 in H. unfold ioctl_push at 1 in H.
  destruct (ret_of env _ (IoctlPush sfd "ldterm") <? 0) eqn:E2.
  { rewrite E2 in H. unfold bind, perror, ret in H. inversion H; subst.
    left. split; [reflexivity|]. exists 1%nat. eexists _, _.
    split; [lia|]. split; [apply Z.ltb_lt; exact E2|].
    split; [reflexivity|]. list_eq. }
  cbn [Z.ltb Z.compare] in H.
  unfold bind at 1 in H. unfold ioctl_push at 1 in H.
  destruct (ret_of env _ (IoctlPush sfd "ttcompat") <? 0) eqn:E3.
  { rewrite E3 in H. unfold bind, perror, ret in H. inversion H; subst.
    left. split; [reflexivity|]. exists 2%nat. eexists _, _.
    split; [lia|]. split; [apply Z.ltb_lt; exact E3|].
    split; [reflexivity|]. list_eq. }
  cbn [Z.ltb Z.compare] in H. unfold ret in H. inversion H; subst.
  right. split; [reflexivity|]. split; [reflexivity|]. list_eq.
Qed.

(** Whatever the outcome of a preparation, its first call is the search
    for [ldterm], and the modules it has pushed are the first [k] modules
    of the line discipline, in their order: none when the line discipline
    was there, the three of them when it was not and the preparation
    succeeds. *)
Lemma ps_init_slavepty_ldterm_pushes (env : environment) (sfd : Z) (w : world) :
  exists k r l,
    (k <= 3)%nat /\
    trace (snd (ps_init_slavepty_ldterm env sfd w)) =
    trace w ++ Sys (IoctlFind sfd "ldterm") r :: l /\
    pushed l = firstn k ld_modules /\
    modules (snd (ps_init_slavepty_ldterm env sfd w)) =
    rev (firstn k ld_modules) ++ modules w /\
    (has_ldterm w = true -> k = 0%nat) /\
    (fst (ps_init_slavepty_ldterm env sfd w) = Ret 0 ->
     has_ldterm w = false -> k = 3%nat).
Proof.
  destruct (ps_init_slavepty_ldterm env sfd w) as [o w1] eqn:H.
  apply ps_init_slavepty_ldterm_inv in H. cbv zeta in H. cbn [fst snd].
  destruct (_ <? 0) eqn:E.
  - destruct H as (-> & Hm & Ht). exists 0%nat. eexists _, _.
    split; [lia|]. split; [exact Ht|]. split; [reflexivity|].
    split; [exact Hm|]. split; [reflexivity|discriminate].
  - destruct (has_ldterm w).
    + destruct H as (_ & Hm & Ht). exists 0%nat. eexists _, _.
      split; [lia|]. split; [exact Ht|]. split; [reflexivity|].
      split; [exact Hm|]. split; [reflexivity|discriminate].
    + destruct H as [(-> & k & r & msg & Hk & Hr & Hm & Ht)|(_ & Hm & Ht)].
      * exists k. eexists _, _.
        split; [lia|]. split; [exact Ht|].
        split; [|split; [exact Hm|split; discriminate]].
        apply Z.ltb_lt in Hr.
        destruct k as [|[|[|k]]]; [| | |lia]; simpl; rewrite Hr; reflexivity.
      * exists 3%nat. eexists _, _.
        split; [lia|]. split; [exact Ht|]. split; [reflexivity|].
        split; [exact Hm|]. split; [discriminate|reflexivity].
Qed.

(** A preparation that succeeds leaves the stream as it found it when
    the line discipline was there, and else pushes the three modules,
    [ptem] first and [ttcompat] last. *)
Lemma ps_init_slavepty_ldterm_ok (env : environment) (sfd : Z) (w : world) :
  fst (ps_init_slavepty_ldterm env sfd w) = Ret 0 ->
  if has_ldterm w then
    modules (snd (ps_init_slavepty_ldterm env sfd w)) = modules w /\
    trace (snd (ps_init_slavepty_ldterm env sfd w)) =
    trace w ++ [Sys (IoctlFind sfd "ldterm") 1]
  else
    modules (snd (ps_init_slavepty_ldterm env sfd w)) =
    "ttcompat" :: "ldterm" :: "ptem" :: modules w /\
    trace (snd (ps_init_slavepty_ldterm env sfd w)) =
    trace w ++ [Sys (IoctlFind sfd "ldterm") 0;
                Sys (IoctlPush sfd "ptem") 0;
                Sys (IoctlPush sfd "ldterm") 0;
                Sys (IoctlPush sfd "ttcompat") 0].
Proof.
  destruct (ps_init_slavepty_ldterm env sfd w) as [o w1] eqn:H.
  apply ps_init_slavepty_ldterm_inv in H. cbv zeta in H. cbn [fst snd].
  intros ->.
  destruct (_ <? 0); [destruct H as [H _]; discriminate H|].
  destruct (has_ldterm w).
  - destruct H as (_ & Hm & Ht). split; assumption.
  - destruct H as [[H _]|(_ & Hm & Ht)]; [discriminate H|]. split; assumption.
Qed.

(** When the line discipline is on the stream, a preparation pushes
    nothing. *)
Lemma ps_init_slavepty_ldterm_present (env : environment) (sfd : Z) (w : world) :
  has_ldterm w = true ->
  modules (snd (ps_init_slavepty_ldterm env sfd w)) = modules w /\
  exists l,
    trace (snd (ps_init_slavepty_ldterm env sfd w)) = trace w ++ l /\
    Forall (fun e => forall fd name r, e <> Sys (IoctlPush fd name) r) l.
Proof.
  intros Hl.
  destruct (ps_init_slavepty_ldterm env sfd w) as [o w1] eqn:H.
  apply ps_init_slavepty_ldterm_inv in H. cbv zeta in H. cbn [fst snd].
  rewrite Hl in H.
  destruct (_ <? 0); destruct H as (_ & Hm & Ht);
    (split; [exact Hm|]); eexists; (split; [exact Ht|]);
    repeat constructor; intros; discriminate.
Qed.

(** When the search and the pushes succeed, the preparation succeeds,
    with the three modules pushed where the line discipline was
    missing. *)
Lemma ps_init_slavepty_ldterm_succeeds (env : environment) (sfd : Z) (w : world) :
  0 <= ret_of env (length (trace w)) (IoctlFind sfd "ldterm") ->
  (forall n name, 0 <= ret_of env n (IoctlPush sfd name)) ->
  fst (ps_init_slavepty_ldterm env sfd w) = Ret 0 /\
  modules (snd (ps_init_slavepty_ldterm env sfd w)) =
  (if has_ldterm w then modules w
   else "ttcompat" :: "ldterm" :: "ptem" :: modules w) /\
  has_ldterm (snd (ps_init_slavepty_ldterm env sfd w)) = true.
Proof.
  intros Hf Hpush.
  assert (Hp : forall n name, (ret_of env n (IoctlPush sfd name) <? 0) = false)
    by (intros; apply Z.ltb_ge; apply Hpush).
  destruct (ps_init_slavepty_ldterm env sfd w) as [o w1] eqn:H.
  cbn [fst snd]. unfold has_ldterm.
  unfold ps_init_slavepty_ldterm in H.
  unfold bind at 1 in H. unfold ioctl_find at 1 in H. cbv zeta in H.
  rewrite (proj2 (Z.ltb_ge _ _) Hf) in H.
  destruct (existsb (String.eqb "ldterm") (modules w)) eqn:E.
  { cbn in H. unfold ret in H. inversion H; subst.
    split; [reflexivity|]. split; [reflexivity|exact E]. }
  cbn [Z.ltb Z.eqb Z.compare] in H.
  unfold bind at 1 in H. unfold ioctl_push at 1 in H. rewrite Hp in H.
  cbn [Z.ltb Z.compare] in H.
  unfold bind at 1 in H. unfold ioctl_push at 1 in H. rewrite Hp in H.
  cbn [Z.ltb Z.compare] in H.
  unfold bind at 1 in H. unfold ioctl_push at 1 in H. rewrite Hp in H.
  cbn [Z.ltb Z.compare] in H. unfold ret in H. inversion H; subst.
  split; [reflexivity|]. split; reflexivity.
Qed.

(** C6, as the code has it.  The preparation of the line discipline
    begins with the search for [ldterm]; the modules it pushes are the
    first [k] of [ptem], [ldterm], [ttcompat], in this order, none when
    [ldterm] was on the stream and the three of them when it was not and
    the preparation succeeds; when the search and the pushes succeed, the
    preparation succeeds and leaves the line discipline on the stream,
    having pushed the three modules where it was missing.  After a
    preparation that succeeded, a second preparation on any descriptor of
    the same stream pushes nothing and leaves the modules as the first
    one left them.  After a preparation that has left the stream without
    [ldterm], a second preparation that succeeds pushes the three modules
    on top of what the first one has left. *)
Theorem slavepty_preparation_idempotent (env1 env2 : environment)
        (sfd sfd' : Z) (w : world) :
  let w1 := snd (ps_init_slavepty_ldterm env1 sfd w) in
  let w2 := snd (ps_init_slavepty_ldterm env2 sfd' w1) in
  (exists k r l,
      (k <= 3)%nat /\
      trace w1 = trace w ++ Sys (IoctlFind sfd "ldterm") r :: l /\
      pushed l = firstn k ld_modules /\
      modules w1 = rev (firstn k ld_modules) ++ modules w /\
      (has_ldterm w = true -> k = 0%nat) /\
      (fst (ps_init_slavepty_ldterm env1 sfd w) = Ret 0 ->
       has_ldterm w = false -> k = 3%nat)) /\
  (0 <= ret_of env1 (length (trace w)) (IoctlFind sfd "ldterm") ->
   (forall n name, 0 <= ret_of env1 n (IoctlPush sfd name)) ->
   fst (ps_init_slavepty_ldterm env1 sfd w) = Ret 0 /\
   modules w1 =
   (if has_ldterm w then modules w
    else "ttcompat" :: "ldterm" :: "ptem" :: modules w) /\
   has_ldterm w1 = true) /\
  (fst (ps_init_slavepty_ldterm env1 sfd w) = Ret 0 ->
   modules w2 = modules w1 /\
   exists l,
     trace w2 = trace w1 ++ l /\
     Forall (fun e => forall fd name r, e <> Sys (IoctlPush fd name) r) l) /\
  (has_ldterm w1 = false ->
   fst (ps_init_slavepty_ldterm env2 sfd' w1) = Ret 0 ->
   modules w2 = "ttcompat" :: "ldterm" :: "ptem" :: modules w1).
Proof.
  cbv zeta. split; [apply ps_init_slavepty_ldterm_pushes|].
  split; [apply ps_init_slavepty_ldterm_succeeds|]. split.
  - intros H.
    pose proof (ps_init_slavepty_ldterm_ok env1 sfd w H) as Hok.
    apply ps_init_slavepty_ldterm_present.
    unfold has_ldterm in *.
    destruct (existsb (String.eqb "ldterm") (modules w)) eqn:E.
    + destruct Hok as [-> _]. exact E.
    + destruct Hok as [-> _]. reflexivity.
  - intros Hl H.
    pose proof (ps_init_slavepty_ldterm_ok env2 sfd' _ H) as Hok.
    rewrite Hl in Hok. exact (proj1 Hok).
Qed.

(** On a stream without modules, with every call succeeding: the first
    preparation pushes the three modules, the second one none. *)
Lemma slavepty_preparation_idempotent_witness :
  (fst (ps_init_slavepty_ldterm (env_of 1 input_hi) 5 (world_after_init 3)) = Ret 0 /\
   modules (snd (ps_init_slavepty_ldterm (env_of 1 input_hi) 5 (world_after_init 3))) =
   ["ttcompat"; "ldterm"; "ptem"] /\
   has_ldterm (snd (ps_init_slavepty_ldterm (env_of 1 input_hi) 5
                      (world_after_init 3))) = true) /\
  modules (snd (ps_init_slavepty_ldterm (env_of 1 input_hi) 5
                  (snd (ps_init_slavepty_ldterm (env_of 1 input_hi) 5
                          (world_after_init 3))))) =
  modules (snd (ps_init_slavepty_ldterm (env_of 1 input_hi) 5 (world_after_init 3))).
Proof.
  split.
  - apply (proj1 (proj2 (slavepty_preparation_idempotent (env_of 1 input_hi)
                           (env_of 1 input_hi) 5 5 (world_after_init 3)))).
    + vm_compute. discriminate.
    + intros n name. vm_compute. discriminate.
  - apply (proj1 (proj2 (proj2 (slavepty_preparation_idempotent (env_of 1 input_hi)
                                  (env_of 1 input_hi) 5 5 (world_after_init 3))))).
    vm_compute. reflexivity.
Defined.

(** C6, as stated, fails: the push of [ldterm] fails in the first
    preparation, which returns -1 and leaves [ptem] on the stream; a
    second preparation finds no [ldterm] and pushes the three modules, so
    that [ptem] is on the stream twice, where one preparation that
    succeeds leaves the three modules once. *)
Lemma slavepty_retry_duplicates_ptem :
  fst (ps_init_slavepty_ldterm env_push_ldterm_fails 5 (world_after_init 3)) =
  Ret (-1) /\
  modules (snd (ps_init_slavepty_ldterm env_push_ldterm_fails 5 (world_after_init 3))) =
  ["ptem"] /\
  fst (ps_init_slavepty_ldterm (env_of 1 input_hi) 5
         (snd (ps_init_slavepty_ldterm env_push_ldterm_fails 5 (world_after_init 3)))) =
  Ret 0 /\
  modules (snd (ps_init_slavepty_ldterm (env_of 1 input_hi) 5
                  (snd (ps_init_slavepty_ldterm env_push_ldterm_fails 5
                          (world_after_init 3))))) =
  ["ttcompat"; "ldterm"; "ptem"; "ptem"] /\
  modules (snd (ps_init_slavepty_ldterm (env_of 1 input_hi) 5 (world_after_init 3))) =
  ["ttcompat"; "ldterm"; "ptem"].
Proof.
  repeat split; vm_compute; reflexivity.
Qed.

(** ** One turn of the supervisor loop *)

Lemma geb_true (x : Z) : 0 <= x -> (x >=? 0) = true.
Proof. intros. rewrite Z.geb_leb. apply Z.leb_le. lia. Qed.

Lemma geb_false (x : Z) : x < 0 -> (x >=? 0) = false.
Proof. intros. rewrite Z.geb_leb. apply Z.leb_gt. lia. Qed.

(** [accept] fails: the loop is left and the function returns. *)
Lemma ps_server_run_accept_fails (env : environment) (w : world) (fuel : nat) :
  turn_peerfd env w < 0 ->
  ps_server_run env (S fuel) w =
  (Ret tt, snd (sys env (Close (ps_sockfd w)) (log (Perror "accept") (turn_accepted env w)))).
Proof.
  intros H. simpl. unfold bind at 1. unfold get_sockfd at 1.
  unfold bind at 1. unfold sys at 1. cbv zeta. fold (turn_peerfd env w).
  rewrite (geb_false _ H).
  unfold ps_server_run_end. rewrite (proj2 (Z.ltb_lt _ _) H).
  reflexivity.
Qed.

(** [fork] fails: the loop is left as well. *)
Lemma ps_server_run_fork_fails (env : environment) (w : world) (fuel : nat) :
  0 <= turn_peerfd env w -> turn_pid env w < 0 ->
  ps_server_run env (S fuel) w =
  (Ret tt, snd (sys env (Close (ps_sockfd w)) (log (Perror "fork") (turn_forked env w)))).
Proof.
  intros Hp H. simpl. unfold bind at 1. unfold get_sockfd at 1.
  unfold bind at 1. unfold sys at 1. cbv zeta. fold (turn_peerfd env w).
  rewrite (geb_true _ Hp).
  unfold bind at 1. unfold sys at 1. cbv zeta. fold (turn_accepted env w) (turn_pid env w).
  rewrite (proj2 (Z.ltb_lt _ _) H).
  unfold ps_server_run_end. rewrite (proj2 (Z.ltb_ge _ _) Hp).
  reflexivity.
Qed.

(** In the parent: the child is waited for, and the loop goes on when
    [wait] has returned the child, whatever the status. *)
Lemma ps_server_run_parent (env : environment) (w : world) (fuel : nat) :
  0 <= turn_peerfd env w -> 0 < turn_pid env w ->
  ps_server_run env (S fuel) w =
  if turn_newpid env w =? turn_pid env w then
    ps_server_run env fuel
      (log (Printf fmt_exited (turn_status env w)) (turn_waited env w))
  else (Aborted, (turn_waited env w)).
Proof.
  intros Hp H. simpl. unfold bind at 1. unfold get_sockfd at 1.
  unfold bind at 1. unfold sys at 1. cbv zeta. fold (turn_peerfd env w).
  rewrite (geb_true _ Hp).
  unfold bind at 1. unfold sys at 1. cbv zeta. fold (turn_accepted env w) (turn_pid env w).
  replace (turn_pid env w <? 0) with false by (symmetry; apply Z.ltb_ge; lia).
  replace (turn_pid env w =? 0) with false by (symmetry; apply Z.eqb_neq; lia).
  cbn [negb].
  unfold bind at 1. fold (turn_forked env w).
  change (sys env (Close (turn_peerfd env w)) (turn_forked env w))
    with (Ret (ret_of env (length (trace (turn_forked env w))) (Close (turn_peerfd env w))),
          snd (sys env (Close (turn_peerfd env w)) (turn_forked env w))).
  cbv iota beta.
  unfold bind at 1. unfold printf at 1. fold (turn_waiting env w).
  unfold bind at 1. unfold sys_wait at 1. cbv zeta.
  fold (turn_newpid env w) (turn_status env w) (turn_waited env w). cbn [fst snd].
  unfold bind at 1. unfold assert at 1.
  destruct (turn_newpid env w =? turn_pid env w); reflexivity.
Qed.

(** In the child: one session, then [exit]. *)
Lemma ps_server_run_child (env : environment) (w : world) (fuel : nat) :
  0 <= turn_peerfd env w -> turn_pid env w = 0 ->
  ps_server_run env (S fuel) w =
  (st <- ps_server_connected env (turn_peerfd env w) ;; exit st)
    (snd (sys env (Close (ps_sockfd w)) (turn_forked env w))).
Proof.
  intros Hp H. simpl. unfold bind at 1. unfold get_sockfd at 1.
  unfold bind at 1. unfold sys at 1. cbv zeta. fold (turn_peerfd env w).
  rewrite (geb_true _ Hp).
  unfold bind at 1. unfold sys at 1. cbv zeta. fold (turn_accepted env w) (turn_pid env w).
  rewrite H. cbn [Z.ltb Z.eqb Z.compare negb]. rewrite <- H. fold (turn_forked env w).
  reflexivity.
Qed.

(** ** How a session ends *)

Lemma finishes_bind {A B} (m : M A) (f : A -> M B) :
  finishes m -> (forall a, finishes (f a)) -> finishes (bind m f).
Proof.
  intros Hm Hf w. unfold bind. specialize (Hm w).
  destruct (m w) as [[a| | | | |] w1]; simpl in *; try exact Hm.
  apply Hf.
Qed.

Lemma finishes_load (a : shared) (i : Z) : i = 0 \/ i = 1 -> finishes (load a i).
Proof. intros [-> | ->] w; exact I. Qed.

Lemma finishes_store (a : shared) (i v : Z) :
  i = 0 \/ i = 1 -> finishes (store a i v).
Proof. intros [-> | ->] w; exact I. Qed.

Lemma finishes_pthread_create (env : environment) (slot arg : Z) :
  slot = 0 \/ slot = 1 -> finishes (pthread_create env slot arg).
Proof.
  intros H w. unfold pthread_create.
  destruct (_ =? 0); destruct H as [-> | ->]; exact I.
Qed.

Lemma finishes_execl (env : environment) (path : string) : finishes (execl env path).
Proof. intros w. unfold execl. destruct (_ =? 0); exact I. Qed.

Lemma finishes_ioctl_push (env : environment) (fd : Z) (name : string) :
  finishes (ioctl_push env fd name).
Proof. intros w. unfold ioctl_push. destruct (_ <? 0); exact I. Qed.

Ltac finishes_step :=
  match goal with
  | |- finishes (bind _ _) => apply finishes_bind; [|intros ?]
  | |- finishes (if ?b then _ else _) => destruct b
  | |- finishes (load _ _) => apply finishes_load; auto
  | |- finishes (store _ _ _) => apply finishes_store; auto
  | |- finishes (pthread_create _ _ _) => apply finishes_pthread_create; auto
  | |- finishes (execl _ _) => apply finishes_execl
  | |- finishes (ioctl_push _ _ _) => apply finishes_ioctl_push
  | |- finishes _ => intros ?; exact I
  end.

Lemma finishes_ps_relay (env : environment) (peerfd mfd : Z) :
  finishes (ps_relay env peerfd mfd).
Proof. unfold ps_relay. repeat finishes_step. Qed.

Lemma finishes_ps_init_slavepty (env : environment) (mfd : Z) :
  finishes (ps_init_slavepty env mfd).
Proof. unfold ps_init_slavepty, ps_init_slavepty_ldterm. repeat finishes_step. Qed.

Lemma finishes_ps_server_connected (env : environment) (peerfd : Z) :
  finishes (ps_server_connected env peerfd).
Proof.
  unfold ps_server_connected.
  repeat first [apply finishes_ps_relay | apply finishes_ps_init_slavepty
               | finishes_step].
Qed.

Lemma keeps_ps_server_connected (env : environment) (peerfd : Z) :
  keeps not_accept (ps_server_connected env peerfd).
Proof.
  unfold ps_server_connected, ps_relay, ps_init_slavepty, ps_init_slavepty_ldterm.
  repeat keeps_step.
Qed.

(** ** A pty allocation that fails *)

Lemma ps_server_connected_alloc_fails (env : environment) (w : world) (peerfd : Z) :
  alloc_fails env w ->
  ps_server_connected env peerfd w = (Ret (-1), alloc_failed env w).
Proof.
  intros H. unfold ps_server_connected, alloc_failed.
  unfold bind at 1. unfold sys at 1. cbv zeta. fold (alloc_mfd env w) (alloc_opened env w).
  destruct (alloc_mfd env w <? 0) eqn:E1; [reflexivity|].
  unfold bind at 1. unfold sys at 1. cbv zeta. fold (alloc_grant env w) (alloc_granted env w).
  destruct (alloc_grant env w =? 0) eqn:E2; [|reflexivity]. cbn [negb].
  unfold bind at 1. unfold sys at 1. cbv zeta. fold (alloc_unlock env w) (alloc_unlocked env w).
  destruct (alloc_unlock env w =? 0) eqn:E3; [|reflexivity].
  exfalso. apply Z.ltb_ge in E1. apply Z.eqb_eq in E2. apply Z.eqb_eq in E3.
  unfold alloc_fails in H. destruct H as [H|[H|H]]; lia.
Qed.


(** C7, as the code has it.  When a step of the allocation fails,
    [ps_server_connected] prints the diagnostic of that step and returns
    -1 after the calls of the allocation alone: it forks no shell, starts
    no relay, changes no global and closes no descriptor, so that a
    master that was opened is open when the call returns; in the process
    forked by the supervisor the value returned goes to [exit]. *)
Theorem allocation_failure_returns (env : environment) (peerfd : Z) (w : world) :
  alloc_fails env w ->
  ps_server_connected env peerfd w = (Ret (-1), alloc_failed env w) /\
  trace (alloc_failed env w) =
  trace w ++
  (if alloc_mfd env w <? 0 then
     [Sys PosixOpenpt (alloc_mfd env w); Perror "child: posix_openpt"]
   else if negb (alloc_grant env w =? 0) then
     [Sys PosixOpenpt (alloc_mfd env w);
      Sys (Grantpt (alloc_mfd env w)) (alloc_grant env w);
      Perror "child: grantpt"]
   else
     [Sys PosixOpenpt (alloc_mfd env w);
      Sys (Grantpt (alloc_mfd env w)) (alloc_grant env w);
      Sys (Unlockpt (alloc_mfd env w)) (alloc_unlock env w);
      Perror "child: unlockpt"]) /\
  (forall fd, closes fd (trace (alloc_failed env w)) = closes fd (trace w)) /\
  ps_relay_fds (alloc_failed env w) = ps_relay_fds w /\
  ps_relay_threads (alloc_failed env w) = ps_relay_threads w /\
  modules (alloc_failed env w) = modules w /\
  fst ((st <- ps_server_connected env peerfd ;; exit st) w) = @Exited unit (-1).
Proof.
  intros H.
  pose proof (ps_server_connected_alloc_fails env w peerfd H) as Hc.
  split; [exact Hc|].
  assert (Ht : trace (alloc_failed env w) =
    trace w ++
    (if alloc_mfd env w <? 0 then
       [Sys PosixOpenpt (alloc_mfd env w); Perror "child: posix_openpt"]
     else if negb (alloc_grant env w =? 0) then
       [Sys PosixOpenpt (alloc_mfd env w);
        Sys (Grantpt (alloc_mfd env w)) (alloc_grant env w);
        Perror "child: grantpt"]
     else
       [Sys PosixOpenpt (alloc_mfd env w);
        Sys (Grantpt (alloc_mfd env w)) (alloc_grant env w);
        Sys (Unlockpt (alloc_mfd env w)) (alloc_unlock env w);
        Perror "child: unlockpt"])).
  { unfold alloc_failed.
    destruct (alloc_mfd env w <? 0); [|destruct (negb (alloc_grant env w =? 0))];
      unfold alloc_unlocked, alloc_granted, alloc_opened;
      rewrite !trace_log; list_eq. }
  split; [exact Ht|].
  split.
  { intros fd. rewrite Ht. unfold closes. rewrite existsb_app.
    destruct (alloc_mfd env w <? 0); [|destruct (negb (alloc_grant env w =? 0))];
      simpl; apply orb_false_r. }
  split; [|split; [|split]].
  - unfold alloc_failed.
    destruct (alloc_mfd env w <? 0); [|destruct (negb (alloc_grant env w =? 0))];
      reflexivity.
  - unfold alloc_failed.
    destruct (alloc_mfd env w <? 0); [|destruct (negb (alloc_grant env w =? 0))];
      reflexivity.
  - unfold alloc_failed.
    destruct (alloc_mfd env w <? 0); [|destruct (negb (alloc_grant env w =? 0))];
      reflexivity.
  - unfold bind. rewrite Hc. reflexivity.
Qed.

Lemma allocation_failure_returns_witness :
  ps_server_connected env_grantpt_fails 4 (world_after_init 3) =
  (Ret (-1), alloc_failed env_grantpt_fails (world_after_init 3)).
Proof.
  apply (allocation_failure_returns env_grantpt_fails 4 (world_after_init 3)).
  right. left. vm_compute. discriminate.
Defined.

(** C7, as stated, fails: [posix_openpt] has opened descriptor 3,
    [grantpt] fails, and [ps_server_connected] returns -1 without a
    [close] of descriptor 3. *)
Lemma allocation_failure_leaves_master_open :
  fst (ps_server_connected env_grantpt_fails 4 (world_after_init 3)) = Ret (-1) /\
  trace (snd (ps_server_connected env_grantpt_fails 4 (world_after_init 3))) =
  [Sys PosixOpenpt 3; Sys (Grantpt 3) (-1); Perror "child: grantpt"] /\
  closes 3 (trace (snd (ps_server_connected env_grantpt_fails 4
                          (world_after_init 3)))) = false.
Proof.
  repeat split; vm_compute; reflexivity.
Qed.

(** ** What ends the server *)

(** While every [accept] and every [fork] of the supervisor succeed and
    every [wait] returns the child, the server runs on, whatever the
    statuses of the children. *)
Lemma ps_server_run_serves_on (env : environment) :
  (forall w, 0 <= turn_peerfd env w /\ 0 < turn_pid env w /\
             turn_newpid env w = turn_pid env w) ->
  forall fuel w, fst (ps_server_run env fuel w) = OutOfFuel.
Proof.
  intros H. induction fuel as [|fuel IH]; intros w; [reflexivity|].
  destruct (H w) as (Hp & Hpid & Hw).
  rewrite ps_server_run_parent by assumption.
  rewrite Hw, Z.eqb_refl. apply IH.
Qed.

(** ** One session at a time *)

Lemma session_run_app (s : session_state) (h1 h2 : list event) :
  session_run s (h1 ++ h2) = session_run (session_run s h1) h2.
Proof. apply fold_left_app. Qed.

Lemma session_run_not_accept (h : list event) :
  Forall not_accept h ->
  forall s, s <> Violated -> session_run s h <> Violated.
Proof.
  induction 1 as [|e h He _ IH]; intros s Hs; [exact Hs|].
  change (session_run s (e :: h)) with (session_run (session_step s e) h).
  apply IH.
  destruct e as [c r| | | | |]; try (destruct s; simpl; congruence).
  destruct c; try (destruct s; simpl; congruence).
  - destruct He.
  - destruct s; simpl; try congruence; destruct (r >? 0); congruence.
  - destruct s as [| |pid|]; simpl; try congruence.
    destruct (r =? pid); congruence.
Qed.

(** A turn of the loop that starts in [Ready] ends in [Ready] when the
    loop goes on, and no state of the run is [Violated]. *)
Lemma ps_server_run_serial (env : environment) :
  forall fuel w,
    session_run Ready (trace w) = Ready ->
    session_run Ready (trace (snd (ps_server_run env fuel w))) <> Violated.
Proof.
  induction fuel as [|fuel IH]; intros w Hw.
  - simpl. rewrite Hw. discriminate.
  - destruct (Z.lt_ge_cases (turn_peerfd env w) 0) as [Hp|Hp].
    { rewrite ps_server_run_accept_fails by assumption.
      unfold sys, turn_accepted. cbn [snd].
      rewrite !trace_log, !session_run_app, Hw. simpl.
      rewrite (proj2 (Z.ltb_lt _ _)) by lia. discriminate. }
    assert (Ha : session_run Ready (trace (turn_accepted env w)) = Accepted).
    { unfold turn_accepted. rewrite trace_log, session_run_app, Hw. simpl.
      rewrite (proj2 (Z.ltb_ge _ _)) by lia. reflexivity. }
    destruct (Z.lt_trichotomy (turn_pid env w) 0) as [Hpid|[Hpid|Hpid]].
    + rewrite ps_server_run_fork_fails by assumption.
      unfold sys, turn_forked. cbn [snd].
      rewrite !trace_log, !session_run_app, Ha.
      simpl. rewrite Z.gtb_ltb, (proj2 (Z.ltb_ge _ _)) by lia. discriminate.
    + rewrite ps_server_run_child by assumption.
      assert (Hc : session_run Ready
                     (trace (snd (sys env (Close (ps_sockfd w)) (turn_forked env w)))) =
                   Accepted).
      { unfold sys, turn_forked. cbn [snd].
        rewrite !trace_log, !session_run_app, Ha.
        rewrite Hpid. reflexivity. }
      set (w3 := snd (sys env (Close (ps_sockfd w)) (turn_forked env w))) in *.
      assert (Hk : keeps not_accept
                         (st <- ps_server_connected env (turn_peerfd env w) ;;
                          @exit unit st)).
      { keeps_step; [apply keeps_ps_server_connected|keeps_step]. }
      destruct (Hk w3) as (l & Hl & HF & _).
      rewrite Hl, session_run_app, Hc.
      apply session_run_not_accept; [exact HF|discriminate].
    + rewrite ps_server_run_parent by assumption.
      assert (Hwait : session_run Ready (trace (turn_waited env w)) =
                      if turn_newpid env w =? turn_pid env w then Ready
                      else Running (turn_pid env w)).
      { unfold turn_waited, turn_waiting, sys, turn_forked. cbn [snd].
        rewrite !trace_log, !session_run_app, Ha. simpl.
        rewrite (proj2 (Z.gtb_lt _ _)) by lia. reflexivity. }
      destruct (turn_newpid env w =? turn_pid env w).
      * apply IH. rewrite trace_log, session_run_app, Hwait. reflexivity.
      * cbn [snd]. rewrite Hwait. discriminate.
Qed.

(** C5.  In every run of the supervisor, however long and whatever the
    operating system answers, every [accept] after the first is made
    after a [wait] that has returned the child forked for the connection
    accepted before it: no [accept] is made while a connection has been
    accepted and its child has not been forked and waited for. *)
Theorem sessions_are_serialized (env : environment) (fuel : nat) (sockfd : Z) :
  serialized (trace (snd (ps_server_run env fuel (world_after_init sockfd)))) = true.
Proof.
  unfold serialized.
  pose proof (ps_server_run_serial env fuel (world_after_init sockfd) eq_refl) as H.
  destruct (session_run Ready _); congruence.
Qed.

(** The check is not void: a second [accept] before the [wait], or
    before any [fork], is refused; two sessions served in turn are
    accepted. *)
Example serialized_refuses :
  serialized [Sys (Accept 3) 4; Sys Fork 100; Sys (Accept 3) 4] = false /\
  serialized [Sys (Accept 3) 4; Sys (Accept 3) 4] = false /\
  serialized [Sys (Accept 3) 4; Sys Fork 100; Sys Wait 99; Sys (Accept 3) 4] = false /\
  trace (snd (ps_server_run env_sessions 2 (world_after_init 3))) =
  [Sys (Accept 3) 4; Sys Fork 100; Sys (Close 4) 0;
   Printf fmt_forked 100;
   Sys Wait 100; Printf fmt_exited 7;
   Sys (Accept 3) 4; Sys Fork 100; Sys (Close 4) 0;
   Printf fmt_forked 100;
   Sys Wait 100; Printf fmt_exited 7].
Proof.
  repeat split; vm_compute; reflexivity.
Qed.

(** * Further properties *)

(** ** The set-up of the server *)

Lemma boot_closed_app (h1 h2 : list boot_event) :
  boot_closed (h1 ++ h2) = boot_closed h1 ++ boot_closed h2.
Proof.
  induction h1 as [|e h1 IH]; [reflexivity|].
  destruct e as [c r|msg|e]; simpl; try exact IH.
  destruct e as [c r| | | | |]; simpl; try exact IH.
  destruct c; simpl; rewrite ?IH; reflexivity.
Qed.

Lemma boot_ports_app (h1 h2 : list boot_event) :
  boot_ports (h1 ++ h2) = boot_ports h1 ++ boot_ports h2.
Proof.
  induction h1 as [|e h1 IH]; [reflexivity|].
  destruct e as [c r|msg|e]; simpl; try exact IH.
  destruct c; simpl; rewrite ?IH; reflexivity.
Qed.

(** The four ways through [ps_server_init]. *)
Lemma ps_server_init_eq (benv : boot_environment) (env : environment)
      (port : Z) (b : boot) :
  ps_server_init benv env port b =
  if init_socket benv b <? 0 then
    (-1, boot_perror "socket" (init_created benv b))
  else if negb (init_bind benv b =? 0) then
    (-1, boot_perror "bind"
           (boot_close env (init_socket benv b) (init_bound benv b)))
  else if negb (init_listen benv b =? 0) then
    (-1, boot_perror "listen"
           (boot_close env (init_socket benv b) (init_listening benv b)))
  else (0, init_listening benv b).
Proof.
  unfold ps_server_init, boot_sys, init_listening, init_listen, init_bound,
    init_bind, init_options, init_reuse, init_created, init_socket,
    boot_perror, boot_close, blog.
  cbn [b_trace b_sockfd].
  destruct (benv (length (b_trace b)) Socket <? 0); [reflexivity|].
  destruct (negb (benv _ (Setsockopt _) =? 0)); cbn [b_trace b_sockfd];
    (destruct (negb (benv _ (Bind _ _) =? 0)); [reflexivity|]);
    destruct (negb (benv _ (Listen _ _) =? 0)); reflexivity.
Qed.

Lemma b_trace_init_options (benv : boot_environment) (b : boot) :
  exists l,
    b_trace (init_options benv b) =
    b_trace b ++ Boot Socket (init_socket benv b) ::
                 Boot (Setsockopt (init_socket benv b)) (init_reuse benv b) :: l /\
    (l = [] \/ l = [Run (Perror "warning: setsockopt(SO_REUSEADDR)")]) /\
    (init_reuse benv b = 0 -> l = []) /\
    (init_reuse benv b <> 0 ->
     l = [Run (Perror "warning: setsockopt(SO_REUSEADDR)")]).
Proof.
  unfold init_options.
  destruct (init_reuse benv b =? 0) eqn:E; cbn [negb].
  - exists []. split; [unfold blog, init_created; cbn; list_eq|].
    split; [left; reflexivity|]. split; [reflexivity|].
    apply Z.eqb_eq in E. congruence.
  - eexists [_]. split; [unfold boot_perror, blog, init_created; cbn; list_eq|].
    split; [right; reflexivity|]. split; [|reflexivity].
    apply Z.eqb_neq in E. congruence.
Qed.

(** X1.  [ps_server_init] returns 0 when [socket], [bind] and [listen]
    have succeeded and -1 when one of them has failed, whatever its
    argument and whatever [setsockopt] returns: a [setsockopt] that fails
    adds a warning, and [bind] is called all the same. *)
Theorem server_init_result (benv : boot_environment) (env : environment)
        (port : Z) (b : boot) :
  fst (ps_server_init benv env port b) = (if init_ok benv b then 0 else -1) /\
  (0 <= init_socket benv b -> init_reuse benv b <> 0 ->
   exists h1 h2,
     b_trace (snd (ps_server_init benv env port b)) =
     h1 ++ Boot (Setsockopt (init_socket benv b)) (init_reuse benv b) ::
           Run (Perror "warning: setsockopt(SO_REUSEADDR)") ::
           Boot (Bind (init_socket benv b) ps_port_net) (init_bind benv b) :: h2).
Proof.
  rewrite ps_server_init_eq. unfold init_ok. split.
  - destruct (init_socket benv b <? 0) eqn:Es.
    + apply Z.ltb_lt in Es.
      replace (0 <=? init_socket benv b) with false
        by (symmetry; apply Z.leb_gt; lia).
      reflexivity.
    + apply Z.ltb_ge in Es. rewrite (proj2 (Z.leb_le _ _) Es).
      destruct (init_bind benv b =? 0); [|reflexivity].
      destruct (init_listen benv b =? 0); reflexivity.
  - intros Hs Hr.
    rewrite (proj2 (Z.ltb_ge _ _) Hs).
    destruct (b_trace_init_options benv b) as (l & Hl & _ & _ & Hw).
    specialize (Hw Hr). subst l.
    exists (b_trace b ++ [Boot Socket (init_socket benv b)]).
    destruct (negb (init_bind benv b =? 0));
      [|destruct (negb (init_listen benv b =? 0))];
      eexists; cbn [snd]; unfold boot_perror, boot_close, init_listening,
        init_bound, blog; cbn [b_trace b_sockfd]; rewrite Hl; list_eq.
Qed.

Lemma server_init_result_witness :
  exists h1 h2,
    b_trace (snd (ps_server_init (fun _ c => match c with
                                              | Socket => 3
                                              | Setsockopt _ => -1
                                              | _ => 0
                                              end)
                                 env_sessions 0 boot0)) =
    h1 ++ Boot (Setsockopt 3) (-1) ::
          Run (Perror "warning: setsockopt(SO_REUSEADDR)") ::
          Boot (Bind 3 ps_port_net) 0 :: h2.
Proof.
  apply (proj2 (server_init_result
                  (fun _ c => match c with
                              | Socket => 3
                              | Setsockopt _ => -1
                              | _ => 0
                              end) env_sessions 0 boot0)).
  - vm_compute. discriminate.
  - vm_compute. discriminate.
Defined.

(** X2.  [ps_server_init] leaves the result of [socket] in [ps_sockfd]
    on every path.  It closes the socket, once, when [bind] or [listen]
    has failed, and closes nothing when it succeeds or when [socket] has
    failed.  The port bound is [ps_port_net], whatever the argument. *)
Theorem server_init_cleanup (benv : boot_environment) (env : environment)
        (port : Z) (b : boot) :
  b_sockfd (snd (ps_server_init benv env port b)) = init_socket benv b /\
  boot_closed (b_trace (snd (ps_server_init benv env port b))) =
  boot_closed (b_trace b) ++
  (if (0 <=? init_socket benv b) && negb (init_ok benv b)
   then [init_socket benv b] else []) /\
  boot_ports (b_trace (snd (ps_server_init benv env port b))) =
  boot_ports (b_trace b) ++
  (if 0 <=? init_socket benv b then [ps_port_net] else []).
Proof.
  rewrite ps_server_init_eq. unfold init_ok.
  destruct (init_socket benv b <? 0) eqn:Es.
  - apply Z.ltb_lt in Es.
    replace (0 <=? init_socket benv b) with false
      by (symmetry; apply Z.leb_gt; lia).
    cbn [snd andb]. unfold boot_perror, blog, init_created. cbn [b_sockfd b_trace].
    rewrite !boot_closed_app, !boot_ports_app. simpl. rewrite !app_nil_r.
    repeat split.
  - apply Z.ltb_ge in Es. rewrite (proj2 (Z.leb_le _ _) Es). cbn [andb].
    destruct (b_trace_init_options benv b) as (l & Hl & Hcases & _).
    assert (Hc : boot_closed l = [] /\ boot_ports l = [])
      by (destruct Hcases as [-> | ->]; split; reflexivity).
    destruct Hc as [Hc Hp].
    assert (Hso : b_sockfd (init_options benv b) = init_socket benv b).
    { unfold init_options. destruct (negb (init_reuse benv b =? 0)); reflexivity. }
    destruct (init_bind benv b =? 0); cbn [negb];
      [destruct (init_listen benv b =? 0); cbn [negb]|];
      cbn [snd]; unfold boot_perror, boot_close, init_listening, init_bound, blog;
      cbn [b_sockfd b_trace]; rewrite Hl;
      rewrite !boot_closed_app, !boot_ports_app; simpl;
      rewrite ?boot_closed_app, ?boot_ports_app, ?Hc, ?Hp; simpl;
      rewrite ?app_nil_r; (split; [exact Hso|split; reflexivity]).
Qed.

(** ** How the supervisor leaves its loop *)

Lemma session_never_returns (env : environment) (peerfd : Z) (w : world) :
  fst ((st <- ps_server_connected env peerfd ;; @exit unit st) w) <> Ret tt.
Proof.
  unfold bind. destruct (ps_server_connected env peerfd w) as [[st| | | | |] w1];
    discriminate.
Qed.

Lemma turn_waited_trace (env : environment) (w : world) :
  trace (turn_waited env w) = trace w ++ turn_events env w.
Proof.
  unfold turn_waited, turn_waiting, sys, turn_events. cbn [snd].
  set (r := ret_of env (length (trace (turn_forked env w))) (Close (turn_peerfd env w))).
  unfold turn_forked, turn_accepted.
  rewrite !trace_log. rewrite <- !app_assoc. reflexivity.
Qed.

Lemma ps_server_run_returns (env : environment) :
  forall fuel w,
    fst (ps_server_run env fuel w) = Ret tt ->
    exists l t,
      trace (snd (ps_server_run env fuel w)) = trace w ++ l ++ t /\
      Forall served l /\ loop_exit (ps_sockfd w) t.
Proof.
  induction fuel as [|fuel IH]; intros w H; [discriminate H|].
  destruct (Z.lt_ge_cases (turn_peerfd env w) 0) as [Hp|Hp].
  { rewrite ps_server_run_accept_fails by assumption.
    exists []. eexists. split; [|split; [constructor|left]].
    - unfold sys, turn_accepted. cbn [snd]. rewrite !trace_log. list_eq.
    - eexists _, _. split; [exact Hp|reflexivity]. }
  destruct (Z.lt_trichotomy (turn_pid env w) 0) as [Hpid|[Hpid|Hpid]].
  - rewrite ps_server_run_fork_fails by assumption.
    exists []. eexists. split; [|split; [constructor|right]].
    + unfold sys, turn_forked, turn_accepted. cbn [snd]. rewrite !trace_log. list_eq.
    + eexists _, _, _. split; [exact Hp|]. split; [exact Hpid|reflexivity].
  - rewrite ps_server_run_child in H by assumption.
    exfalso. exact (session_never_returns _ _ _ H).
  - rewrite ps_server_run_parent in * by assumption.
    destruct (turn_newpid env w =? turn_pid env w); [|discriminate H].
    apply IH in H. destruct H as (l & t & Hl & HF & Ht).
    exists (turn_events env w ++
            Printf fmt_exited (turn_status env w) :: l), t.
    split; [|split; [|exact Ht]].
    + rewrite Hl, trace_log, turn_waited_trace. rewrite <- !app_assoc. reflexivity.
    + apply Forall_app. split; [|constructor; [exact I|exact HF]].
      unfold turn_events.
      constructor; [exact Hp|]. constructor; [exact Hpid|].
      repeat (constructor; [exact I|]). constructor.
Qed.

(** X3.  When the supervisor returns, it has served every connection it
    had accepted before the last one: every [accept] and every [fork]
    before the last turn has succeeded, and the last turn is an [accept]
    that fails, or an [accept] followed by a [fork] that fails; the
    diagnostic and the [close] of the listening socket are its last
    calls. *)
Theorem supervisor_return (env : environment) (fuel : nat) (w : world) :
  fst (ps_server_run env fuel w) = Ret tt ->
  exists l t,
    trace (snd (ps_server_run env fuel w)) = trace w ++ l ++ t /\
    Forall served l /\ loop_exit (ps_sockfd w) t.
Proof. apply ps_server_run_returns. Qed.

Lemma supervisor_return_witness :
  exists l t,
    trace (snd (ps_server_run env_accept_fails 1 (world_after_init 3))) =
    trace (world_after_init 3) ++ l ++ t /\
    Forall served l /\ loop_exit (ps_sockfd (world_after_init 3)) t.
Proof.
  apply (supervisor_return env_accept_fails 1 (world_after_init 3)).
  vm_compute. reflexivity.
Defined.

(** X4.  When [wait] returns anything but the child just forked, the
    assertion of the supervisor fails: the server aborts in that turn,
    after the [wait], without closing the listening socket and without
    another [accept]. *)
Theorem supervisor_aborts_on_other_wait (env : environment) (fuel : nat) (w : world) :
  0 <= turn_peerfd env w -> 0 < turn_pid env w ->
  turn_newpid env w <> turn_pid env w ->
  fst (ps_server_run env (S fuel) w) = Aborted /\
  trace (snd (ps_server_run env (S fuel) w)) =
  trace w ++
  [Sys (Accept (ps_sockfd w)) (turn_peerfd env w); Sys Fork (turn_pid env w);
   Sys (Close (turn_peerfd env w))
       (ret_of env (length (trace (turn_forked env w))) (Close (turn_peerfd env w)));
   Printf fmt_forked (turn_pid env w);
   Sys Wait (turn_newpid env w)].
Proof.
  intros Hp Hpid Hw. rewrite ps_server_run_parent by assumption.
  rewrite (proj2 (Z.eqb_neq _ _) Hw). split; [reflexivity|].
  cbn [snd]. unfold turn_waited, turn_waiting, sys, turn_forked, turn_accepted.
  cbn [snd]. rewrite !trace_log. list_eq.
Qed.

(** [wait] is interrupted and returns -1. *)
Lemma supervisor_aborts_on_other_wait_witness :
  fst (ps_server_run
         (mkEnv (fun _ c => match c with
                            | Accept _ => 4
                            | Fork => 100
                            | Wait => -1
                            | _ => 0
                            end) input_eof (fun _ => 0))
         3 (world_after_init 3)) = Aborted.
Proof.
  apply (supervisor_aborts_on_other_wait
           (mkEnv (fun _ c => match c with
                              | Accept _ => 4
                              | Fork => 100
                              | Wait => -1
                              | _ => 0
                              end) input_eof (fun _ => 0))
           2 (world_after_init 3)).
  - vm_compute. discriminate.
  - vm_compute. reflexivity.
  - vm_compute. discriminate.
Defined.

(** ** The exit status of the program *)

Lemma snoc2 {A : Type} (l : list A) (a b : A) : (l ++ [a]) ++ [b] = l ++ [a; b].
Proof. rewrite <- app_assoc. reflexivity. Qed.

Lemma boot_accepts_init_options (benv : boot_environment) :
  boot_accepts (b_trace (init_options benv boot0)) = false.
Proof.
  destruct (b_trace_init_options benv boot0) as (l & Hl & [-> | ->] & _);
    rewrite Hl; reflexivity.
Qed.

(** X5.  [main] returns 1 exactly when the set-up fails, after the
    diagnostic of the set-up and its own message and without any
    [accept].  When the set-up succeeds, a [main] that returns returns 0,
    whether the supervisor has left its loop on an [accept] or on a
    [fork] that failed, and its last call is the [close] of the socket
    that [socket] returned. *)
Theorem main_exit_status (benv : boot_environment) (env : environment) (fuel : nat) :
  (init_ok benv boot0 = false ->
   fst (main benv env fuel) = Ret 1 /\
   boot_accepts (snd (main benv env fuel)) = false /\
   exists h msg,
     snd (main benv env fuel) =
     h ++ [Run (Perror msg); Fprintf "failed to setup server"]) /\
  (init_ok benv boot0 = true ->
   fst (main benv env fuel) <> Ret 1 /\
   forall v,
     fst (main benv env fuel) = Ret v ->
     v = 0 /\
     exists h t,
       snd (main benv env fuel) = h ++ map Run t /\
       loop_exit (init_socket benv boot0) t).
Proof.
  unfold main, init_ok. rewrite ps_server_init_eq. split.
  - intros H.
    pose proof (boot_accepts_init_options benv) as Ha.
    unfold boot_accepts in *.
    destruct (init_socket benv boot0 <? 0) eqn:Es.
    { cbn. split; [reflexivity|]. split; [reflexivity|].
      eexists [_], _. reflexivity. }
    apply Z.ltb_ge in Es. rewrite (proj2 (Z.leb_le _ _) Es) in H. cbn [andb] in H.
    destruct (init_bind benv boot0 =? 0); cbn [negb andb] in *.
    + rewrite H. cbn [negb Z.eqb]. split; [reflexivity|].
      unfold boot_perror, boot_close, init_listening, init_bound, blog.
      cbn [snd b_trace b_sockfd]. split.
      * rewrite !existsb_app, Ha. reflexivity.
      * eexists _, _. apply snoc2.
    + cbn [Z.eqb negb]. split; [reflexivity|].
      unfold boot_perror, boot_close, init_bound, blog.
      cbn [snd b_trace b_sockfd]. split.
      * rewrite !existsb_app, Ha. reflexivity.
      * eexists _, _. apply snoc2.
  - intros H.
    apply andb_prop in H. destruct H as [H Hl]. apply andb_prop in H.
    destruct H as [Hs Hb]. apply Z.leb_le in Hs.
    rewrite (proj2 (Z.ltb_ge _ _) Hs), Hb, Hl. cbn [negb Z.eqb].
    assert (Hfd : b_sockfd (init_listening benv boot0) = init_socket benv boot0).
    { unfold init_listening, init_bound, init_options, blog, boot_perror, blog.
      destruct (negb (init_reuse benv boot0 =? 0)); reflexivity. }
    rewrite Hfd.
    destruct (ps_server_run env fuel (world_after_init (init_socket benv boot0)))
      as [o w] eqn:Hrun.
    cbn [fst snd]. split.
    + destruct o; discriminate.
    + intros v Hv. destruct o as [[]| | | | |]; try discriminate Hv.
      inversion Hv; subst v. split; [reflexivity|].
      pose proof (ps_server_run_returns env fuel
                    (world_after_init (init_socket benv boot0))) as Hr.
      rewrite Hrun in Hr. destruct (Hr eq_refl) as (l & t & Ht & _ & Hexit).
      cbn [snd] in Ht. simpl in Ht. simpl in Hexit.
      exists (b_trace (init_listening benv boot0) ++ map Run l), t.
      split; [rewrite Ht, map_app, app_assoc; reflexivity|exact Hexit].
Qed.

Lemma main_exit_status_witness :
  fst (main benv_bind_fails env_sessions 3) = Ret 1 /\
  fst (main benv_ok env_accept_fails 3) <> Ret 1.
Proof.
  split.
  - apply (proj1 (main_exit_status benv_bind_fails env_sessions 3)).
    vm_compute. reflexivity.
  - apply (proj2 (main_exit_status benv_ok env_accept_fails 3)).
    vm_compute. reflexivity.
Defined.

(** ** The accepted connections in the supervisor *)

Lemma open_peers_app (l1 l2 : list event) :
  forall acc, open_peers acc (l1 ++ l2) = open_peers (open_peers acc l1) l2.
Proof.
  induction l1 as [|e l1 IH]; intros acc; [reflexivity|].
  destruct e as [c r| | | | |]; simpl; try apply IH.
  destruct c; simpl; apply IH.
Qed.

Lemma filter_self (p : Z) : filter (fun x => negb (x =? p)) [p] = [].
Proof. simpl. rewrite Z.eqb_refl. reflexivity. Qed.

Lemma waits_clean_app (l1 l2 : list event) :
  forall acc,
    waits_clean acc (l1 ++ l2) =
    waits_clean acc l1 && waits_clean (open_peers acc l1) l2.
Proof.
  induction l1 as [|e l1 IH]; intros acc; [reflexivity|].
  destruct e as [c r| | | | |]; simpl; try apply IH.
  destruct c; simpl; try apply IH.
  destruct acc; [apply IH|reflexivity].
Qed.

(** X6.  In the supervisor process, where no [fork] returns 0, every
    accepted connection is closed before the child is waited for: every
    [wait] of the run is made with no accepted descriptor open; and at
    every point where the run stops, no accepted descriptor is left
    open, except after a [fork] that has failed, when the connection
    just accepted is not closed before the function returns. *)
Theorem supervisor_closes_peers (env : environment) :
  (forall n, ret_of env n Fork <> 0) ->
  forall fuel w,
  exists l,
    trace (snd (ps_server_run env fuel w)) = trace w ++ l /\
    waits_clean [] l = true /\
    (open_peers [] l = [] \/
     exists h p q r,
       0 <= p /\ q < 0 /\ fst (ps_server_run env fuel w) = Ret tt /\
       l = h ++ [Sys (Accept (ps_sockfd w)) p; Sys Fork q; Perror "fork";
                 Sys (Close (ps_sockfd w)) r] /\
       open_peers [] l = filter (fun x => negb (x =? ps_sockfd w)) [p]).
Proof.
  intros Hfork. induction fuel as [|fuel IH]; intros w.
  - exists []. rewrite app_nil_r. split; [reflexivity|].
    split; [reflexivity|left; reflexivity].
  - destruct (Z.lt_ge_cases (turn_peerfd env w) 0) as [Hp|Hp].
    { rewrite ps_server_run_accept_fails by assumption.
      exists [Sys (Accept (ps_sockfd w)) (turn_peerfd env w); Perror "accept";
              Sys (Close (ps_sockfd w))
                  (ret_of env (length (trace (log (Perror "accept")
                                                  (turn_accepted env w))))
                          (Close (ps_sockfd w)))].
      split.
      - unfold sys. cbn [snd]. rewrite !trace_log.
        set (r := ret_of env _ (Close (ps_sockfd w))).
        unfold turn_accepted. rewrite trace_log, <- !app_assoc. reflexivity.
      - cbn [waits_clean open_peers]. rewrite (proj2 (Z.ltb_lt _ _) Hp).
        split; [reflexivity|left; reflexivity]. }
    destruct (Z.lt_trichotomy (turn_pid env w) 0) as [Hpid|[Hpid|Hpid]].
    + rewrite ps_server_run_fork_fails by assumption.
      exists [Sys (Accept (ps_sockfd w)) (turn_peerfd env w);
              Sys Fork (turn_pid env w); Perror "fork";
              Sys (Close (ps_sockfd w))
                  (ret_of env (length (trace (log (Perror "fork")
                                                  (turn_forked env w))))
                          (Close (ps_sockfd w)))].
      split.
      * unfold sys. cbn [snd]. rewrite !trace_log.
        set (r := ret_of env _ (Close (ps_sockfd w))).
        unfold turn_forked, turn_accepted. rewrite !trace_log, <- !app_assoc.
        reflexivity.
      * split; [cbn [waits_clean]; destruct (turn_peerfd env w <? 0); reflexivity|].
        right. exists [], (turn_peerfd env w), (turn_pid env w). eexists.
        split; [exact Hp|]. split; [exact Hpid|]. split; [reflexivity|].
        split; [reflexivity|].
        cbn [app open_peers]. rewrite (proj2 (Z.ltb_ge _ _) Hp). reflexivity.
    + exfalso. exact (Hfork _ Hpid).
    + rewrite ps_server_run_parent by assumption.
      assert (Hturn : forall tl,
                 open_peers [] (turn_events env w ++ tl) = open_peers [] tl).
      { intros tl. unfold turn_events. cbn [app open_peers].
        rewrite (proj2 (Z.ltb_ge _ _) Hp). rewrite filter_self. reflexivity. }
      assert (Hwait : forall tl,
                 waits_clean [] (turn_events env w ++ tl) = waits_clean [] tl).
      { intros tl. unfold turn_events. cbn [app waits_clean].
        rewrite (proj2 (Z.ltb_ge _ _) Hp). rewrite filter_self. reflexivity. }
      destruct (turn_newpid env w =? turn_pid env w).
      * destruct (IH (log (Printf fmt_exited (turn_status env w))
                          (turn_waited env w))) as (l & Hl & Hclean & Hopen).
        exists (turn_events env w ++
                Printf fmt_exited (turn_status env w) :: l).
        split.
        -- rewrite Hl, trace_log, turn_waited_trace. rewrite <- !app_assoc.
           reflexivity.
        -- split; [rewrite Hwait; exact Hclean|].
           rewrite Hturn. cbn [open_peers].
           destruct Hopen as [Hopen|(h & p & q & r & Hp' & Hq & Hret & Hl' & Hopen)].
           ++ left. exact Hopen.
           ++ right.
              exists (turn_events env w ++
                      Printf fmt_exited (turn_status env w) :: h),
                p, q, r.
              split; [exact Hp'|]. split; [exact Hq|]. split; [exact Hret|].
              split; [|exact Hopen].
              rewrite Hl'. rewrite <- !app_assoc. reflexivity.
      * exists (turn_events env w). split.
        -- cbn [snd]. apply turn_waited_trace.
        -- rewrite <- (app_nil_r (turn_events env w)). rewrite Hwait, Hturn.
           split; [reflexivity|left; reflexivity].
Qed.

(** Three connections served in turn, each closed before its child is
    waited for. *)
Lemma supervisor_closes_peers_witness :
  exists l,
    trace (snd (ps_server_run env_sessions 3 (world_after_init 3))) =
    trace (world_after_init 3) ++ l /\
    waits_clean [] l = true /\
    (open_peers [] l = [] \/
     exists h p q r,
       0 <= p /\ q < 0 /\
       fst (ps_server_run env_sessions 3 (world_after_init 3)) = Ret tt /\
       l = h ++ [Sys (Accept (ps_sockfd (world_after_init 3))) p; Sys Fork q;
                 Perror "fork"; Sys (Close (ps_sockfd (world_after_init 3))) r] /\
       open_peers [] l =
       filter (fun x => negb (x =? ps_sockfd (world_after_init 3))) [p]).
Proof.
  apply (supervisor_closes_peers env_sessions).
  intros n. simpl. discriminate.
Defined.

(** ** Starting the relay workers *)

(** The three runs of [ps_relay]. *)
Lemma ps_relay_run (env : environment) (peerfd mfd : Z) (w : world) :
  let w' := snd (ps_relay env peerfd mfd w) in
  let t := next_tid w in
  exists h,
    trace w' = trace w ++ Store RelayFds 0 peerfd :: Store RelayFds 1 mfd :: h /\
    ps_relay_fds w' = (peerfd, mfd) /\
    ((fst (ps_relay env peerfd mfd w) = Ret (-1) /\
      exists c0 v,
        c0 <> 0 /\
        ps_relay_threads w' = (v, snd (ps_relay_threads w)) /\
        h = [Store RelayThreads 0 v; Sys (PthreadCreate 0 0) c0;
             Perror "child: pthread_create(1)"]) \/
     (fst (ps_relay env peerfd mfd w) = Ret (-1) /\
      exists c1 v,
        c1 <> 0 /\
        ps_relay_threads w' = (t, v) /\
        h = [Store RelayThreads 0 t; Sys (PthreadCreate 0 0) 0;
             Store RelayThreads 1 v; Sys (PthreadCreate 1 1) c1;
             Perror "child: pthread_create(2)"]) \/
     (fst (ps_relay env peerfd mfd w) = Ret 0 /\
      ps_relay_threads w' = (t, t + 1) /\
      exists d0 d1,
        h = [Store RelayThreads 0 t; Sys (PthreadCreate 0 0) 0;
             Store RelayThreads 1 (t + 1); Sys (PthreadCreate 1 1) 0;
             Load RelayThreads 0 t; Sys (PthreadDetach t) d0;
             Load RelayThreads 1 (t + 1); Sys (PthreadDetach (t + 1)) d1])).
Proof.
  cbv zeta. unfold ps_relay.
  rewrite (bind_ret_eq (store RelayFds 0 peerfd) _ w _ tt eq_refl).
  match goal with |- context [bind _ _ ?w0] => set (w1 := w0) end.
  rewrite (bind_ret_eq (store RelayFds 1 mfd) _ w1 _ tt eq_refl).
  match goal with |- context [bind _ _ ?w0] => set (w2 := w0) end.
  assert (T2 : trace w2 = trace w ++ [Store RelayFds 0 peerfd; Store RelayFds 1 mfd]).
  { subst w2 w1. cbn [trace log set_sel]. rewrite <- app_assoc. reflexivity. }
  assert (F2 : ps_relay_fds w2 = (peerfd, mfd)) by reflexivity.
  assert (A2 : ps_relay_threads w2 = ps_relay_threads w) by reflexivity.
  assert (N2 : next_tid w2 = next_tid w) by reflexivity.
  destruct (pthread_create_eq env 0 0 w2 (or_introl eq_refl))
    as (w3 & H3 & F3 & C3).
  rewrite (bind_ret_eq _ _ _ _ _ H3).
  set (c0 := ret_of env (length (trace w2)) (PthreadCreate 0 0)) in *.
  destruct (c0 =? 0) eqn:E0; cbn [negb].
  2:{ destruct C3 as (T3 & A3 & N3). unfold bind, perror, ret. cbn [fst snd].
      set (v0 := ret_of env (length (trace w2)) (ThreadSlot 0)) in *.
      exists [Store RelayThreads 0 v0; Sys (PthreadCreate 0 0) c0;
              Perror "child: pthread_create(1)"].
      split; [rewrite trace_log, T3, T2, <- !app_assoc; reflexivity|].
      split; [rewrite fds_log, F3; exact F2|].
      left. split; [reflexivity|].
      exists c0, v0. split; [apply Z.eqb_neq; exact E0|].
      split; [|reflexivity].
      rewrite threads_log. rewrite A2 in A3. cbn in A3. inversion A3. reflexivity. }
  destruct C3 as (T3 & A3 & N3).
  assert (Hth3 : ps_relay_threads w3 = (next_tid w, snd (ps_relay_threads w))).
  { rewrite A2, N2 in A3. cbn in A3. inversion A3. reflexivity. }
  destruct (pthread_create_eq env 1 1 w3 (or_intror eq_refl))
    as (w4 & H4 & F4 & C4).
  rewrite (bind_ret_eq _ _ _ _ _ H4).
  set (c1 := ret_of env (length (trace w3)) (PthreadCreate 1 1)) in *.
  destruct (c1 =? 0) eqn:E1; cbn [negb].
  2:{ destruct C4 as (T4 & A4 & N4). unfold bind, perror, ret. cbn [fst snd].
      set (v1 := ret_of env (length (trace w3)) (ThreadSlot 1)) in *.
      exists [Store RelayThreads 0 (next_tid w); Sys (PthreadCreate 0 0) 0;
              Store RelayThreads 1 v1; Sys (PthreadCreate 1 1) c1;
              Perror "child: pthread_create(2)"].
      split; [rewrite trace_log, T4, T3, T2, N2, <- !app_assoc; reflexivity|].
      split; [rewrite fds_log, F4, F3; exact F2|].
      right. left. split; [reflexivity|].
      exists c1, v1. split; [apply Z.eqb_neq; exact E1|].
      split; [|reflexivity].
      rewrite threads_log. rewrite Hth3 in A4. cbn in A4. inversion A4. reflexivity. }
  destruct C4 as (T4 & A4 & N4).
  assert (Hth : ps_relay_threads w4 = (next_tid w, next_tid w + 1)).
  { rewrite Hth3, N3, N2 in A4. cbn in A4. inversion A4. reflexivity. }
  assert (H0 : load RelayThreads 0 w4 =
               (Ret (next_tid w), log (Load RelayThreads 0 (next_tid w)) w4)).
  { unfold load, sel. rewrite Hth. reflexivity. }
  rewrite (bind_ret_eq _ _ _ _ _ H0).
  rewrite (bind_ret_eq (sys env _) _ _ _ _ eq_refl).
  match goal with |- context [bind _ _ ?w0] => set (w5 := w0) end.
  assert (H1 : load RelayThreads 1 w5 =
               (Ret (next_tid w + 1), log (Load RelayThreads 1 (next_tid w + 1)) w5)).
  { unfold load, sel. subst w5. rewrite !threads_log, Hth. reflexivity. }
  rewrite (bind_ret_eq _ _ _ _ _ H1).
  rewrite (bind_ret_eq (sys env _) _ _ _ _ eq_refl).
  unfold ret. cbn [fst snd].
  set (d1 := ret_of env _ (PthreadDetach (next_tid w + 1))).
  assert (T5 : trace w5 = trace w4 ++ [Load RelayThreads 0 (next_tid w);
                                       Sys (PthreadDetach (next_tid w))
                                           (ret_of env
                                              (length (trace (log (Load RelayThreads 0 (next_tid w)) w4)))
                                              (PthreadDetach (next_tid w)))]).
  { subst w5. rewrite !trace_log, <- app_assoc. reflexivity. }
  set (d0 := ret_of env _ (PthreadDetach (next_tid w))) in T5.
  exists [Store RelayThreads 0 (next_tid w); Sys (PthreadCreate 0 0) 0;
          Store RelayThreads 1 (next_tid w + 1); Sys (PthreadCreate 1 1) 0;
          Load RelayThreads 0 (next_tid w); Sys (PthreadDetach (next_tid w)) d0;
          Load RelayThreads 1 (next_tid w + 1);
          Sys (PthreadDetach (next_tid w + 1)) d1].
  split; [rewrite !trace_log, T5, T4, T3, T2, N3, N2, <- !app_assoc; reflexivity|].
  split; [subst w5; rewrite !fds_log, F4, F3; exact F2|].
  right. right. split; [reflexivity|].
  split; [subst w5; rewrite !threads_log; exact Hth|].
  exists d0, d1. reflexivity.
Qed.

(** X7.  [ps_relay] returns 0 or -1, and -1 exactly when a
    [pthread_create] has failed, right after the diagnostic of that
    creation.  When the first creation fails no worker has been started,
    and the first thread identifier is whatever the failed call has left
    there; when the second one fails, the first worker has been started
    with its identifier stored, and [ps_relay] returns without detaching
    or cancelling it, the second identifier being whatever the failed
    call has left.  A call that returns 0 has started both workers and
    detached them, in this order. *)
Theorem relay_start_result (env : environment) (peerfd mfd : Z) (w : world) :
  let w' := snd (ps_relay env peerfd mfd w) in
  let t := next_tid w in
  exists h,
    trace w' = trace w ++ Store RelayFds 0 peerfd :: Store RelayFds 1 mfd :: h /\
    ps_relay_fds w' = (peerfd, mfd) /\
    ((fst (ps_relay env peerfd mfd w) = Ret (-1) /\
      exists c0 v,
        c0 <> 0 /\
        ps_relay_threads w' = (v, snd (ps_relay_threads w)) /\
        h = [Store RelayThreads 0 v; Sys (PthreadCreate 0 0) c0;
             Perror "child: pthread_create(1)"]) \/
     (fst (ps_relay env peerfd mfd w) = Ret (-1) /\
      exists c1 v,
        c1 <> 0 /\
        ps_relay_threads w' = (t, v) /\
        h = [Store RelayThreads 0 t; Sys (PthreadCreate 0 0) 0;
             Store RelayThreads 1 v; Sys (PthreadCreate 1 1) c1;
             Perror "child: pthread_create(2)"]) \/
     (fst (ps_relay env peerfd mfd w) = Ret 0 /\
      ps_relay_threads w' = (t, t + 1) /\
      exists d0 d1,
        h = [Store RelayThreads 0 t; Sys (PthreadCreate 0 0) 0;
             Store RelayThreads 1 (t + 1); Sys (PthreadCreate 1 1) 0;
             Load RelayThreads 0 t; Sys (PthreadDetach t) d0;
             Load RelayThreads 1 (t + 1); Sys (PthreadDetach (t + 1)) d1])).
Proof. apply ps_relay_run. Qed.

(** ** The slave side of the pty *)

(** One call whose only effect is its entry in the history. *)
Ltac sys_step r w' :=
  match goal with
  | |- context [bind (sys ?env ?c) ?f ?w0] =>
      rewrite (bind_ret_eq (sys env c) f w0 _ _ eq_refl);
      set (r := ret_of env (length (trace w0)) c) in *;
      set (w' := log (Sys c r) w0) in *;
      cbv beta
  end.

Lemma has_ldterm_log (e : event) (w : world) : has_ldterm (log e w) = has_ldterm w.
Proof. reflexivity. Qed.

Lemma Forall_call_ok_pushes (sfd : Z) (k : nat) :
  Forall call_ok (map (fun name => Sys (IoctlPush sfd name) 0) (firstn k ld_modules)).
Proof.
  apply Forall_forall. intros e He. apply in_map_iff in He.
  destruct He as (name & <- & _). simpl. lia.
Qed.

Lemma Forall_not_closefrom_pushes (sfd : Z) (k : nat) :
  Forall not_closefrom
         (map (fun name => Sys (IoctlPush sfd name) 0) (firstn k ld_modules)).
Proof.
  apply Forall_forall. intros e He. apply in_map_iff in He.
  destruct He as (name & <- & _). exact I.
Qed.

Lemma bind_eq {A B} (m : M A) (f : A -> M B) (w w1 : world) (o : outcome A) :
  m w = (o, w1) ->
  bind m f w =
  match o with
  | Ret a => f a w1
  | Exited s => (Exited s, w1)
  | Execed => (Execed, w1)
  | Aborted => (Aborted, w1)
  | Undefined => (Undefined, w1)
  | OutOfFuel => (OutOfFuel, w1)
  end.
Proof. intros H. unfold bind. rewrite H. destruct o; reflexivity. Qed.

Lemma Forall_call_ok_ld (sfd : Z) (present : bool) :
  Forall call_ok (ld_calls sfd present).
Proof. destruct present; repeat (constructor; [simpl; lia|]); constructor. Qed.

Lemma Forall_not_closefrom_ld (sfd : Z) (present : bool) :
  Forall not_closefrom (ld_calls sfd present).
Proof. destruct present; repeat constructor. Qed.

Lemma Forall_call_ok_slavepty (mfd name c sfd : Z) (present : bool) (r : Z) :
  name <> 0 -> 0 <= sfd ->
  Forall call_ok (slavepty_calls mfd name c sfd present r).
Proof.
  intros Hn Hs. unfold slavepty_calls. apply Forall_app. split.
  - constructor; [exact Hn|constructor; [exact I|constructor; [exact Hs|constructor]]].
  - apply Forall_app. split; [apply Forall_call_ok_ld|].
    repeat (constructor; [simpl; trivial|]). constructor.
Qed.

(** The search for the line discipline and its pushes either all
    succeed, or stop at the first call that fails, after its
    diagnostic. *)
Lemma ps_init_slavepty_ldterm_run (env : environment) (sfd : Z) (w : world)
      (o : outcome Z) (w1 : world) :
  ps_init_slavepty_ldterm env sfd w = (o, w1) ->
  (o = Ret 0 /\ trace w1 = trace w ++ ld_calls sfd (has_ldterm w) /\
   has_ldterm w1 = true) \/
  (o = Ret (-1) /\
   exists h e msg,
     trace w1 = trace w ++ h ++ [e; Perror msg] /\ Forall call_ok h /\
     call_failed e /\ Forall not_closefrom (h ++ [e; Perror msg])).
Proof.
  intros H. apply ps_init_slavepty_ldterm_inv in H. cbv zeta in H.
  destruct (_ <? 0) eqn:E.
  - destruct H as (-> & _ & Ht). right. split; [reflexivity|].
    exists []. eexists _, _. split; [exact Ht|]. split; [constructor|].
    split; [apply Z.ltb_lt; exact E|repeat constructor].
  - destruct (has_ldterm w) eqn:El.
    + destruct H as (-> & Hm & Ht). left. split; [reflexivity|].
      split; [exact Ht|]. unfold has_ldterm in *. rewrite Hm. exact El.
    + destruct H as [(-> & k & r & msg & Hk & Hr & Hm & Ht)|(-> & Hm & Ht)].
      * right. split; [reflexivity|].
        exists (Sys (IoctlFind sfd "ldterm") 0 ::
                map (fun name => Sys (IoctlPush sfd name) 0) (firstn k ld_modules)).
        exists (Sys (IoctlPush sfd (nth k ld_modules "")) r), msg.
        split; [rewrite Ht; cbn [app]; reflexivity|].
        split; [constructor; [simpl; lia|apply Forall_call_ok_pushes]|].
        split; [exact Hr|].
        cbn [app]. constructor; [exact I|].
        apply Forall_app. split; [apply Forall_not_closefrom_pushes|repeat constructor].
      * left. split; [reflexivity|]. split; [exact Ht|].
        unfold has_ldterm. rewrite Hm. reflexivity.
Qed.

Lemma ps_init_slavepty_run (env : environment) (mfd : Z) (w : world) :
  exists l,
    trace (snd (ps_init_slavepty env mfd w)) = trace w ++ l /\
    ((fst (ps_init_slavepty env mfd w) = Ret 0 /\
      has_ldterm (snd (ps_init_slavepty env mfd w)) = true /\
      exists name c sfd r,
        name <> 0 /\ 0 <= sfd /\
        l = slavepty_calls mfd name c sfd (has_ldterm w) r) \/
     (fst (ps_init_slavepty env mfd w) = Ret (-1) /\
      exists h e msg,
        l = h ++ [e; Perror msg] /\ Forall call_ok h /\ call_failed e /\
        Forall not_closefrom l)).
Proof.
  unfold ps_init_slavepty.
  sys_step name w1.
  destruct (name =? 0) eqn:En.
  { unfold bind, perror, ret. cbn [fst snd].
    exists [Sys (Ptsname mfd) name; Perror "child's child: ptsname"].
    split; [rewrite trace_log; subst w1; rewrite trace_log, <- app_assoc; reflexivity|].
    right. split; [reflexivity|]. exists [], (Sys (Ptsname mfd) name). eexists.
    split; [reflexivity|]. split; [constructor|].
    split; [apply Z.eqb_eq; exact En|repeat constructor]. }
  apply Z.eqb_neq in En.
  sys_step c w2. sys_step sfd w3.
  assert (T3 : trace w3 = trace w ++ [Sys (Ptsname mfd) name; Sys (Close mfd) c;
                                      Sys (Open name) sfd]).
  { subst w3 w2 w1. rewrite !trace_log, <- !app_assoc. reflexivity. }
  destruct (sfd <? 0) eqn:Es.
  { unfold bind, perror, ret. cbn [fst snd].
    exists [Sys (Ptsname mfd) name; Sys (Close mfd) c; Sys (Open name) sfd;
            Perror "child's child: open pty"].
    split; [rewrite trace_log, T3, <- app_assoc; reflexivity|].
    right. split; [reflexivity|].
    exists [Sys (Ptsname mfd) name; Sys (Close mfd) c], (Sys (Open name) sfd).
    eexists. split; [reflexivity|].
    split; [constructor; [exact En|constructor; [exact I|constructor]]|].
    split; [apply Z.ltb_lt; exact Es|repeat constructor]. }
  apply Z.ltb_ge in Es.
  destruct (ps_init_slavepty_ldterm env sfd w3) as [o w4] eqn:Hld.
  rewrite (bind_eq _ _ _ _ _ Hld).
  apply ps_init_slavepty_ldterm_run in Hld.
  change (has_ldterm w3) with (has_ldterm w) in Hld.
  destruct Hld as [(-> & T4 & L4)|(-> & h & e & msg & T4 & Hh & He & Hc)].
  2:{ cbn [negb Z.eqb]. unfold ret. cbn [fst snd].
      exists ([Sys (Ptsname mfd) name; Sys (Close mfd) c; Sys (Open name) sfd] ++
              h ++ [e; Perror msg]).
      split; [rewrite T4, T3, <- !app_assoc; reflexivity|].
      right. split; [reflexivity|].
      exists ([Sys (Ptsname mfd) name; Sys (Close mfd) c; Sys (Open name) sfd] ++ h),
        e, msg.
      split; [rewrite <- !app_assoc; reflexivity|].
      split; [apply Forall_app; split; [|exact Hh];
              constructor; [exact En|constructor; [exact I|constructor; [exact Es|constructor]]]|].
      split; [exact He|].
      apply Forall_app. split; [repeat constructor|exact Hc]. }
  cbn [negb Z.eqb].
  pose proof (Forall_call_ok_ld sfd (has_ldterm w)) as Hld.
  pose proof (Forall_not_closefrom_ld sfd (has_ldterm w)) as Hlc.
  assert (Hpre : Forall call_ok
                   ([Sys (Ptsname mfd) name; Sys (Close mfd) c; Sys (Open name) sfd] ++
                    ld_calls sfd (has_ldterm w))).
  { apply Forall_app. split; [|exact Hld].
    constructor; [exact En|constructor; [exact I|constructor; [exact Es|constructor]]]. }
  assert (Hprec : Forall not_closefrom
                    ([Sys (Ptsname mfd) name; Sys (Close mfd) c; Sys (Open name) sfd] ++
                     ld_calls sfd (has_ldterm w))).
  { apply Forall_app. split; [repeat constructor|exact Hlc]. }
  sys_step d0 w5.
  destruct (d0 =? 0) eqn:E0; cbn [negb].
  2:{ unfold bind, perror, ret. cbn [fst snd].
      exists (([Sys (Ptsname mfd) name; Sys (Close mfd) c; Sys (Open name) sfd] ++
               ld_calls sfd (has_ldterm w)) ++
              [Sys (Dup2 sfd 0) d0; Perror "child's child: dup2"]).
      split; [rewrite trace_log; subst w5; rewrite trace_log, T4, T3, <- !app_assoc;
              reflexivity|].
      right. split; [reflexivity|]. eexists _, _, _.
      split; [reflexivity|]. split; [exact Hpre|].
      split; [apply Z.eqb_neq; exact E0|].
      apply Forall_app. split; [exact Hprec|repeat constructor]. }
  apply Z.eqb_eq in E0.
  sys_step d1 w6.
  destruct (d1 =? 1) eqn:E1; cbn [negb].
  2:{ unfold bind, perror, ret. cbn [fst snd].
      exists (([Sys (Ptsname mfd) name; Sys (Close mfd) c; Sys (Open name) sfd] ++
               ld_calls sfd (has_ldterm w) ++ [Sys (Dup2 sfd 0) d0]) ++
              [Sys (Dup2 sfd 1) d1; Perror "child's child: dup2"]).
      split; [rewrite trace_log; subst w6 w5; rewrite !trace_log, T4, T3, <- !app_assoc;
              reflexivity|].
      right. split; [reflexivity|]. eexists _, _, _.
      split; [reflexivity|].
      split; [rewrite app_assoc; apply Forall_app; split;
              [exact Hpre|constructor; [exact E0|constructor]]|].
      split; [apply Z.eqb_neq; exact E1|].
      apply Forall_app. split; [|repeat constructor].
      rewrite app_assoc. apply Forall_app. split; [exact Hprec|repeat constructor]. }
  apply Z.eqb_eq in E1.
  sys_step d2 w7.
  destruct (d2 =? 2) eqn:E2; cbn [negb].
  2:{ unfold bind, perror, ret. cbn [fst snd].
      exists (([Sys (Ptsname mfd) name; Sys (Close mfd) c; Sys (Open name) sfd] ++
               ld_calls sfd (has_ldterm w) ++
               [Sys (Dup2 sfd 0) d0; Sys (Dup2 sfd 1) d1]) ++
              [Sys (Dup2 sfd 2) d2; Perror "child's child: dup2"]).
      split; [rewrite trace_log; subst w7 w6 w5;
              rewrite !trace_log, T4, T3, <- !app_assoc; reflexivity|].
      right. split; [reflexivity|]. eexists _, _, _.
      split; [reflexivity|].
      split; [rewrite app_assoc; apply Forall_app; split;
              [exact Hpre|constructor; [exact E0|constructor; [exact E1|constructor]]]|].
      split; [apply Z.eqb_neq; exact E2|].
      apply Forall_app. split; [|repeat constructor].
      rewrite app_assoc. apply Forall_app. split; [exact Hprec|repeat constructor]. }
  apply Z.eqb_eq in E2.
  sys_step r w8. unfold ret. cbn [fst snd].
  exists (slavepty_calls mfd name c sfd (has_ldterm w) r).
  split.
  { subst w8 w7 w6 w5. rewrite !trace_log, T4, T3, E0, E1, E2.
    unfold slavepty_calls. rewrite <- !app_assoc. reflexivity. }
  left. split; [reflexivity|]. split; [exact L4|].
  exists name, c, sfd, r. split; [exact En|]. split; [exact Es|reflexivity].
Qed.

(** X8.  [ps_init_slavepty] returns 0 or -1.  It returns 0 after the
    calls of a complete set-up, each with the result the code asks for:
    the slave is named from the master, the master is closed before the
    slave is opened, the line discipline is found or pushed, the slave
    is made descriptor 0, 1 and 2 in this order, and [closefrom(3)] is
    the last call; the stream then has its line discipline.  It returns
    -1 at the first call that fails, right after the diagnostic of that
    call, every call before having succeeded, and without
    [closefrom]. *)
Theorem slavepty_init_result (env : environment) (mfd : Z) (w : world) :
  exists l,
    trace (snd (ps_init_slavepty env mfd w)) = trace w ++ l /\
    ((fst (ps_init_slavepty env mfd w) = Ret 0 /\
      Forall call_ok l /\
      has_ldterm (snd (ps_init_slavepty env mfd w)) = true /\
      exists name c sfd r,
        name <> 0 /\ 0 <= sfd /\
        l = slavepty_calls mfd name c sfd (has_ldterm w) r) \/
     (fst (ps_init_slavepty env mfd w) = Ret (-1) /\
      exists h e msg,
        l = h ++ [e; Perror msg] /\ Forall call_ok h /\ call_failed e /\
        Forall not_closefrom l)).
Proof.
  destruct (ps_init_slavepty_run env mfd w)
    as (l & Hl & [(Hr & Hld & name & c & sfd & r & Hn & Hs & ->)|Hfail]).
  - exists (slavepty_calls mfd name c sfd (has_ldterm w) r).
    split; [exact Hl|]. left. split; [exact Hr|].
    split; [apply Forall_call_ok_slavepty; assumption|].
    split; [exact Hld|]. exists name, c, sfd, r. auto.
  - exists l. split; [exact Hl|]. right. exact Hfail.
Qed.

(** ** The runs of one session *)

Lemma execl_run (env : environment) (path : string) (w : world) :
  execl env path w =
  if ret_of env (length (trace w)) (Execl path) =? 0
  then (Execed, log (Sys (Execl path) 0) w)
  else (Ret (ret_of env (length (trace w)) (Execl path)),
        log (Sys (Execl path) (ret_of env (length (trace w)) (Execl path))) w).
Proof. reflexivity. Qed.

(** The runs of [ps_server_connected]: the allocation fails; the fork
    fails; in the parent, the relay is started and the shell is waited
    for, or the relay fails; in the child, the slave pty is prepared and
    the shell is executed, or one of the two fails. *)
Lemma ps_server_connected_run (env : environment) (peerfd : Z) (w : world) :
  exists l,
    trace (snd (ps_server_connected env peerfd w)) = trace w ++ l /\
    ((fst (ps_server_connected env peerfd w) = Ret (-1) /\
      exists h msg, l = h ++ [Perror msg] /\ Forall is_alloc h) \/
     (exists mfd p,
         0 <= mfd /\ p < 0 /\
         fst (ps_server_connected env peerfd w) = Ret (-1) /\
         l = alloc_calls mfd ++ [Sys Fork p; Perror "child: fork"]) \/
     (exists mfd p h,
         0 <= mfd /\ 0 < p /\
         l = alloc_calls mfd ++
             Sys Fork p :: Store RelayFds 0 peerfd :: Store RelayFds 1 mfd :: h /\
         ((fst (ps_server_connected env peerfd w) = Ret (-1) /\
           exists c v, c <> 0 /\
                       (h = relay_failed_first v c \/
                        h = relay_failed_second (next_tid w) v c)) \/
          (fst (ps_server_connected env peerfd w) = Ret 0 /\
           exists d0 d1 r,
             h = relay_started_calls (next_tid w) d0 d1 ++ [Sys Wait r]))) \/
     (exists mfd c s li rest,
         0 <= mfd /\
         l = alloc_calls mfd ++ child_calls peerfd c s ++ li ++ rest /\
         ((fst (ps_server_connected env peerfd w) = Exited 1 /\ rest = [] /\
           exists h e msg,
             li = h ++ [e; Perror msg] /\ Forall call_ok h /\ call_failed e /\
             Forall not_closefrom li) \/
          (exists name c' sfd r home cd x,
              name <> 0 /\ 0 <= sfd /\
              li = slavepty_calls mfd name c' sfd (has_ldterm w) r /\
              has_ldterm (snd (ps_server_connected env peerfd w)) = true /\
              rest = shell_calls home cd x /\
              fst (ps_server_connected env peerfd w) =
              if x =? 0 then Execed else Exited 1)))).
Proof.
  unfold ps_server_connected.
  sys_step mfd w1.
  assert (T1 : trace w1 = trace w ++ [Sys PosixOpenpt mfd]) by reflexivity.
  destruct (mfd <? 0) eqn:Em.
  { unfold bind, perror, ret. cbn [fst snd].
    exists ([Sys PosixOpenpt mfd] ++ [Perror "child: posix_openpt"]).
    split; [rewrite trace_log, T1, <- app_assoc; reflexivity|].
    left. split; [reflexivity|]. eexists _, _. split; [reflexivity|].
    repeat constructor. }
  apply Z.ltb_ge in Em.
  sys_step g w2.
  assert (T2 : trace w2 = trace w ++ [Sys PosixOpenpt mfd; Sys (Grantpt mfd) g]).
  { subst w2. rewrite trace_log, T1, <- app_assoc. reflexivity. }
  destruct (g =? 0) eqn:Eg; cbn [negb].
  2:{ unfold bind, perror, ret. cbn [fst snd].
      exists ([Sys PosixOpenpt mfd; Sys (Grantpt mfd) g] ++ [Perror "child: grantpt"]).
      split; [rewrite trace_log, T2, <- app_assoc; reflexivity|].
      left. split; [reflexivity|]. eexists _, _. split; [reflexivity|].
      repeat constructor. }
  apply Z.eqb_eq in Eg.
  sys_step u w3.
  assert (T3 : trace w3 = trace w ++ [Sys PosixOpenpt mfd; Sys (Grantpt mfd) g;
                                      Sys (Unlockpt mfd) u]).
  { subst w3. rewrite trace_log, T2, <- app_assoc. reflexivity. }
  destruct (u =? 0) eqn:Eu; cbn [negb].
  2:{ unfold bind, perror, ret. cbn [fst snd].
      exists ([Sys PosixOpenpt mfd; Sys (Grantpt mfd) g; Sys (Unlockpt mfd) u] ++
              [Perror "child: unlockpt"]).
      split; [rewrite trace_log, T3, <- app_assoc; reflexivity|].
      left. split; [reflexivity|]. eexists _, _. split; [reflexivity|].
      repeat constructor. }
  apply Z.eqb_eq in Eu. rewrite Eg, Eu in T3. fold (alloc_calls mfd) in T3.
  sys_step p w4.
  assert (T4 : trace w4 = trace w ++ alloc_calls mfd ++ [Sys Fork p]).
  { subst w4. rewrite trace_log, T3, <- app_assoc. reflexivity. }
  destruct (p <? 0) eqn:Ep.
  { unfold bind, perror, ret. cbn [fst snd].
    exists (alloc_calls mfd ++ [Sys Fork p; Perror "child: fork"]).
    split; [rewrite trace_log, T4, <- !app_assoc; reflexivity|].
    right. left. exists mfd, p. split; [exact Em|].
    split; [apply Z.ltb_lt; exact Ep|]. split; reflexivity. }
  apply Z.ltb_ge in Ep.
  destruct (p =? 0) eqn:Ep0; cbn [negb].
  - (* the child *)
    apply Z.eqb_eq in Ep0. rewrite Ep0 in T4.
    sys_step c w5. sys_step s w6.
    assert (T6 : trace w6 = trace w ++ alloc_calls mfd ++ child_calls peerfd c s).
    { subst w6 w5. rewrite !trace_log, T4, <- !app_assoc. reflexivity. }
    destruct (ps_init_slavepty env mfd w6) as [o w7] eqn:Hin.
    rewrite (bind_eq _ _ _ _ _ Hin).
    pose proof (ps_init_slavepty_run env mfd w6) as Hr.
    rewrite Hin in Hr. cbn [fst snd] in Hr.
    change (has_ldterm w6) with (has_ldterm w) in Hr.
    destruct Hr as (li & T7 & [(-> & L7 & name & c' & sfd & r & Hn & Hs & Hli)|
                               (-> & h & e & msg & Hli & Hh & He & Hc)]).
    2:{ cbn [negb Z.eqb]. unfold exit. cbn [fst snd].
        exists (alloc_calls mfd ++ child_calls peerfd c s ++ li ++ []).
        split; [rewrite T7, T6, app_nil_r, <- !app_assoc; reflexivity|].
        right. right. right. exists mfd, c, s, li, [].
        split; [exact Em|]. split; [reflexivity|].
        left. split; [reflexivity|]. split; [reflexivity|].
        exists h, e, msg. rewrite <- Hli. auto. }
    cbn [negb Z.eqb].
    sys_step home w8. sys_step cd w9.
    assert (T9 : trace w9 = trace w7 ++ [Sys (Getenv "HOME") home; Sys (Chdir home) cd]).
    { subst w9 w8. rewrite !trace_log, <- app_assoc. reflexivity. }
    assert (Hw : exists w10,
               (if negb (cd =? 0) then perror "child: WARN: chdir" else ret tt) w9 =
               (Ret tt, w10) /\
               trace w10 = trace w9 ++ chdir_warning cd /\
               has_ldterm w10 = true).
    { unfold chdir_warning. destruct (cd =? 0); cbn [negb].
      - exists w9. split; [reflexivity|]. split; [rewrite app_nil_r; reflexivity|].
        exact L7.
      - eexists. split; [reflexivity|]. split; [apply trace_log|exact L7]. }
    destruct Hw as (w10 & Hw & T10 & L10).
    rewrite (bind_ret_eq _ _ _ _ _ Hw).
    pose proof (execl_run env "/bin/bash" w10) as Hx.
    set (x := ret_of env (length (trace w10)) (Execl "/bin/bash")) in *.
    exists (alloc_calls mfd ++ child_calls peerfd c s ++ li ++ shell_calls home cd x).
    destruct (x =? 0) eqn:Ex.
    + rewrite (bind_eq _ _ _ _ _ Hx). cbn [fst snd]. split.
      * rewrite trace_log, T10, T9, T7, T6. unfold shell_calls. rewrite Ex.
        rewrite <- !app_assoc. reflexivity.
      * right. right. right. exists mfd, c, s, li, (shell_calls home cd x).
        split; [exact Em|]. split; [reflexivity|]. right.
        exists name, c', sfd, r, home, cd, x.
        split; [exact Hn|]. split; [exact Hs|]. split; [exact Hli|].
        split; [exact L10|]. split; [reflexivity|]. rewrite Ex. reflexivity.
    + rewrite (bind_eq _ _ _ _ _ Hx). unfold bind, perror, exit. cbn [fst snd]. split.
      * rewrite !trace_log, T10, T9, T7, T6. unfold shell_calls. rewrite Ex.
        rewrite <- !app_assoc. reflexivity.
      * right. right. right. exists mfd, c, s, li, (shell_calls home cd x).
        split; [exact Em|]. split; [reflexivity|]. right.
        exists name, c', sfd, r, home, cd, x.
        split; [exact Hn|]. split; [exact Hs|]. split; [exact Hli|].
        split; [exact L10|]. split; [reflexivity|]. rewrite Ex. reflexivity.
  - (* the parent *)
    apply Z.eqb_neq in Ep0. assert (Hp : 0 < p) by lia.
    destruct (ps_relay env peerfd mfd w4) as [o w5] eqn:Hrel.
    rewrite (bind_eq _ _ _ _ _ Hrel).
    pose proof (ps_relay_run env peerfd mfd w4) as Hr. cbv zeta in Hr.
    rewrite Hrel in Hr. cbn [fst snd] in Hr.
    change (next_tid w4) with (next_tid w) in Hr.
    destruct Hr as (h & T5 & _ & [(-> & c0 & v0 & Hc0 & _ & Hh)|
                                 [(-> & c1 & v1 & Hc1 & _ & Hh)|(-> & _ & d0 & d1 & Hh)]]).
    + cbn [negb Z.eqb]. unfold ret. cbn [fst snd].
      exists (alloc_calls mfd ++
              Sys Fork p :: Store RelayFds 0 peerfd :: Store RelayFds 1 mfd :: h).
      split; [rewrite T5, T4, <- !app_assoc; reflexivity|].
      right. right. left. exists mfd, p, h.
      split; [exact Em|]. split; [exact Hp|]. split; [reflexivity|].
      left. split; [reflexivity|]. exists c0, v0. split; [exact Hc0|left; exact Hh].
    + cbn [negb Z.eqb]. unfold ret. cbn [fst snd].
      exists (alloc_calls mfd ++
              Sys Fork p :: Store RelayFds 0 peerfd :: Store RelayFds 1 mfd :: h).
      split; [rewrite T5, T4, <- !app_assoc; reflexivity|].
      right. right. left. exists mfd, p, h.
      split; [exact Em|]. split; [exact Hp|]. split; [reflexivity|].
      left. split; [reflexivity|]. exists c1, v1. split; [exact Hc1|right; exact Hh].
    + cbn [negb Z.eqb].
      rewrite (bind_ret_eq (sys_wait env) _ _ _ _ eq_refl). unfold ret. cbn [fst snd].
      set (r := ret_of env (length (trace w5)) Wait).
      exists (alloc_calls mfd ++
              Sys Fork p :: Store RelayFds 0 peerfd :: Store RelayFds 1 mfd ::
              h ++ [Sys Wait r]).
      split.
      * rewrite trace_log, T5, T4, <- !app_assoc. reflexivity.
      * right. right. left.
        exists mfd, p, (h ++ [Sys Wait r]).
        split; [exact Em|]. split; [exact Hp|]. split; [reflexivity|].
        right. split; [reflexivity|]. exists d0, d1, r. rewrite Hh. reflexivity.
Qed.

(** X9.  The process image is replaced by the shell only in the process
    forked for it, whose [fork] returned 0, and only once that process
    has closed the peer socket, started a session of its own and made
    the slave pty, with its line discipline, its standard input, output
    and error: the calls up to [execl], its last call, are those of a
    pty allocation and of a set-up of the slave that both succeeded.  A
    [chdir] that fails adds a warning and does not keep the shell from
    being executed. *)
Theorem shell_runs_on_slave_pty (env : environment) (peerfd : Z) (w : world) :
  fst (ps_server_connected env peerfd w) = Execed ->
  has_ldterm (snd (ps_server_connected env peerfd w)) = true /\
  exists mfd c s name c' sfd r home cd,
    0 <= mfd /\ name <> 0 /\ 0 <= sfd /\
    trace (snd (ps_server_connected env peerfd w)) =
    trace w ++ alloc_calls mfd ++ child_calls peerfd c s ++
    slavepty_calls mfd name c' sfd (has_ldterm w) r ++
    [Sys (Getenv "HOME") home; Sys (Chdir home) cd] ++ chdir_warning cd ++
    [Sys (Execl "/bin/bash") 0].
Proof.
  intros Hx.
  destruct (ps_server_connected_run env peerfd w) as (l & Hl & Hcases).
  rewrite Hx in Hcases.
  destruct Hcases as [(H & _)|[(mfd & p & _ & _ & H & _)|
    [(mfd & p & h & _ & _ & _ & [(H & _)|(H & _)])|
     (mfd & c & s & li & rest & Hm & Hl' & [(H & _)|Hshell])]]];
    try discriminate H.
  destruct Hshell as (name & c' & sfd & r & home & cd & x & Hn & Hs & Hli & Hld &
                      Hrest & Hout).
  destruct (x =? 0) eqn:Ex; [|discriminate Hout].
  split; [exact Hld|].
  exists mfd, c, s, name, c', sfd, r, home, cd.
  split; [exact Hm|]. split; [exact Hn|]. split; [exact Hs|].
  rewrite Hl, Hl', Hli, Hrest. unfold shell_calls. rewrite Ex. reflexivity.
Qed.

Lemma shell_runs_on_slave_pty_witness :
  has_ldterm (snd (ps_server_connected env_shell 4 (world_after_init 3))) = true.
Proof.
  apply (shell_runs_on_slave_pty env_shell 4 (world_after_init 3)).
  vm_compute. reflexivity.
Defined.

Lemma not_In_fork_alloc (h : list event) :
  Forall is_alloc h -> ~ In (Sys Fork 0) h.
Proof.
  intros HF Hin. rewrite Forall_forall in HF. exact (HF _ Hin).
Qed.

(** X10.  How a session ends, by process.  [ps_server_connected] returns
    only in the process that is not the shell's: 0 after it has started
    both relay workers and waited, the [wait] being its last call, and
    else -1, right after a diagnostic and without any [wait], also when
    the shell has been forked and the relay could not be started.  In
    the process forked for the shell it never returns: the process
    leaves with [exit(1)] right after a diagnostic, or becomes the shell
    with [execl] as its last call.  No run aborts or is left
    unfinished. *)
Theorem session_outcome (env : environment) (peerfd : Z) (w : world) :
  exists l,
    trace (snd (ps_server_connected env peerfd w)) = trace w ++ l /\
    match fst (ps_server_connected env peerfd w) with
    | Ret v =>
        ~ In (Sys Fork 0) l /\
        ((v = 0 /\
          exists h r, l = h ++ [Sys Wait r] /\ In (Sys (PthreadCreate 1 1) 0) h) \/
         (v = -1 /\ Forall not_wait l /\ exists h msg, l = h ++ [Perror msg]))
    | Exited s =>
        s = 1 /\ In (Sys Fork 0) l /\ exists h msg, l = h ++ [Perror msg]
    | Execed =>
        In (Sys Fork 0) l /\ exists h, l = h ++ [Sys (Execl "/bin/bash") 0]
    | _ => False
    end.
Proof.
  destruct (ps_server_connected_run env peerfd w) as (l & Hl & Hcases).
  exists l. split; [exact Hl|].
  destruct Hcases as [(-> & h & msg & -> & Hh)|[(mfd & p & Hm & Hp & -> & ->)|
    [(mfd & p & h & Hm & Hp & -> & [(-> & c & v & Hc & Hh)|(-> & d0 & d1 & r & ->)])|
     (mfd & c & s & li & rest & Hm & -> & [(-> & -> & h & e & msg & -> & _)|Hshell])]]].
  - split.
    + intros Hin. apply in_app_or in Hin. destruct Hin as [Hin|[Hin|[]]].
      * exact (not_In_fork_alloc h Hh Hin).
      * discriminate Hin.
    + right. split; [reflexivity|]. split; [|exists h, msg; reflexivity].
      apply Forall_app. split; [|repeat constructor].
      apply Forall_forall. intros e He. rewrite Forall_forall in Hh.
      specialize (Hh e He). destruct e as [[]| | | | |]; try exact I; contradiction.
  - split.
    + unfold alloc_calls. cbn [app In]. intros Hin.
      repeat (destruct Hin as [Hin|Hin]; [try discriminate Hin|]); try contradiction.
      inversion Hin. lia.
    + right. split; [reflexivity|]. split; [repeat constructor|].
      exists (alloc_calls mfd ++ [Sys Fork p]), "child: fork".
      rewrite <- app_assoc. reflexivity.
  - split.
    + destruct Hh as [-> | ->]; unfold alloc_calls, relay_failed_first,
        relay_failed_second; cbn [app In]; intros Hin;
        repeat (destruct Hin as [Hin|Hin]; [try discriminate Hin|]);
        try contradiction; inversion Hin; lia.
    + right. split; [reflexivity|].
      destruct Hh as [-> | ->].
      * split; [repeat constructor|].
        exists (alloc_calls mfd ++
                [Sys Fork p; Store RelayFds 0 peerfd; Store RelayFds 1 mfd;
                 Store RelayThreads 0 v; Sys (PthreadCreate 0 0) c]),
          "child: pthread_create(1)".
        rewrite <- app_assoc. reflexivity.
      * split; [repeat constructor|].
        exists (alloc_calls mfd ++
                [Sys Fork p; Store RelayFds 0 peerfd; Store RelayFds 1 mfd;
                 Store RelayThreads 0 (next_tid w); Sys (PthreadCreate 0 0) 0;
                 Store RelayThreads 1 v; Sys (PthreadCreate 1 1) c]),
          "child: pthread_create(2)".
        rewrite <- app_assoc. reflexivity.
  - split.
    + unfold alloc_calls, relay_started_calls. cbn [app In]. intros Hin.
      repeat (destruct Hin as [Hin|Hin]; [try discriminate Hin|]);
        try contradiction; inversion Hin; lia.
    + left. split; [reflexivity|].
      exists (alloc_calls mfd ++
              Sys Fork p :: Store RelayFds 0 peerfd :: Store RelayFds 1 mfd ::
              relay_started_calls (next_tid w) d0 d1), r.
      split; [rewrite <- app_assoc; reflexivity|].
      apply in_or_app. right. unfold relay_started_calls. cbn [In]. auto 10.
  - split; [reflexivity|]. split.
    + apply in_or_app. right. left. reflexivity.
    + exists (alloc_calls mfd ++ child_calls peerfd c s ++ h ++ [e]), msg.
      rewrite app_nil_r, <- !app_assoc. reflexivity.
  - destruct Hshell as (name & c' & sfd & r & home & cd & x & _ & _ & _ & _ & -> & ->).
    unfold shell_calls. destruct (x =? 0).
    + split; [apply in_or_app; right; left; reflexivity|].
      exists (alloc_calls mfd ++ child_calls peerfd c s ++ li ++
              [Sys (Getenv "HOME") home; Sys (Chdir home) cd] ++ chdir_warning cd).
      rewrite <- !app_assoc. reflexivity.
    + split; [reflexivity|].
      split; [apply in_or_app; right; left; reflexivity|].
      exists (alloc_calls mfd ++ child_calls peerfd c s ++ li ++
              [Sys (Getenv "HOME") home; Sys (Chdir home) cd] ++ chdir_warning cd ++
              [Sys (Execl "/bin/bash") x]), "child's child: exec".
      rewrite <- !app_assoc. reflexivity.
Qed.

(** ** How a relay worker ends *)

Lemma closed_app (h1 h2 : list event) : closed (h1 ++ h2) = closed h1 ++ closed h2.
Proof.
  induction h1 as [|e h1 IH]; [reflexivity|].
  destruct e as [c r| | | | |]; simpl; try exact IH.
  destruct c; simpl; try exact IH. rewrite IH. reflexivity.
Qed.

Lemma diagnostics_app (h1 h2 : list event) :
  diagnostics (h1 ++ h2) = diagnostics h1 ++ diagnostics h2.
Proof.
  induction h1 as [|e h1 IH]; [reflexivity|].
  destruct e; simpl; try exact IH. rewrite IH. reflexivity.
Qed.

Lemma marks_app_eq (l1 l2 : list event) :
  marks (l1 ++ l2) = marks_app (marks l1) (marks l2).
Proof.
  unfold marks, marks_app. cbn [m_closed m_diagnostics m_eof m_read_failed m_write_failed].
  rewrite closed_app, diagnostics_app, !existsb_app. reflexivity.
Qed.

(** The inner loop closes nothing and reads nothing; it prints its
    diagnostic when a write has failed, and leaves with bytes left to
    write exactly then. *)
Lemma write_loop_marks (env : environment) (destfd : Z) (buf : list byte) (nread : Z) :
  forall fuel towrite w o w',
    write_loop env fuel destfd buf nread towrite w = (o, w') ->
    exists l (f : bool),
      trace w' = trace w ++ l /\
      marks l = mkMarks [] (if f then ["child: write"] else []) false false f /\
      match o with
      | Ret tw => (tw >? 0) = f
      | _ => f = false
      end.
Proof.
  induction fuel as [|fuel IH]; intros towrite w o w' H.
  - simpl in H. destruct (towrite >? 0) eqn:E; inversion H; subst;
      exists [], false; rewrite app_nil_r; repeat split; assumption.
  - simpl in H. destruct (towrite >? 0) eqn:E.
    + unfold bind at 1 in H. unfold sys at 1 in H.
      set (c := Write destfd (nread - towrite) towrite
                      (slice buf (nread - towrite) towrite)) in *.
      set (r := ret_of env (length (trace w)) c) in *.
      destruct (r <? 0) eqn:Er.
      * unfold bind, perror, ret in H. inversion H; subst.
        exists [Sys c r; Perror "child: write"], true.
        split; [simpl; rewrite <- app_assoc; reflexivity|].
        split; [|exact E].
        unfold marks, c. cbv [closed diagnostics existsb eof_read read_failed
                               write_failed]. rewrite Er. reflexivity.
      * apply IH in H. destruct H as (l & f & Hl & Hm & Ho).
        exists (Sys c r :: l), f.
        split; [rewrite Hl, trace_log, <- app_assoc; reflexivity|].
        split; [|exact Ho].
        change (Sys c r :: l) with ([Sys c r] ++ l).
        rewrite marks_app_eq, Hm. unfold marks, marks_app, c.
        cbv [closed diagnostics existsb eof_read read_failed write_failed
             m_closed m_diagnostics m_eof m_read_failed m_write_failed app].
        rewrite Er. reflexivity.
    + inversion H; subst. exists [], false. rewrite app_nil_r.
      repeat split; assumption.
Qed.

(** The copy loop leaves with [nread < 0] exactly when a read has
    failed, with [nread = 0] exactly when it has read an end of stream,
    and then it has closed its destination, and with [nread > 0] exactly
    when a write has failed, after the diagnostic of the write. *)
Lemma relay_loop_marks (env : environment) (sourcefd destfd : Z) :
  forall fuel buf w o w',
    512 <= Z.of_nat (length buf) ->
    relay_loop env fuel sourcefd destfd buf w = (o, w') ->
    exists l (e rf wf : bool),
      trace w' = trace w ++ l /\
      marks l = mkMarks (if e then [destfd] else [])
                        (if wf then ["child: write"] else []) e rf wf /\
      match o with
      | Ret n => (n =? 0) = e /\ (n <? 0) = rf /\ (n >? 0) = wf
      | _ => e = false /\ rf = false /\ wf = false
      end.
Proof.
  induction fuel as [|fuel IH]; intros buf w o w' Hb H.
  { inversion H; subst. exists [], false, false, false.
    rewrite app_nil_r. repeat split. }
  apply relay_loop_step in H; [|exact Hb]. cbv zeta in H.
  destruct (delivered env (length (trace w)) 512) as [[|b data]|] eqn:Ein.
  - destruct H as [-> [r ->]].
    exists [SysRead sourcefd 512 (Some []); Sys (Close destfd) r], true, false, false.
    split; [rewrite !trace_log, <- app_assoc; reflexivity|].
    split; [reflexivity|repeat split].
  - destruct H as (o1 & w1 & Hw & H).
    apply write_loop_marks in Hw. destruct Hw as (l1 & f & Hl1 & Hm1 & Ho1).
    set (rd := SysRead sourcefd 512 (Some (b :: data))) in *.
    assert (Hrd : forall l, marks (rd :: l) = marks l).
    { intros l. reflexivity. }
    assert (Hn : 0 < Z.of_nat (length (b :: data))) by (simpl; lia).
    destruct o1 as [tw| | | | |].
    + destruct (tw >? 0) eqn:Etw.
      * destruct H as [-> ->]. exists (rd :: l1), false, false, true.
        split; [rewrite Hl1, trace_log, <- app_assoc; reflexivity|].
        split; [rewrite Hrd, Hm1, <- Ho1; reflexivity|].
        split; [apply Z.eqb_neq; lia|].
        split; [apply Z.ltb_ge; lia|apply Z.gtb_lt; exact Hn].
      * destruct (tw =? 0).
        -- apply IH in H; [|pose proof (length_fill_ge buf (b :: data)); lia].
           destruct H as (l2 & e & rf & wf & Hl2 & Hm2 & Ho).
           exists (rd :: l1 ++ l2), e, rf, wf.
           split; [rewrite Hl2, Hl1, trace_log, <- !app_assoc; reflexivity|].
           split; [|exact Ho].
           rewrite Hrd, marks_app_eq, Hm1, Hm2, <- Ho1. reflexivity.
        -- destruct H as [-> ->]. exists (rd :: l1), false, false, false.
           split; [rewrite Hl1, trace_log, <- app_assoc; reflexivity|].
           split; [rewrite Hrd, Hm1, <- Ho1; reflexivity|repeat split].
    + destruct H as [-> ->]. exists (rd :: l1), false, false, false.
      split; [rewrite Hl1, trace_log, <- app_assoc; reflexivity|].
      split; [rewrite Hrd, Hm1, Ho1; reflexivity|repeat split].
    + destruct H as [-> ->]. exists (rd :: l1), false, false, false.
      split; [rewrite Hl1, trace_log, <- app_assoc; reflexivity|].
      split; [rewrite Hrd, Hm1, Ho1; reflexivity|repeat split].
    + destruct H as [-> ->]. exists (rd :: l1), false, false, false.
      split; [rewrite Hl1, trace_log, <- app_assoc; reflexivity|].
      split; [rewrite Hrd, Hm1, Ho1; reflexivity|repeat split].
    + destruct H as [-> ->]. exists (rd :: l1), false, false, false.
      split; [rewrite Hl1, trace_log, <- app_assoc; reflexivity|].
      split; [rewrite Hrd, Hm1, Ho1; reflexivity|repeat split].
    + destruct H as [-> ->]. exists (rd :: l1), false, false, false.
      split; [rewrite Hl1, trace_log, <- app_assoc; reflexivity|].
      split; [rewrite Hrd, Hm1, Ho1; reflexivity|repeat split].
  - destruct H as [-> ->].
    exists [SysRead sourcefd 512 None], false, true, false.
    split; [reflexivity|]. split; [reflexivity|repeat split].
Qed.

Lemma marks_entry (arg s d t : Z) (l : list event) :
  marks (relay_entry arg s d t ++ l) = marks l.
Proof. reflexivity. Qed.

Lemma marks_exit (n t r : Z) :
  marks (relay_exit n t r) =
  mkMarks [] (if n <? 0 then ["child: read"] else []) false false false.
Proof. unfold relay_exit. destruct (n <? 0); reflexivity. Qed.

(** What the history of a worker shows of its end: its [close], its
    diagnostics, and which of an end of stream, a failed read and a
    failed write it has met, exactly one of them when it returns and
    none when it does not. *)
Lemma ps_relay_one_marks (env : environment) (fuel : nat) (arg : Z) (w : world)
      (s d t : Z) :
  relay_ends w arg = Some (s, d, t) ->
  exists l (e rf wf : bool),
    trace (snd (ps_relay_one env fuel arg w)) = trace w ++ l /\
    marks l = mkMarks (if e then [d] else [])
                      ((if wf then ["child: write"] else []) ++
                       (if rf then ["child: read"] else [])) e rf wf /\
    (Nat.b2n e + Nat.b2n rf + Nat.b2n wf)%nat =
    match fst (ps_relay_one env fuel arg w) with
    | Ret _ => 1%nat
    | _ => 0%nat
    end.
Proof.
  intros Hends.
  destruct (ps_relay_one env fuel arg w) as [o w'] eqn:H.
  apply ps_relay_one_inv in H. rewrite Hends in H. cbn [fst snd].
  destruct H as (w1 & o1 & w2 & Hw1 & Hloop & -> & Hend).
  apply relay_loop_marks in Hloop; [|rewrite buf0_size; lia].
  destruct Hloop as (l & e & rf & wf & Hl & Hm & Ho).
  destruct o1 as [n| | | | |].
  - destruct Hend as [r Hend]. destruct Ho as (He & Hrf & Hwf).
    exists (relay_entry arg s d t ++ l ++ relay_exit n t r), e, rf, wf.
    split; [rewrite Hend, Hl, Hw1, <- !app_assoc; reflexivity|].
    split.
    + rewrite marks_entry, marks_app_eq, Hm, marks_exit, Hrf.
      destruct e, rf, wf; reflexivity.
    + subst e rf wf. cbn [omap]. destruct n; reflexivity.
  - destruct Ho as (-> & -> & ->). subst w'.
    exists (relay_entry arg s d t ++ l), false, false, false.
    split; [rewrite Hl, Hw1, <- !app_assoc; reflexivity|].
    split; [rewrite marks_entry, Hm; reflexivity|reflexivity].
  - destruct Ho as (-> & -> & ->). subst w'.
    exists (relay_entry arg s d t ++ l), false, false, false.
    split; [rewrite Hl, Hw1, <- !app_assoc; reflexivity|].
    split; [rewrite marks_entry, Hm; reflexivity|reflexivity].
  - destruct Ho as (-> & -> & ->). subst w'.
    exists (relay_entry arg s d t ++ l), false, false, false.
    split; [rewrite Hl, Hw1, <- !app_assoc; reflexivity|].
    split; [rewrite marks_entry, Hm; reflexivity|reflexivity].
  - destruct Ho as (-> & -> & ->). subst w'.
    exists (relay_entry arg s d t ++ l), false, false, false.
    split; [rewrite Hl, Hw1, <- !app_assoc; reflexivity|].
    split; [rewrite marks_entry, Hm; reflexivity|reflexivity].
  - destruct Ho as (-> & -> & ->). subst w'.
    exists (relay_entry arg s d t ++ l), false, false, false.
    split; [rewrite Hl, Hw1, <- !app_assoc; reflexivity|].
    split; [rewrite marks_entry, Hm; reflexivity|reflexivity].
Qed.

(** X11.  A relay worker closes a descriptor only when it has read an
    end of stream, and then it closes the descriptor it took as its
    destination, once: a worker stopped by a failed read or a failed
    write, or still copying, has closed nothing. *)
Theorem relay_one_closes_on_eof (env : environment) (fuel : nat) (arg : Z)
        (w : world) (s d t : Z) :
  relay_ends w arg = Some (s, d, t) ->
  exists l,
    trace (snd (ps_relay_one env fuel arg w)) = trace w ++ l /\
    closed l = if existsb eof_read l then [d] else [].
Proof.
  intros Hends.
  destruct (ps_relay_one_marks env fuel arg w s d t Hends)
    as (l & e & rf & wf & Hl & Hm & _).
  exists l. split; [exact Hl|].
  unfold marks in Hm. inversion Hm as [[Hc Hd He Hrf Hwf]].
  rewrite He. exact Hc.
Qed.

Lemma relay_one_closes_on_eof_witness :
  exists l,
    trace (snd (ps_relay_one (env_of 1 input_hi) 9 0 relay_world)) =
    trace relay_world ++ l /\
    closed l = if existsb eof_read l then [3] else [].
Proof.
  apply (relay_one_closes_on_eof (env_of 1 input_hi) 9 0 relay_world 4 3 3).
  vm_compute. reflexivity.
Defined.

(** X12.  A relay worker that returns has met exactly one of an end of
    stream, a failed read and a failed write, and a worker that has not
    returned has met none of them.  Its diagnostics are those of the
    failure it has met: [child: write] after a failed write,
    [child: read] after a failed read, and none after an end of
    stream. *)
Theorem relay_one_diagnostics (env : environment) (fuel : nat) (arg : Z)
        (w : world) (s d t : Z) :
  relay_ends w arg = Some (s, d, t) ->
  exists l,
    trace (snd (ps_relay_one env fuel arg w)) = trace w ++ l /\
    diagnostics l =
    (if existsb write_failed l then ["child: write"] else []) ++
    (if existsb read_failed l then ["child: read"] else []) /\
    (Nat.b2n (existsb eof_read l) + Nat.b2n (existsb read_failed l) +
     Nat.b2n (existsb write_failed l))%nat =
    match fst (ps_relay_one env fuel arg w) with
    | Ret _ => 1%nat
    | _ => 0%nat
    end.
Proof.
  intros Hends.
  destruct (ps_relay_one_marks env fuel arg w s d t Hends)
    as (l & e & rf & wf & Hl & Hm & Hone).
  exists l. split; [exact Hl|].
  unfold marks in Hm. inversion Hm as [[Hc Hd He Hrf Hwf]].
  rewrite He, Hrf, Hwf. split; [exact Hd|exact Hone].
Qed.

Lemma relay_one_diagnostics_witness :
  exists l,
    trace (snd (ps_relay_one (env_of 1 input_hi) 9 0 relay_world)) =
    trace relay_world ++ l /\
    diagnostics l =
    (if existsb write_failed l then ["child: write"] else []) ++
    (if existsb read_failed l then ["child: read"] else []) /\
    (Nat.b2n (existsb eof_read l) + Nat.b2n (existsb read_failed l) +
     Nat.b2n (existsb write_failed l))%nat =
    match fst (ps_relay_one (env_of 1 input_hi) 9 0 relay_world) with
    | Ret _ => 1%nat
    | _ => 0%nat
    end.
Proof.
  apply (relay_one_diagnostics (env_of 1 input_hi) 9 0 relay_world 4 3 3).
  vm_compute. reflexivity.
Defined.

(** ** The descriptors for which the relay works *)

(** X13.  For two distinct descriptors that are not negative, the two
    workers copy in opposite directions, the worker started with 0 from
    the peer to the pty master and the worker started with 1 from the
    pty master to the peer, exactly when the peer descriptor is even and
    the pty master descriptor is odd. *)
Theorem relay_directions (w : world) (peerfd mfd : Z) :
  ps_relay_fds w = (peerfd, mfd) ->
  0 <= peerfd -> 0 <= mfd -> peerfd <> mfd ->
  ((exists t t',
       relay_ends w 0 = Some (peerfd, mfd, t) /\
       relay_ends w 1 = Some (mfd, peerfd, t')) <->
   Z.even peerfd = true /\ Z.even mfd = false).
Proof.
  intros Hf Hp Hm Hne.
  pose proof (relay_ends_parity w 0 (or_introl eq_refl)) as H0.
  pose proof (relay_ends_parity w 1 (or_intror eq_refl)) as H1.
  rewrite Hf in H0, H1. cbn [fst snd Z.eqb] in H0, H1.
  specialize (H0 Hp Hm). specialize (H1 Hp Hm).
  rewrite H0, H1. split.
  - intros (t & t' & E0 & E1).
    destruct (Z.even peerfd), (Z.even mfd); inversion E0; inversion E1;
      try (split; reflexivity); congruence.
  - intros [-> ->]. eexists _, _. split; reflexivity.
Qed.

Lemma relay_directions_witness :
  (exists t t',
      relay_ends relay_world 0 = Some (4, 3, t) /\
      relay_ends relay_world 1 = Some (3, 4, t')) <->
  Z.even 4 = true /\ Z.even 3 = false.
Proof.
  apply (relay_directions relay_world 4 3); [reflexivity|lia|lia|lia].
Defined.

(** ** The process of a session *)

(** X14.  The process forked by the supervisor for a connection closes
    the listening socket first, runs one session and ends in one of
    four ways: with exit status 0, its last call being the [wait] for
    the shell; with exit status -1 or 1, right after a diagnostic; or as
    the shell, [execl] being its last call. *)
Theorem session_process_exit (env : environment) (w : world) (fuel : nat) :
  0 <= turn_peerfd env w -> turn_pid env w = 0 ->
  exists c l,
    trace (snd (ps_server_run env (S fuel) w)) =
    trace w ++ [Sys (Accept (ps_sockfd w)) (turn_peerfd env w); Sys Fork 0;
                Sys (Close (ps_sockfd w)) c] ++ l /\
    match fst (ps_server_run env (S fuel) w) with
    | Exited st =>
        (st = 0 /\ exists h r, l = h ++ [Sys Wait r]) \/
        ((st = -1 \/ st = 1) /\ exists h msg, l = h ++ [Perror msg])
    | Execed => exists h, l = h ++ [Sys (Execl "/bin/bash") 0]
    | _ => False
    end.
Proof.
  intros Hp Hpid. rewrite ps_server_run_child by assumption.
  set (w0 := snd (sys env (Close (ps_sockfd w)) (turn_forked env w))).
  assert (T0 : trace w0 =
               trace w ++ [Sys (Accept (ps_sockfd w)) (turn_peerfd env w); Sys Fork 0;
                           Sys (Close (ps_sockfd w))
                               (ret_of env (length (trace (turn_forked env w)))
                                       (Close (ps_sockfd w)))]).
  { subst w0. unfold sys. cbn [snd]. rewrite trace_log.
    set (c := ret_of env _ (Close (ps_sockfd w))).
    unfold turn_forked, turn_accepted. rewrite !trace_log, Hpid, <- !app_assoc.
    reflexivity. }
  set (c := ret_of env _ (Close (ps_sockfd w))) in T0.
  destruct (ps_server_connected env (turn_peerfd env w) w0) as [o w1] eqn:Hs.
  rewrite (bind_eq _ _ _ _ _ Hs).
  pose proof (ps_server_connected_run env (turn_peerfd env w) w0) as Hr.
  rewrite Hs in Hr. cbn [fst snd] in Hr.
  destruct Hr as (l & Hl & Hcases). exists c, l.
  assert (Ht : forall (o' : outcome unit), trace (snd (o', w1)) =
               trace w ++ [Sys (Accept (ps_sockfd w)) (turn_peerfd env w); Sys Fork 0;
                           Sys (Close (ps_sockfd w)) c] ++ l).
  { intros o'. cbn [snd]. rewrite Hl, T0, <- app_assoc. reflexivity. }
  destruct Hcases as [(-> & h & msg & -> & _)|[(mfd & p & _ & _ & -> & ->)|
    [(mfd & p & h & _ & _ & -> & [(-> & k & v & _ & Hh)|(-> & d0 & d1 & r & ->)])|
     (mfd & c1 & s & li & rest & _ & -> & [(-> & -> & h & e & msg & -> & _)|Hshell])]]].
  - unfold exit. split; [apply Ht|]. cbn [fst].
    right. split; [left; reflexivity|]. exists h, msg. reflexivity.
  - unfold exit. split; [apply Ht|]. cbn [fst].
    right. split; [left; reflexivity|].
    exists (alloc_calls mfd ++ [Sys Fork p]), "child: fork".
    rewrite <- app_assoc. reflexivity.
  - unfold exit. split; [apply Ht|]. cbn [fst].
    right. split; [left; reflexivity|].
    destruct Hh as [-> | ->].
    + exists (alloc_calls mfd ++
              [Sys Fork p; Store RelayFds 0 (turn_peerfd env w); Store RelayFds 1 mfd;
               Store RelayThreads 0 v; Sys (PthreadCreate 0 0) k]),
        "child: pthread_create(1)".
      rewrite <- app_assoc. reflexivity.
    + exists (alloc_calls mfd ++
              [Sys Fork p; Store RelayFds 0 (turn_peerfd env w); Store RelayFds 1 mfd;
               Store RelayThreads 0 (next_tid w0); Sys (PthreadCreate 0 0) 0;
               Store RelayThreads 1 v; Sys (PthreadCreate 1 1) k]),
        "child: pthread_create(2)".
      rewrite <- app_assoc. reflexivity.
  - unfold exit. split; [apply Ht|]. cbn [fst].
    left. split; [reflexivity|].
    exists (alloc_calls mfd ++
            Sys Fork p :: Store RelayFds 0 (turn_peerfd env w) ::
            Store RelayFds 1 mfd :: relay_started_calls (next_tid w0) d0 d1), r.
    rewrite <- app_assoc. reflexivity.
  - split; [apply Ht|]. cbn [fst].
    right. split; [right; reflexivity|].
    exists (alloc_calls mfd ++ child_calls (turn_peerfd env w) c1 s ++ h ++ [e]), msg.
    rewrite app_nil_r, <- !app_assoc. reflexivity.
  - destruct Hshell as (name & c' & sfd & r & home & cd & x & _ & _ & _ & _ & -> & ->).
    destruct (x =? 0) eqn:Ex.
    + split; [apply Ht|]. cbn [fst]. unfold shell_calls. rewrite Ex.
      exists (alloc_calls mfd ++ child_calls (turn_peerfd env w) c1 s ++ li ++
              [Sys (Getenv "HOME") home; Sys (Chdir home) cd] ++ chdir_warning cd).
      rewrite <- !app_assoc. reflexivity.
    + split; [apply Ht|]. cbn [fst]. unfold shell_calls. rewrite Ex.
      right. split; [right; reflexivity|].
      exists (alloc_calls mfd ++ child_calls (turn_peerfd env w) c1 s ++ li ++
              [Sys (Getenv "HOME") home; Sys (Chdir home) cd] ++ chdir_warning cd ++
              [Sys (Execl "/bin/bash") x]), "child's child: exec".
      rewrite <- !app_assoc. reflexivity.
Qed.

Lemma session_process_exit_witness :
  exists c l,
    trace (snd (ps_server_run env_shell 1 (world_after_init 3))) =
    trace (world_after_init 3) ++
    [Sys (Accept (ps_sockfd (world_after_init 3)))
         (turn_peerfd env_shell (world_after_init 3));
     Sys Fork 0; Sys (Close (ps_sockfd (world_after_init 3))) c] ++ l /\
    match fst (ps_server_run env_shell 1 (world_after_init 3)) with
    | Exited st =>
        (st = 0 /\ exists h r, l = h ++ [Sys Wait r]) \/
        ((st = -1 \/ st = 1) /\ exists h msg, l = h ++ [Perror msg])
    | Execed => exists h, l = h ++ [Sys (Execl "/bin/bash") 0]
    | _ => False
    end.
Proof.
  apply (session_process_exit env_shell (world_after_init 3) 0).
  - vm_compute. discriminate.
  - vm_compute. reflexivity.
Defined.

(** ** Writes that accept all they are offered *)

Lemma chunks_read_app (l1 l2 : list event) :
  chunks_read (l1 ++ l2) = chunks_read l1 ++ chunks_read l2.
Proof.
  induction l1 as [|e l1 IH]; [reflexivity|].
  destruct e as [| fd count [[|b data]|] | | | |]; simpl; try exact IH.
  rewrite IH. reflexivity.
Qed.

Lemma chunks_written_app (l1 l2 : list event) :
  chunks_written (l1 ++ l2) = chunks_written l1 ++ chunks_written l2.
Proof.
  induction l1 as [|e l1 IH]; [reflexivity|].
  destruct e as [c r| | | | |]; simpl; try exact IH.
  destruct c; simpl; try exact IH. rewrite IH. reflexivity.
Qed.

(** With such writes the inner loop makes one write, of the whole
    chunk. *)
Lemma write_loop_whole (env : environment) (destfd : Z) (buf : list byte)
      (nread : Z) (fuel : nat) (w : world) :
  full_writes env -> 0 < nread ->
  write_loop env (S fuel) destfd buf nread nread w =
  (Ret 0, log (Sys (Write destfd 0 nread (slice buf 0 nread)) nread) w).
Proof.
  intros Hfull Hn. simpl. rewrite (proj2 (Z.gtb_lt _ _) Hn).
  unfold bind at 1. unfold sys at 1. rewrite Hfull, Z.sub_diag.
  rewrite (proj2 (Z.ltb_ge _ _)) by lia.
  destruct fuel; simpl; reflexivity.
Qed.

Lemma relay_loop_whole (env : environment) (sourcefd destfd : Z) :
  full_writes env ->
  forall fuel buf w n w',
    512 <= Z.of_nat (length buf) ->
    relay_loop env fuel sourcefd destfd buf w = (Ret n, w') ->
    exists l,
      trace w' = trace w ++ l /\
      chunks_written l = chunks_read l /\ Forall whole_write l.
Proof.
  intros Hfull. induction fuel as [|fuel IH]; intros buf w n w' Hb H;
    [discriminate H|].
  apply relay_loop_step in H; [|exact Hb]. cbv zeta in H.
  destruct (delivered env (length (trace w)) 512) as [[|b data]|] eqn:Ein.
  - destruct H as [_ [r ->]]. eexists [_; _].
    split; [rewrite !trace_log, <- app_assoc; reflexivity|].
    split; [reflexivity|repeat constructor].
  - destruct H as (o1 & w1 & Hw & H).
    assert (Hn : 0 < Z.of_nat (length (b :: data))) by (simpl; lia).
    destruct fuel as [|fuel].
    { change (write_loop env 0 destfd (fill buf (b :: data))
                         (Z.of_nat (length (b :: data)))
                         (Z.of_nat (length (b :: data))))
        with (if Z.of_nat (length (b :: data)) >? 0
              then @out_of_fuel Z
              else ret (Z.of_nat (length (b :: data)))) in Hw.
      rewrite (proj2 (Z.gtb_lt _ _) Hn) in Hw.
      inversion Hw; subst. destruct H as [H _]. discriminate H. }
    rewrite write_loop_whole in Hw by assumption.
    inversion Hw; subst o1 w1. cbn [Z.gtb Z.eqb Z.compare] in H.
    apply IH in H; [|pose proof (length_fill_ge buf (b :: data)); lia].
    destruct H as (l & Hl & Hc & HF).
    rewrite slice_fill in Hl.
    exists ([SysRead sourcefd 512 (Some (b :: data));
             Sys (Write destfd 0 (Z.of_nat (length (b :: data))) (b :: data))
                 (Z.of_nat (length (b :: data)))] ++ l).
    split; [rewrite Hl, !trace_log, <- !app_assoc; reflexivity|].
    split; [cbn [app chunks_written chunks_read]; rewrite Hc; reflexivity|].
    constructor; [exact I|]. constructor; [|exact HF].
    repeat split.
  - destruct H as [_ ->]. eexists [_]. split; [reflexivity|].
    split; [reflexivity|repeat constructor].
Qed.

(** X15.  When every write accepts all the bytes it is offered, a relay
    worker that returns has made one write for each chunk it has read:
    the chunks written are the chunks read, in their order, each by a
    single write from the start of the buffer. *)
Theorem relay_one_whole_chunks (env : environment) (fuel : nat) (arg : Z)
        (w : world) :
  full_writes env ->
  fst (ps_relay_one env fuel arg w) = Ret tt ->
  exists l,
    trace (snd (ps_relay_one env fuel arg w)) = trace w ++ l /\
    chunks_written l = chunks_read l /\ Forall whole_write l.
Proof.
  intros Hfull Hret.
  destruct (ps_relay_one env fuel arg w) as [o w'] eqn:H.
  apply ps_relay_one_inv in H. cbn [fst snd] in *. subst o.
  destruct (relay_ends w arg) as [[[s d] t]|]; [|destruct H as [H _]; discriminate H].
  destruct H as (w1 & o1 & w2 & Hw1 & Hloop & Ho & Hend).
  destruct o1 as [n| | | | |]; try discriminate Ho.
  destruct Hend as [r Hend].
  apply (relay_loop_whole env s d Hfull) in Hloop; [|rewrite buf0_size; lia].
  destruct Hloop as (l & Hl & Hc & HF).
  exists (relay_entry arg s d t ++ l ++ relay_exit n t r).
  split; [rewrite Hend, Hl, Hw1, <- !app_assoc; reflexivity|].
  split.
  - rewrite !chunks_written_app, !chunks_read_app, Hc.
    unfold relay_exit. destruct (n <? 0); reflexivity.
  - apply Forall_app. split; [repeat constructor|].
    apply Forall_app. split; [exact HF|].
    unfold relay_exit. destruct (n <? 0); repeat constructor.
Qed.

Lemma relay_one_whole_chunks_witness :
  exists l,
    trace (snd (ps_relay_one env_full 9 0 relay_world)) = trace relay_world ++ l /\
    chunks_written l = chunks_read l /\ Forall whole_write l.
Proof.
  apply (relay_one_whole_chunks env_full 9 0 relay_world).
  - intros n fd off count data. reflexivity.
  - vm_compute. reflexivity.
Defined.

(** ** What a failure in a session reaches *)

Lemma keeps_not_accept_ps_relay_one (env : environment) (fuel : nat) (arg : Z) :
  keeps not_accept (ps_relay_one env fuel arg).
Proof.
  unfold ps_relay_one.
  repeat first [apply keeps_relay_loop; intros; exact I | keeps_step].
Qed.

(** A worker whose loads succeed returns, aborts or is still running. *)
Lemma ps_relay_one_outcome (env : environment) (fuel : nat) (arg : Z) (w : world)
      (s d t : Z) :
  relay_ends w arg = Some (s, d, t) ->
  match fst (ps_relay_one env fuel arg w) with
  | Ret _ | OutOfFuel | Aborted => True
  | _ => False
  end.
Proof.
  intros Hends.
  destruct (ps_relay_one env fuel arg w) as [o w'] eqn:H.
  apply ps_relay_one_inv in H. rewrite Hends in H. cbn [fst].
  destruct H as (w1 & o1 & w2 & _ & Hloop & -> & _).
  apply relay_loop_run in Hloop; [|rewrite buf0_size; lia].
  destruct Hloop as (l & _ & Ho).
  destruct o1; simpl; try exact I; exact Ho.
Qed.

(** When no write accepts more than it is offered, the assertion of the
    worker holds. *)
Lemma ps_relay_one_no_abort (env : environment) (fuel : nat) (arg : Z) (w : world) :
  write_contract env -> fst (ps_relay_one env fuel arg w) <> Aborted.
Proof.
  intros Hwrite.
  destruct (ps_relay_one env fuel arg w) as [o w'] eqn:H.
  apply ps_relay_one_inv in H. cbn [fst].
  destruct (relay_ends w arg) as [[[s d] t]|].
  - destruct H as (w1 & o1 & w2 & _ & Hloop & -> & _).
    apply (relay_loop_bounds env Hwrite) in Hloop; [|rewrite buf0_size; lia].
    destruct Hloop as [_ Ho].
    destruct o1; simpl; try discriminate; exfalso; exact Ho.
  - destruct H as [-> _]. discriminate.
Qed.

(** C4, as the code has it.  In a turn of the supervisor loop: when
    [accept] and [fork] succeed and [wait] returns the child, the parent
    prints the status and goes on with the next turn, whatever the
    status, so that the server runs on as long as they do; the child runs
    one session and ends with [exit] of the value of
    [ps_server_connected], or as the shell, and never returns to the
    loop; with a failing pty allocation it exits with -1; the server
    leaves the loop and returns when [accept] fails, and also when its
    own [fork] fails.  A relay worker, a thread of the process of the
    session that runs [ps_relay_one] on the shared arrays as [ps_relay]
    has left them, makes no [accept] and never ends the process with
    [exit] or [exec]: it returns, its last call being [pthread_cancel],
    or is still copying, or aborts, which takes a [write] that accepts
    more than it is offered; a read or a write that fails makes it print
    its diagnostic and return. *)
Theorem session_failures_end_child (env : environment) (w : world) (fuel : nat) :
  ((forall w', 0 <= turn_peerfd env w' /\ 0 < turn_pid env w' /\
               turn_newpid env w' = turn_pid env w') ->
   fst (ps_server_run env fuel w) = OutOfFuel) /\
  (0 <= turn_peerfd env w -> 0 < turn_pid env w ->
   turn_newpid env w = turn_pid env w ->
   ps_server_run env (S fuel) w =
   ps_server_run env fuel
     (log (Printf fmt_exited (turn_status env w))
          (turn_waited env w))) /\
  (0 <= turn_peerfd env w -> turn_pid env w = 0 ->
   match fst (ps_server_connected env (turn_peerfd env w)
                (snd (sys env (Close (ps_sockfd w)) (turn_forked env w)))) with
   | Ret st => fst (ps_server_run env (S fuel) w) = Exited st
   | Exited st => fst (ps_server_run env (S fuel) w) = Exited st
   | Execed => fst (ps_server_run env (S fuel) w) = Execed
   | _ => False
   end) /\
  (0 <= turn_peerfd env w -> turn_pid env w = 0 ->
   alloc_fails env (snd (sys env (Close (ps_sockfd w)) (turn_forked env w))) ->
   fst (ps_server_run env (S fuel) w) = Exited (-1)) /\
  (turn_peerfd env w < 0 -> fst (ps_server_run env (S fuel) w) = Ret tt) /\
  (0 <= turn_peerfd env w -> turn_pid env w < 0 ->
   fst (ps_server_run env (S fuel) w) = Ret tt) /\
  (forall peerfd mfd w0 arg,
      0 <= peerfd -> 0 <= mfd -> arg = 0 \/ arg = 1 ->
      fst (ps_relay env peerfd mfd w0) = Ret 0 ->
      relay_ends (thread_world (snd (ps_relay env peerfd mfd w0))) arg <> None) /\
  (forall env' fuel' arg wt s d t,
      relay_ends wt arg = Some (s, d, t) ->
      exists l,
        trace (snd (ps_relay_one env' fuel' arg wt)) = trace wt ++ l /\
        Forall not_accept l /\
        match fst (ps_relay_one env' fuel' arg wt) with
        | Ret _ => exists h c, l = h ++ [Sys (PthreadCancel t) c]
        | OutOfFuel =>
            existsb read_failed l = false /\ existsb write_failed l = false
        | Aborted => ~ write_contract env'
        | _ => False
        end /\
        (existsb read_failed l || existsb write_failed l = true ->
         fst (ps_relay_one env' fuel' arg wt) = Ret tt /\ diagnostics l <> [])).
Proof.
  split; [|split; [|split; [|split; [|split; [|split; [|split]]]]]].
  - intros H. apply ps_server_run_serves_on. exact H.
  - intros Hp Hpid Hw. rewrite ps_server_run_parent by assumption.
    rewrite Hw, Z.eqb_refl. reflexivity.
  - intros Hp Hpid. rewrite ps_server_run_child by assumption.
    pose proof (finishes_ps_server_connected env (turn_peerfd env w)
                  (snd (sys env (Close (ps_sockfd w)) (turn_forked env w)))) as Hf.
    unfold bind.
    destruct (ps_server_connected env (turn_peerfd env w)
                (snd (sys env (Close (ps_sockfd w)) (turn_forked env w))))
      as [[st| | | | |] w1]; simpl in *; try exact Hf; reflexivity.
  - intros Hp Hpid Ha. rewrite ps_server_run_child by assumption.
    unfold bind. rewrite ps_server_connected_alloc_fails by assumption.
    reflexivity.
  - intros Hp. rewrite ps_server_run_accept_fails by assumption. reflexivity.
  - intros Hp Hpid. rewrite ps_server_run_fork_fails by assumption. reflexivity.
  - intros peerfd mfd w0 arg Hp Hm Harg Hret.
    destruct (ps_relay_started env peerfd mfd w0 Hret) as (d0 & d1 & _ & Hf & _).
    change (relay_ends (thread_world (snd (ps_relay env peerfd mfd w0))) arg)
      with (relay_ends (snd (ps_relay env peerfd mfd w0)) arg).
    rewrite relay_ends_parity by (rewrite ?Hf; simpl; auto).
    discriminate.
  - intros env' fuel' arg wt s d t Hends.
    destruct (ps_relay_one_marks env' fuel' arg wt s d t Hends)
      as (l & e & rf & wf & Hl & Hm & Hone).
    unfold marks in Hm. inversion Hm as [[Hc Hd He Hrf Hwf]]. clear Hm.
    exists l. split; [exact Hl|]. split.
    { destruct (keeps_not_accept_ps_relay_one env' fuel' arg wt) as (l' & Hl' & HF & _).
      rewrite Hl in Hl'. apply app_inv_head in Hl'. subst l'. exact HF. }
    pose proof (ps_relay_one_outcome env' fuel' arg wt s d t Hends) as Hout.
    pose proof (ps_relay_one_no_abort env' fuel' arg wt) as Hab.
    pose proof (ps_relay_one_returns env' fuel' arg wt) as Hret.
    rewrite Hrf, Hwf.
    destruct (fst (ps_relay_one env' fuel' arg wt)) as [[]| | | | |];
      try (exfalso; exact Hout).
    + split.
      * destruct (Hret eq_refl) as (s' & d' & t' & l0 & r & Hends' & Hl0 & _).
        rewrite Hends in Hends'. inversion Hends'; subst s' d' t'.
        rewrite Hl in Hl0. apply app_inv_head in Hl0.
        exists l0, r. exact Hl0.
      * intros Hio. split; [reflexivity|]. rewrite Hd.
        destruct wf; [discriminate|]. destruct rf; [discriminate|].
        discriminate Hio.
    + split; [intros Hw; exact (Hab Hw eq_refl)|].
      destruct e, rf, wf; try discriminate Hone. intros Hio. discriminate Hio.
    + split.
      * destruct e, rf, wf; try discriminate Hone. split; reflexivity.
      * destruct e, rf, wf; try discriminate Hone. intros Hio. discriminate Hio.
Qed.

(** Three sessions served in turn; a failing pty allocation; a failing
    [fork] of the supervisor; and a relay worker whose read fails. *)
Lemma session_failures_end_child_witness :
  fst (ps_server_run env_sessions 9 (world_after_init 3)) = OutOfFuel /\
  ps_server_run env_sessions 3 (world_after_init 3) =
  ps_server_run env_sessions 2
    (log (Printf fmt_exited
                 (turn_status env_sessions (world_after_init 3)))
         (turn_waited env_sessions (world_after_init 3))) /\
  fst (ps_server_run env_grantpt_fails 1 (world_after_init 3)) = Exited (-1) /\
  fst (ps_server_run env_fork_fails 3 (world_after_init 3)) = Ret tt /\
  fst (ps_relay_one env_read_fails 3 0 relay_world) = Ret tt /\
  diagnostics (trace (snd (ps_relay_one env_read_fails 3 0 relay_world))) <> [].
Proof.
  split; [|split; [|split; [|split]]].
  - apply (proj1 (session_failures_end_child env_sessions (world_after_init 3) 9)).
    intros w'. split; [|split].
    + unfold turn_peerfd. simpl. lia.
    + unfold turn_pid. simpl. lia.
    + reflexivity.
  - apply (proj1 (proj2
      (session_failures_end_child env_sessions (world_after_init 3) 2))).
    + vm_compute. discriminate.
    + vm_compute. reflexivity.
    + vm_compute. reflexivity.
  - apply (proj1 (proj2 (proj2 (proj2
      (session_failures_end_child env_grantpt_fails (world_after_init 3) 0))))).
    + vm_compute. discriminate.
    + vm_compute. reflexivity.
    + right. left. vm_compute. discriminate.
  - apply (proj1 (proj2 (proj2 (proj2 (proj2 (proj2
      (session_failures_end_child env_fork_fails (world_after_init 3) 2))))))).
    + vm_compute. discriminate.
    + vm_compute. reflexivity.
  - destruct (proj2 (proj2 (proj2 (proj2 (proj2 (proj2 (proj2
      (session_failures_end_child env_sessions (world_after_init 3) 0)))))))
      env_read_fails 3%nat 0 relay_world 4 3 3 eq_refl)
      as (l & Hl & _ & _ & Hio).
    cbn [trace relay_world app] in Hl. subst l.
    apply Hio. vm_compute. reflexivity.
Defined.

(** C4, as stated, fails: the connection is accepted, the [fork] of the
    supervisor fails, and the server leaves its loop and returns although
    no [accept] has failed. *)
Lemma fork_failure_ends_server :
  fst (ps_server_run env_fork_fails 5 (world_after_init 3)) = Ret tt /\
  trace (snd (ps_server_run env_fork_fails 5 (world_after_init 3))) =
  [Sys (Accept 3) 4; Sys Fork (-1); Perror "fork"; Sys (Close 3) 0] /\
  existsb accept_failed
          (trace (snd (ps_server_run env_fork_fails 5 (world_after_init 3)))) = false.
Proof.
  repeat split; vm_compute; reflexivity.
Qed.
